(** * DeerFlow logging subsystem: a shallow embedding and its properties

    The development follows the four cooperating modules of
    [src/logging]: [handlers.py] (the date-rotating file sink),
    [formatters.py] (the two JSON encoders), [config.py] (channel
    set-up) and [interaction_logger.py] (the public event logger).

    Python library code the modules call ([pathlib], [json], [logging],
    the file system) is modelled to the depth the modules need it; the
    conventions are spelled out where each model is introduced. *)

From Stdlib Require Import List String Ascii ZArith Lia Bool Arith PeanoNat.
From Stdlib Require Import Sorting.Sorted Sorting.Permutation.
From Stdlib Require Import DecimalString DecimalNat DecimalZ.
Import ListNotations.

Open Scope string_scope.

(* ================================================================== *)
(** ** Exceptions and the effect monad *)

(** The exception classes the modelled code can raise. *)
Inductive oserror : Type :=
| EEXIST | ENOENT | EACCES | ENOTDIR | EISDIR.

Inductive exn : Type :=
| OSError (e : oserror)
| TypeError (msg : string)
| AttributeError (name : string)
| KeyError (key : string).

(** Outcome of a call: a value or a raised exception. *)
Inductive result (A : Type) : Type :=
| Ok (a : A)
| Raise (e : exn).
Arguments Ok {A} a.
Arguments Raise {A} e.

Definition is_ok {A} (r : result A) : bool :=
  match r with Ok _ => true | Raise _ => false end.

(** Python statements mutate state and may raise; state changes made
    before an exception stay in place, so a computation returns the
    state in both cases. *)
Definition M (S A : Type) : Type := S -> result A * S.

Definition ret {S A} (a : A) : M S A := fun s => (Ok a, s).
Definition raise {S A} (e : exn) : M S A := fun s => (Raise e, s).
Definition bind {S A B} (m : M S A) (k : A -> M S B) : M S B :=
  fun s => match m s with
           | (Ok a, s') => k a s'
           | (Raise e, s') => (Raise e, s')
           end.
Definition get {S} : M S S := fun s => (Ok s, s).
Definition put {S} (s : S) : M S unit := fun _ => (Ok tt, s).
Definition modify {S} (f : S -> S) : M S unit := fun s => (Ok tt, f s).

(** [try: m except Exception: h] *)
Definition try_except {S A} (m : M S A) (h : exn -> M S A) : M S A :=
  fun s => match m s with
           | (Ok a, s') => (Ok a, s')
           | (Raise e, s') => h e s'
           end.

Declare Scope py_scope.
Delimit Scope py_scope with py.
Notation "x <- m ;; k" := (bind m (fun x => k))
  (at level 61, m at next level, right associativity) : py_scope.
Notation "m ;;; k" := (bind m (fun _ => k))
  (at level 61, right associativity) : py_scope.
Open Scope py_scope.

(** Run the statements of a [for] loop in order. *)
Fixpoint for_each {S A} (xs : list A) (body : A -> M S unit) : M S unit :=
  match xs with
  | [] => ret tt
  | x :: xs' => body x ;;; for_each xs' body
  end.

(* ================================================================== *)
(** ** Text: decimal numerals, padding, searching *)

Definition LF : ascii := ascii_of_nat 10.
Definition CR : ascii := ascii_of_nat 13.
Definition newline : string := String LF "".

(** [str(n)] for a Python int. *)
Definition str_of_nat (n : nat) : string := NilEmpty.string_of_uint (Nat.to_uint n).
Definition str_of_Z (z : Z) : string := NilZero.string_of_int (Z.to_int z).

(** One decimal digit, as [strftime] prints it. *)
Definition digit (n : nat) : ascii := ascii_of_nat (48 + n mod 10).

Definition pad2 (n : nat) : string :=
  String (digit (n / 10)) (String (digit n) "").

Definition pad4 (n : nat) : string :=
  String (digit (n / 1000)) (String (digit (n / 100))
    (String (digit (n / 10)) (String (digit n) ""))).

(** [s.rfind(c)]: index of the last occurrence of [c], if any. *)
Fixpoint rfind_from (c : ascii) (s : string) (i : nat) (found : option nat)
  : option nat :=
  match s with
  | EmptyString => found
  | String d s' =>
      rfind_from c s' (S i) (if Ascii.eqb c d then Some i else found)
  end.

Definition rfind (c : ascii) (s : string) : option nat := rfind_from c s 0 None.

Fixpoint string_in (s : string) (l : list string) : bool :=
  match l with
  | [] => false
  | x :: l' => String.eqb s x || string_in s l'
  end.

(** [needle in s] *)
Fixpoint contains (needle s : string) : bool :=
  String.prefix needle s
  || match s with
     | EmptyString => false
     | String _ s' => contains needle s'
     end.

(** Whether a text has no line break, for a reader that splits on LF
    and CR (Python's universal newlines when iterating over a file). *)
Fixpoint single_line (s : string) : bool :=
  match s with
  | EmptyString => true
  | String c s' => negb (Ascii.eqb c LF) && negb (Ascii.eqb c CR) && single_line s'
  end.

(* ================================================================== *)
(** ** Calendar dates and the wall clock *)

(** [datetime.date]: year 1..9999, month 1..12, day 1..31. *)
Record date : Type := mkDate { year : nat; month : nat; day : nat }.

Definition date_eqb (a b : date) : bool :=
  Nat.eqb (year a) (year b) && Nat.eqb (month a) (month b)
  && Nat.eqb (day a) (day b).


(** [date.strftime("%Y-%m-%d")] (four-digit years). *)
Definition strftime_Ymd (d : date) : string :=
  pad4 (year d) ++ "-" ++ pad2 (month d) ++ "-" ++ pad2 (day d).

(** One reading of the wall clock: [time.time()] as whole seconds since
    the epoch, and the local calendar date and time of day that
    [datetime.now()] reports for the same instant.  The clock is an
    input of the model; it does not advance during one call. *)
Record instant : Type := mkInstant {
  epoch : Z;
  today : date;
  hour : nat; minute : nat; second : nat
}.

(** [datetime.isoformat()] at whole seconds. *)
Definition isoformat (t : instant) : string :=
  strftime_Ymd (today t) ++ "T" ++ pad2 (hour t) ++ ":" ++ pad2 (minute t)
  ++ ":" ++ pad2 (second t).

(** [strftime("%Y-%m-%d %H:%M:%S")] *)
Definition strftime_YmdHMS (t : instant) : string :=
  strftime_Ymd (today t) ++ " " ++ pad2 (hour t) ++ ":" ++ pad2 (minute t)
  ++ ":" ++ pad2 (second t).

(* ================================================================== *)
(** ** Paths ([pathlib.Path]) *)

(** A path is the list of its components; [[]] is the current
    directory.  [str(path)] and [os.path.abspath] are the identity on
    this representation. *)
Definition path : Type := list string.

Fixpoint path_eqb (p q : path) : bool :=
  match p, q with
  | [], [] => true
  | a :: p', b :: q' => String.eqb a b && path_eqb p' q'
  | _, _ => false
  end.

(** [p / name] *)
Definition path_join (p : path) (name : string) : path := (p ++ [name])%list.

(** [p.parent] *)
Definition path_parent (p : path) : path := removelast p.

(** [p.name] *)
Definition path_name (p : path) : string := List.last p "".

(** [p.suffix]: from the last dot of the name, unless that dot is the
    first or the last character. *)
Definition path_suffix (p : path) : string :=
  let name := path_name p in
  match rfind "." name with
  | Some i =>
      if (Nat.ltb 0 i && Nat.ltb i (String.length name - 1))%bool
      then substring i (String.length name - i) name
      else ""
  | None => ""
  end.

(** [p.stem]: the name without its suffix. *)
Definition path_stem (p : path) : string :=
  let name := path_name p in
  match rfind "." name with
  | Some i =>
      if (Nat.ltb 0 i && Nat.ltb i (String.length name - 1))%bool
      then substring 0 i name
      else name
  | None => name
  end.

(** [fnmatch] restricted to [*], [?] and literal characters (bracket
    classes are not modelled); matching is case sensitive. *)
Fixpoint glob_match (pat : string) (s : string) : bool :=
  match pat with
  | EmptyString => match s with EmptyString => true | _ => false end
  | String c pat' =>
      if Ascii.eqb c "*" then
        (fix star (s : string) : bool :=
           glob_match pat' s
           || match s with
              | EmptyString => false
              | String _ s' => star s'
              end) s
      else
        match s with
        | EmptyString => false
        | String d s' =>
            (Ascii.eqb c "?" || Ascii.eqb c d) && glob_match pat' s'
        end
  end.

(* ================================================================== *)
(** ** The file system, the standard error stream and the clock *)

(** A regular file: its last-modification time ([st_mtime], whole
    seconds) and its content. *)
Record inode : Type := mkInode { mtime : Z; data : string }.

(** Directories carry one permission bit: whether entries may be
    created or removed in them.  Regular files are directory entries
    pointing to inodes, kept in directory-listing order; an inode
    outlives its entry while a stream is open on it, as on POSIX.
    Permissions of regular files, and directories whose name matches a
    glob pattern, are not modelled. *)
Record filesystem : Type := mkFS {
  dirs : list (path * bool);
  entries : list (path * nat);
  inodes : list inode
}.

Fixpoint assoc_path {A} (p : path) (l : list (path * A)) : option A :=
  match l with
  | [] => None
  | (q, a) :: l' => if path_eqb p q then Some a else assoc_path p l'
  end.

Definition lookup_dir (fs : filesystem) (p : path) : option bool :=
  assoc_path p (dirs fs).

Definition lookup_file (fs : filesystem) (p : path) : option nat :=
  assoc_path p (entries fs).

(** [p.exists()] *)
Definition path_exists (fs : filesystem) (p : path) : bool :=
  match lookup_dir fs p, lookup_file fs p with
  | None, None => false
  | _, _ => true
  end.

(** Content of the file at [p], if there is one. *)
Definition read_text (fs : filesystem) (p : path) : option string :=
  match lookup_file fs p with
  | Some i => option_map data (nth_error (inodes fs) i)
  | None => None
  end.

(** [p.stat().st_mtime] for a listed file. *)
Definition st_mtime (fs : filesystem) (p : path) : Z :=
  match lookup_file fs p with
  | Some i => match nth_error (inodes fs) i with
              | Some n => mtime n
              | None => 0%Z
              end
  | None => 0%Z
  end.

Fixpoint update_nth {A} (i : nat) (f : A -> A) (l : list A) : list A :=
  match l, i with
  | [], _ => []
  | x :: l', O => f x :: l'
  | x :: l', S i' => x :: update_nth i' f l'
  end.

Fixpoint remove_entry {A} (p : path) (l : list (path * A)) : list (path * A) :=
  match l with
  | [] => []
  | (q, a) :: l' => if path_eqb p q then l' else (q, a) :: remove_entry p l'
  end.

(** [os.mkdir(p)] followed by pathlib's [exist_ok] handling. *)
Definition fs_mkdir (exist_ok : bool) (p : path) : M filesystem unit :=
  fun fs =>
    match lookup_dir fs p, lookup_file fs p with
    | Some _, _ => if exist_ok then (Ok tt, fs) else (Raise (OSError EEXIST), fs)
    | None, Some _ => (Raise (OSError EEXIST), fs)
    | None, None =>
        match lookup_dir fs (path_parent p) with
        | None =>
            match lookup_file fs (path_parent p) with
            | Some _ => (Raise (OSError ENOTDIR), fs)
            | None => (Raise (OSError ENOENT), fs)
            end
        | Some false => (Raise (OSError EACCES), fs)
        | Some true =>
            (Ok tt, mkFS (dirs fs ++ [(p, true)])%list (entries fs) (inodes fs))
        end
    end.

(** [p.mkdir(parents=True, exist_ok=True)]: every missing ancestor is
    created, outermost first. *)
Fixpoint fs_mkdir_from (prefix rest : path) : M filesystem unit :=
  match rest with
  | [] => ret tt
  | c :: rest' =>
      fs_mkdir true (path_join prefix c) ;;;
      fs_mkdir_from (path_join prefix c) rest'
  end.

Definition fs_mkdir_parents (p : path) : M filesystem unit :=
  fs_mkdir_from [] p.

(** [open(p, "a")]: the stream is the inode number.  A missing file is
    created, stamped with the current time. *)
Definition fs_open_append (now : Z) (p : path) : M filesystem nat :=
  fun fs =>
    match lookup_dir fs p with
    | Some _ => (Raise (OSError EISDIR), fs)
    | None =>
        match lookup_file fs p with
        | Some i => (Ok i, fs)
        | None =>
            match lookup_dir fs (path_parent p) with
            | None => (Raise (OSError ENOENT), fs)
            | Some false => (Raise (OSError EACCES), fs)
            | Some true =>
                let i := List.length (inodes fs) in
                (Ok i, mkFS (dirs fs) (entries fs ++ [(p, i)])%list
                            (inodes fs ++ [mkInode now ""])%list)
            end
        end
    end.

(** [stream.write(s); stream.flush()] *)
Definition fs_write (now : Z) (i : nat) (s : string) : M filesystem unit :=
  modify (fun fs =>
    mkFS (dirs fs) (entries fs)
         (update_nth i (fun n => mkInode now (data n ++ s)) (inodes fs))).

(** [p.unlink()] *)
Definition fs_unlink (p : path) : M filesystem unit :=
  fun fs =>
    match lookup_file fs p with
    | None => (Raise (OSError ENOENT), fs)
    | Some _ =>
        match lookup_dir fs (path_parent p) with
        | Some true => (Ok tt, mkFS (dirs fs) (remove_entry p (entries fs)) (inodes fs))
        | _ => (Raise (OSError EACCES), fs)
        end
    end.

(** [list(d.glob(pattern))]: the files of directory [d] whose name
    matches, in listing order. *)
Definition fs_glob (fs : filesystem) (d : path) (pattern : string) : list path :=
  map fst
    (filter (fun e => path_eqb (path_parent (fst e)) d
                      && glob_match pattern (path_name (fst e)))
            (entries fs)).

(** What the process sees of its surroundings. *)
Record os : Type := mkOS {
  fs : filesystem;
  stderr : list string;
  now : instant
}.

Definition set_fs (o : os) (f : filesystem) : os := mkOS f (stderr o) (now o).

(** Run a file-system action inside a larger state. *)
Definition lift_fs {S A} (getf : S -> filesystem) (setf : S -> filesystem -> S)
  (m : M filesystem A) : M S A :=
  fun s => let (r, f) := m (getf s) in (r, setf s f).

(* ================================================================== *)
(** ** Python values and [json.dumps] *)

(** The values event records carry.  [PObject] stands for any value
    the JSON encoder has no rule for (a set, bytes, a class instance),
    named by its class.  A [str] is its UTF-8 text; dictionaries are
    string-keyed and keep insertion order.  Floating-point numbers are
    not modelled: numeric fields range over [int]. *)
#[local] Unset Elimination Schemes.
Inductive pyval : Type :=
| PNone
| PBool (b : bool)
| PInt (z : Z)
| PStr (s : string)
| PList (l : list pyval)
| PDict (d : list (string * pyval))
| PObject (class_name : string).
#[local] Set Elimination Schemes.

Definition pydict : Type := list (string * pyval).

(** [d[k] = v]: an existing key keeps its position. *)
Fixpoint dict_set (k : string) (v : pyval) (d : pydict) : pydict :=
  match d with
  | [] => [(k, v)]
  | (k', v') :: d' =>
      if String.eqb k k' then (k, v) :: d' else (k', v') :: dict_set k v d'
  end.

Fixpoint dict_get (k : string) (d : pydict) : option pyval :=
  match d with
  | [] => None
  | (k', v') :: d' => if String.eqb k k' then Some v' else dict_get k d'
  end.

(** [d.update(e)] *)
Definition dict_update (d e : pydict) : pydict :=
  fold_left (fun acc kv => dict_set (fst kv) (snd kv) acc) e d.

(** Python truthiness, [bool(v)]. *)
Definition truthy (v : pyval) : bool :=
  match v with
  | PNone => false
  | PBool b => b
  | PInt z => negb (Z.eqb z 0)
  | PStr s => negb (String.eqb s "")
  | PList l => match l with [] => false | _ => true end
  | PDict d => match d with [] => false | _ => true end
  | PObject _ => true
  end.

(** [a or b] *)
Definition py_or (a b : pyval) : pyval := if truthy a then a else b.

Definition DQUOTE : ascii := ascii_of_nat 34.
Definition BACKSLASH : ascii := ascii_of_nat 92.

Definition hex_digit (n : nat) : ascii :=
  match n with
  | 10 => "a" | 11 => "b" | 12 => "c" | 13 => "d" | 14 => "e" | 15 => "f"
  | _ => digit n
  end%char.

(** One character of a JSON string under [ensure_ascii=False]: quote,
    backslash and the control characters are escaped, everything else
    is copied. *)
Definition json_escape_char (c : ascii) : string :=
  let n := nat_of_ascii c in
  if Nat.eqb n 34 then String BACKSLASH (String DQUOTE "")
  else if Nat.eqb n 92 then String BACKSLASH (String BACKSLASH "")
  else if Nat.eqb n 10 then String BACKSLASH "n"
  else if Nat.eqb n 13 then String BACKSLASH "r"
  else if Nat.eqb n 9 then String BACKSLASH "t"
  else if Nat.eqb n 8 then String BACKSLASH "b"
  else if Nat.eqb n 12 then String BACKSLASH "f"
  else if Nat.ltb n 32 then
    String BACKSLASH (String "u" (String "0" (String "0"
      (String (hex_digit (n / 16)) (String (hex_digit (n mod 16)) "")))))
  else String c "".

Fixpoint json_escape (s : string) : string :=
  match s with
  | EmptyString => ""
  | String c s' => json_escape_char c ++ json_escape s'
  end.

Definition json_string (s : string) : string :=
  String DQUOTE (json_escape s ++ String DQUOTE "").

Fixpoint spaces (n : nat) : string :=
  match n with
  | O => ""
  | S n' => String " " (spaces n')
  end.

(** The layout of [json.dumps]: with [indent=None] items are separated
    by [", "] on one line; with [indent=k] every item starts on a line
    of its own, indented by [k] per nesting level. *)
Definition item_open (indent : option nat) (lvl : nat) : string :=
  match indent with
  | None => ""
  | Some k => newline ++ spaces (k * S lvl)
  end.

Definition item_sep (indent : option nat) (lvl : nat) : string :=
  match indent with
  | None => ", "
  | Some k => "," ++ newline ++ spaces (k * S lvl)
  end.

Definition item_close (indent : option nat) (lvl : nat) : string :=
  match indent with
  | None => ""
  | Some k => newline ++ spaces (k * lvl)
  end.

Fixpoint join (sep : string) (l : list string) : string :=
  match l with
  | [] => ""
  | [x] => x
  | x :: l' => x ++ sep ++ join sep l'
  end.

Definition not_serializable (class_name : string) : exn :=
  TypeError ("Object of type " ++ class_name ++ " is not JSON serializable").

(** The outcomes of a run of calls, up to the first exception. *)
Fixpoint sequence {A} (l : list (result A)) : result (list A) :=
  match l with
  | [] => Ok []
  | Raise e :: _ => Raise e
  | Ok a :: l' =>
      match sequence l' with
      | Raise e => Raise e
      | Ok rest => Ok (a :: rest)
      end
  end.

(** A non-empty container: the items between its brackets. *)
Definition layout (opening closing : string) (indent : option nat) (lvl : nat)
  (items : list string) : string :=
  opening ++ item_open indent lvl ++ join (item_sep indent lvl) items
  ++ item_close indent lvl ++ closing.

(** The encoder proper; the first value without an encoding rule
    aborts the whole call with [TypeError]. *)
Fixpoint json_encode (indent : option nat) (lvl : nat) (v : pyval)
  : result string :=
  match v with
  | PNone => Ok "null"
  | PBool true => Ok "true"
  | PBool false => Ok "false"
  | PInt z => Ok (str_of_Z z)
  | PStr s => Ok (json_string s)
  | PList l =>
      match l with
      | [] => Ok "[]"
      | _ =>
          match sequence (map (json_encode indent (S lvl)) l) with
          | Raise e => Raise e
          | Ok items => Ok (layout "[" "]" indent lvl items)
          end
      end
  | PDict d =>
      match d with
      | [] => Ok "{}"
      | _ =>
          match
            sequence
              (map (fun kv =>
                      match json_encode indent (S lvl) (snd kv) with
                      | Raise e => Raise e
                      | Ok s => Ok (json_string (fst kv) ++ ": " ++ s)
                      end) d)
          with
          | Raise e => Raise e
          | Ok items => Ok (layout "{" "}" indent lvl items)
          end
      end
  | PObject c => Raise (not_serializable c)
  end.

(** [json.dumps(v, ensure_ascii=False, indent=indent)] *)
Definition json_dumps (indent : option nat) (v : pyval) : result string :=
  json_encode indent 0 v.

(** Whether the encoder has a rule for every value inside [v]. *)
Fixpoint serializable (v : pyval) : bool :=
  match v with
  | PList l => forallb serializable l
  | PDict d => forallb (fun kv => serializable (snd kv)) d
  | PObject _ => false
  | _ => true
  end.

(* ================================================================== *)
(** ** Log records ([logging.LogRecord]) *)

Definition NOTSET : Z := 0.
Definition DEBUG : Z := 10.
Definition INFO : Z := 20.
Definition WARNING : Z := 30.
Definition ERROR : Z := 40.
Definition CRITICAL : Z := 50.

(** [logging.getLevelName(level)] *)
Definition getLevelName (level : Z) : string :=
  if Z.eqb level CRITICAL then "CRITICAL"
  else if Z.eqb level ERROR then "ERROR"
  else if Z.eqb level WARNING then "WARNING"
  else if Z.eqb level INFO then "INFO"
  else if Z.eqb level DEBUG then "DEBUG"
  else if Z.eqb level NOTSET then "NOTSET"
  else "Level " ++ str_of_Z level.

(** The level constants of the [logging] module, by attribute name. *)
Definition level_of_name (name : string) : option Z :=
  if String.eqb name "CRITICAL" then Some CRITICAL
  else if String.eqb name "FATAL" then Some CRITICAL
  else if String.eqb name "ERROR" then Some ERROR
  else if String.eqb name "WARNING" then Some WARNING
  else if String.eqb name "WARN" then Some WARNING
  else if String.eqb name "INFO" then Some INFO
  else if String.eqb name "DEBUG" then Some DEBUG
  else if String.eqb name "NOTSET" then Some NOTSET
  else None.

(** [getattr(logging, name)] where a level is expected; the module's
    other attributes are not modelled. *)
Definition getattr_logging {S} (name : string) : M S Z :=
  match level_of_name name with
  | Some l => ret l
  | None => raise (AttributeError name)
  end.

(** The attributes of a record the formatters read.  [msg] is the
    message text (all records here carry [args=()], so [getMessage()]
    is [msg]); [exc_info], when present, is the traceback text that
    [formatException] renders.  [extra] is the rest of [__dict__]: the
    attributes set on the record after construction, in order.  The
    standard attributes not listed are the ones no formatter of this
    program reads. *)
Record LogRecord : Type := mkLogRecord {
  name : string;
  levelno : Z;
  msg : string;
  module : string;
  funcName : option string;
  lineno : Z;
  created : instant;
  exc_info : option string;
  extra : pydict
}.

Definition levelname (r : LogRecord) : string := getLevelName (levelno r).
Definition getMessage (r : LogRecord) : string := msg r.

(** [record.key = v] *)
Definition set_attr (key : string) (v : pyval) (r : LogRecord) : LogRecord :=
  mkLogRecord (name r) (levelno r) (msg r) (module r) (funcName r) (lineno r)
              (created r) (exc_info r) (dict_set key v (extra r)).

(** [logging.LogRecord(name, level, pathname="", lineno=0, msg, args=(),
    exc_info=None)] at clock reading [t]: an empty path gives an empty
    module name, and no function name is passed. *)
Definition LogRecord_new (t : instant) (name : string) (level : Z) (msg : string)
  : LogRecord :=
  mkLogRecord name level msg "" None 0 t None [].

(* ================================================================== *)
(** ** Formatters ([formatters.py]) *)

Definition opt_str (o : option string) : pyval :=
  match o with Some s => PStr s | None => PNone end.

Definition opt_int (o : option Z) : pyval :=
  match o with Some z => PInt z | None => PNone end.

(** The attribute names [StructuredFormatter] does not copy. *)
Definition reserved_attrs : list string :=
  [ "name"; "levelname"; "levelno"; "pathname"; "filename";
    "module"; "exc_info"; "exc_text"; "stack_info"; "lineno";
    "funcName"; "created"; "msecs"; "relativeCreated"; "thread";
    "threadName"; "processName"; "process"; "getMessage"; "msg"; "args" ].

(** The part of [StructuredFormatter.format] that builds [log_data]. *)
Definition structured_log_data (r : LogRecord) : pydict :=
  let log_data :=
    [ ("timestamp", PStr (isoformat (created r)));
      ("level", PStr (levelname r));
      ("logger", PStr (name r));
      ("message", PStr (getMessage r));
      ("module", PStr (module r));
      ("function", opt_str (funcName r));
      ("line", PInt (lineno r)) ] in
  let log_data :=
    match exc_info r with
    | Some tb => dict_set "exception" (PStr tb) log_data
    | None => log_data
    end in
  fold_left
    (fun log_data kv =>
       if negb (string_in (fst kv) reserved_attrs)
       then dict_set (fst kv) (snd kv) log_data
       else log_data)
    (extra r) log_data.

(** [StructuredFormatter.format] *)
Definition StructuredFormatter_format (r : LogRecord) : result string :=
  json_dumps None (PDict (structured_log_data r)).

(** [getattr(record, key, default)] for an attribute set after
    construction. *)
Definition getattr_default (r : LogRecord) (key : string) (default : pyval) : pyval :=
  match dict_get key (extra r) with
  | Some v => v
  | None => default
  end.

(** The part of [InteractionFormatter.format] that builds [log_data];
    [update] needs a mapping. *)
Definition interaction_log_data (r : LogRecord) : result pydict :=
  let log_data :=
    [ ("timestamp", PStr (strftime_YmdHMS (created r)));
      ("session_id", getattr_default r "session_id" (PStr "unknown"));
      ("interaction_type", getattr_default r "interaction_type" (PStr "general"));
      ("user_id", getattr_default r "user_id" (PStr "anonymous"));
      ("message", PStr (getMessage r)) ] in
  let with_data :=
    match dict_get "interaction_data" (extra r) with
    | None => Ok log_data
    | Some (PDict d) => Ok (dict_update log_data d)
    | Some _ => Raise (TypeError "interaction_data is not a mapping")
    end in
  match with_data with
  | Raise e => Raise e
  | Ok log_data =>
      let log_data :=
        match dict_get "duration" (extra r) with
        | Some v => dict_set "duration_ms" v log_data
        | None => log_data
        end in
      let log_data :=
        match dict_get "agent_name" (extra r) with
        | Some v => dict_set "agent" v log_data
        | None => log_data
        end in
      let log_data :=
        match dict_get "tool_name" (extra r) with
        | Some v => dict_set "tool" v log_data
        | None => log_data
        end in
      Ok log_data
  end.

(** [InteractionFormatter.format] *)
Definition InteractionFormatter_format (r : LogRecord) : result string :=
  match interaction_log_data r with
  | Raise e => Raise e
  | Ok log_data => json_dumps (Some 2%nat) (PDict log_data)
  end.

(** The formatter objects a handler can hold.  [PercentFormatter] is
    [logging.Formatter] with the console line
    [asctime - name - levelname - message]. *)
Inductive formatter : Type :=
| StructuredFormatter
| InteractionFormatter
| PercentFormatter.

Definition formatter_format (f : formatter) (r : LogRecord) : result string :=
  match f with
  | StructuredFormatter => StructuredFormatter_format r
  | InteractionFormatter => InteractionFormatter_format r
  | PercentFormatter =>
      Ok (strftime_YmdHMS (created r) ++ ",000 - " ++ name r ++ " - "
          ++ levelname r ++ " - " ++ getMessage r)
  end.

(** [Handler.format]: without a formatter the record's message is the
    line. *)
Definition handler_format (f : option formatter) (r : LogRecord) : result string :=
  match f with
  | Some f => formatter_format f r
  | None => Ok (getMessage r)
  end.

(* ================================================================== *)
(** ** The date-rotating file sink ([handlers.py]) *)

(** The attributes of a [DateRotatingFileHandler] object; [stream] is
    the open file (an inode number) or [None]. *)
Record DateRotatingFileHandler : Type := mkHandler {
  base_filename : path;
  max_files : Z;
  current_date : date;
  baseFilename : path;
  stream : option nat;
  level : Z;
  fmt : option formatter
}.

Definition set_current_date (d : date) (h : DateRotatingFileHandler) :=
  mkHandler (base_filename h) (max_files h) d (baseFilename h) (stream h)
            (level h) (fmt h).
Definition set_baseFilename (p : path) (h : DateRotatingFileHandler) :=
  mkHandler (base_filename h) (max_files h) (current_date h) p (stream h)
            (level h) (fmt h).
Definition set_stream (s : option nat) (h : DateRotatingFileHandler) :=
  mkHandler (base_filename h) (max_files h) (current_date h) (baseFilename h) s
            (level h) (fmt h).
Definition setLevel (l : Z) (h : DateRotatingFileHandler) :=
  mkHandler (base_filename h) (max_files h) (current_date h) (baseFilename h)
            (stream h) l (fmt h).
Definition setFormatter (f : formatter) (h : DateRotatingFileHandler) :=
  mkHandler (base_filename h) (max_files h) (current_date h) (baseFilename h)
            (stream h) (level h) (Some f).

(** [_get_dated_filename(date)] for an explicit date. *)
Definition dated_filename (base : path) (d : date) : path :=
  path_join (path_parent base)
            (path_stem base ++ "_" ++ strftime_Ymd d ++ path_suffix base).

(** [_get_dated_filename()]: the date defaults to [current_date]. *)
Definition _get_dated_filename (h : DateRotatingFileHandler) : path :=
  dated_filename (base_filename h) (current_date h).

(** [l[:stop]] *)
Definition slice_to {A} (stop : Z) (l : list A) : list A :=
  if (stop <? 0)%Z
  then firstn (Z.to_nat (Z.of_nat (List.length l) + stop)) l
  else firstn (Z.to_nat stop) l.

(** [l.sort(key=key)]: stable, ascending. *)
Fixpoint insert_by {A} (key : A -> Z) (x : A) (l : list A) : list A :=
  match l with
  | [] => [x]
  | y :: l' => if (key x <=? key y)%Z then x :: l else y :: insert_by key x l'
  end.

Fixpoint sort_by {A} (key : A -> Z) (l : list A) : list A :=
  match l with
  | [] => []
  | x :: l' => insert_by key x (sort_by key l')
  end.

(** The files [_cleanup_old_files] selects for removal, oldest first. *)
Definition files_to_remove (h : DateRotatingFileHandler) (f : filesystem)
  : list path :=
  let pattern := path_stem (base_filename h) ++ "_*.log" in
  let log_files := fs_glob f (path_parent (base_filename h)) pattern in
  if (Z.of_nat (List.length log_files) <=? max_files h)%Z then []
  else slice_to (- max_files h) (sort_by (st_mtime f) log_files).

(** [_cleanup_old_files]: a failing [unlink] is skipped; nothing is
    raised. *)
Definition _cleanup_old_files (h : DateRotatingFileHandler) : M filesystem unit :=
  fun f =>
    for_each (files_to_remove h f)
      (fun file_path => try_except (fs_unlink file_path) (fun _ => ret tt)) f.

(** Handler methods run on the object and its surroundings. *)
Definition sink : Type := (DateRotatingFileHandler * os)%type.

Definition on_fs {A} (m : M filesystem A) : M sink A :=
  lift_fs (fun s : sink => fs (snd s)) (fun s f => (fst s, set_fs (snd s) f)) m.

Definition update_self (f : DateRotatingFileHandler -> DateRotatingFileHandler)
  : M sink unit :=
  modify (fun s : sink => (f (fst s), snd s)).

Definition print_stderr (line : string) : M sink unit :=
  modify (fun s : sink =>
    (fst s, mkOS (fs (snd s)) (stderr (snd s) ++ [line])%list (now (snd s)))).

(** [DateRotatingFileHandler(filename, max_files)]: the dated file of
    today is opened at once, then old files are cleaned. *)
Definition DateRotatingFileHandler_init (filename : path) (max_files : Z)
  : M os DateRotatingFileHandler :=
  fun o =>
    let h0 := mkHandler filename max_files (today (now o)) [] None NOTSET None in
    let dated := _get_dated_filename h0 in
    let run : M sink unit :=
      on_fs (fs_mkdir_parents (path_parent dated)) ;;;
      update_self (set_baseFilename dated) ;;;
      i <- on_fs (fs_open_append (epoch (now o)) dated) ;;
      update_self (set_stream (Some i)) ;;;
      on_fs (_cleanup_old_files h0) in
    match run (h0, o) with
    | (Ok _, (h, o')) => (Ok h, o')
    | (Raise e, (_, o')) => (Raise e, o')
    end.

(** [FileHandler.close] *)
Definition close : M sink unit := update_self (set_stream None).

(** [Handler.handleError]: the failure is reported on standard error
    and not raised. *)
Definition handleError : M sink unit := print_stderr "--- Logging error ---".

(** [StreamHandler.emit]: format, write the line, flush; any exception
    goes to [handleError]. *)
Definition StreamHandler_emit (record : LogRecord) : M sink unit :=
  s <- get ;;
  match stream (fst s), handler_format (fmt (fst s)) record with
  | Some i, Ok text => on_fs (fs_write (epoch (now (snd s))) i (text ++ newline))
  | _, _ => handleError
  end.

(** [FileHandler.emit]: a closed stream is reopened first (the mode is
    append); a failing [open] is raised to the caller. *)
Definition FileHandler_emit (record : LogRecord) : M sink unit :=
  s <- get ;;
  match stream (fst s) with
  | None =>
      i <- on_fs (fs_open_append (epoch (now (snd s))) (baseFilename (fst s))) ;;
      update_self (set_stream (Some i))
  | Some _ => ret tt
  end ;;;
  StreamHandler_emit record.

(** [DateRotatingFileHandler.emit] *)
Definition emit (record : LogRecord) : M sink unit :=
  s <- get ;;
  let today := today (now (snd s)) in
  (if negb (date_eqb today (current_date (fst s))) then
     close ;;;
     update_self (set_current_date today) ;;;
     update_self (fun h => set_baseFilename (_get_dated_filename h) h) ;;;
     update_self (set_stream None) ;;;
     s' <- get ;;
     on_fs (_cleanup_old_files (fst s'))
   else ret tt) ;;;
  FileHandler_emit record.

(* ================================================================== *)
(** ** The [logging] framework: loggers, handlers, dispatch *)

(** Handler objects live in a heap and are shared by address.  The
    console handler is a [StreamHandler] on standard error with the
    percent formatter. *)
Inductive handler_obj : Type :=
| FileHandlerObj (h : DateRotatingFileHandler)
| ConsoleHandlerObj (level : Z).

Definition handler_level (h : handler_obj) : Z :=
  match h with
  | FileHandlerObj h => level h
  | ConsoleHandlerObj l => l
  end.

(** A [logging.Logger]: its level, the [propagate] flag and the
    addresses of its handlers. *)
Record Logger : Type := mkLogger {
  lg_level : Z;
  propagate : bool;
  handlers : list nat
}.

(** A logger as [logging.getLogger] first creates it. *)
Definition new_logger : Logger := mkLogger NOTSET true [].

(** An [InteractionLogger] instance: its identity and the bound
    session. *)
Record InteractionLogger : Type := mkInteractionLogger {
  obj_id : nat;
  session_id : string
}.

(** The state of the process. [uuid_calls] counts the calls of
    [uuid.uuid4()] made so far, [objects] the [InteractionLogger]
    instances created. *)
Record world : Type := mkWorld {
  sys : os;
  heap : list handler_obj;
  root : Logger;
  loggerDict : list (string * Logger);
  uuid_calls : nat;
  objects : nat;
  _global_logger : option InteractionLogger
}.

Definition set_sys (o : os) (w : world) : world :=
  mkWorld o (heap w) (root w) (loggerDict w) (uuid_calls w) (objects w)
          (_global_logger w).
Definition set_heap (h : list handler_obj) (w : world) : world :=
  mkWorld (sys w) h (root w) (loggerDict w) (uuid_calls w) (objects w)
          (_global_logger w).
Definition set_root (r : Logger) (w : world) : world :=
  mkWorld (sys w) (heap w) r (loggerDict w) (uuid_calls w) (objects w)
          (_global_logger w).
Definition set_loggerDict (d : list (string * Logger)) (w : world) : world :=
  mkWorld (sys w) (heap w) (root w) d (uuid_calls w) (objects w)
          (_global_logger w).
Definition set_uuid_calls (n : nat) (w : world) : world :=
  mkWorld (sys w) (heap w) (root w) (loggerDict w) n (objects w)
          (_global_logger w).
Definition set_objects (n : nat) (w : world) : world :=
  mkWorld (sys w) (heap w) (root w) (loggerDict w) (uuid_calls w) n
          (_global_logger w).
Definition set_global_logger (g : option InteractionLogger) (w : world) : world :=
  mkWorld (sys w) (heap w) (root w) (loggerDict w) (uuid_calls w) (objects w) g.

(** Run an action on the surroundings inside the process state. *)
Definition on_sys {A} (m : M os A) : M world A :=
  fun w => let (r, o) := m (sys w) in (r, set_sys o w).

Definition on_sys_fs {A} (m : M filesystem A) : M world A :=
  on_sys (lift_fs fs set_fs m).

Fixpoint assoc_string {A} (k : string) (l : list (string * A)) : option A :=
  match l with
  | [] => None
  | (k', a) :: l' => if String.eqb k k' then Some a else assoc_string k l'
  end.

Fixpoint assoc_set {A} (k : string) (a : A) (l : list (string * A))
  : list (string * A) :=
  match l with
  | [] => [(k, a)]
  | (k', a') :: l' =>
      if String.eqb k k' then (k, a) :: l' else (k', a') :: assoc_set k a l'
  end.

Definition find_logger (w : world) (name : string) : option Logger :=
  assoc_string name (loggerDict w).

(** [logging.getLogger(name)]: the logger of that name, created on
    first use. *)
Definition getLogger (name : string) : M world Logger :=
  fun w =>
    match find_logger w name with
    | Some lg => (Ok lg, w)
    | None =>
        (Ok new_logger, set_loggerDict (assoc_set name new_logger (loggerDict w)) w)
    end.

Definition update_logger (name : string) (f : Logger -> Logger) : M world unit :=
  lg <- getLogger name ;;
  modify (fun w => set_loggerDict (assoc_set name (f lg) (loggerDict w)) w).

Definition Logger_setLevel (l : Z) (lg : Logger) : Logger :=
  mkLogger l (propagate lg) (handlers lg).
Definition Logger_set_propagate (b : bool) (lg : Logger) : Logger :=
  mkLogger (lg_level lg) b (handlers lg).

(** [logger.addHandler(h)]: a handler already attached is not added
    twice. *)
Definition Logger_addHandler (addr : nat) (lg : Logger) : Logger :=
  if existsb (Nat.eqb addr) (handlers lg) then lg
  else mkLogger (lg_level lg) (propagate lg) (handlers lg ++ [addr])%list.

(** A new handler object; the result is its address. *)
Definition alloc_handler (h : handler_obj) : M world nat :=
  fun w => (Ok (List.length (heap w)), set_heap (heap w ++ [h])%list w).

(** The dotted prefixes of a logger name, nearest first, as the
    manager searches them for a parent. *)
Fixpoint parent_candidates (fuel : nat) (name : string) (i : option nat)
  : list string :=
  match fuel, i with
  | S fuel', Some (S i') =>
      substring 0 (S i') name
      :: parent_candidates fuel' name (rfind "." (substring 0 i' name))
  | _, _ => []
  end.

Definition logger_parents (name : string) : list string :=
  parent_candidates (String.length name) name (rfind "." name).

(** The handlers [callHandlers] visits for a record handled by the
    logger [name]: its own, then those of each existing ancestor up to
    the root, until a logger does not propagate. *)
Fixpoint handlers_up (w : world) (names : list string) : list nat :=
  match names with
  | [] => handlers (root w)
  | n :: names' =>
      match find_logger w n with
      | Some lg =>
          (handlers lg ++ (if propagate lg then handlers_up w names' else []))%list
      | None => handlers_up w names'
      end
  end.

Definition handlers_for (w : world) (name : string) : list nat :=
  handlers_up w (name :: logger_parents name).

(** [Logger.getEffectiveLevel] *)
Fixpoint effective_level_up (w : world) (names : list string) : Z :=
  match names with
  | [] => lg_level (root w)
  | n :: names' =>
      match find_logger w n with
      | Some lg =>
          if (lg_level lg =? 0)%Z then effective_level_up w names' else lg_level lg
      | None => effective_level_up w names'
      end
  end.

Definition getEffectiveLevel (w : world) (name : string) : Z :=
  effective_level_up w (name :: logger_parents name).

(** [Logger.isEnabledFor(level)] with the manager's [disable] at 0. *)
Definition isEnabledFor (w : world) (name : string) (level : Z) : bool :=
  if (0 >=? level)%Z then false else (level >=? getEffectiveLevel w name)%Z.

(** [Handler.handle] for the handler at [addr]: its [emit] runs on the
    object and the surroundings, and the object is stored back. *)
Definition Handler_handle (addr : nat) (record : LogRecord) : M world unit :=
  fun w =>
    match nth_error (heap w) addr with
    | Some (FileHandlerObj h) =>
        match emit record (h, sys w) with
        | (r, (h', o')) =>
            (r, set_heap (update_nth addr (fun _ => FileHandlerObj h') (heap w))
                  (set_sys o' w))
        end
    | Some (ConsoleHandlerObj _) =>
        match formatter_format PercentFormatter record with
        | Ok text =>
            (Ok tt, set_sys (mkOS (fs (sys w)) (stderr (sys w) ++ [text])%list
                                  (now (sys w))) w)
        | Raise _ => (Ok tt, w)
        end
    | None => (Ok tt, w)
    end.

(** [Logger.callHandlers]: every visited handler whose level admits
    the record handles it; with no handler at all, the handler of last
    resort prints warnings and errors on standard error. *)
Definition callHandlers (name : string) (record : LogRecord) : M world unit :=
  w <- get ;;
  match handlers_for w name with
  | [] =>
      if (levelno record >=? WARNING)%Z
      then on_sys (modify (fun o =>
             mkOS (fs o) (stderr o ++ [getMessage record])%list (now o)))
      else ret tt
  | hs =>
      for_each hs (fun addr =>
        w' <- get ;;
        match nth_error (heap w') addr with
        | Some h =>
            if (levelno record >=? handler_level h)%Z
            then Handler_handle addr record
            else ret tt
        | None => ret tt
        end)
  end.

(** [Logger.handle(record)] on the logger called [name]: no level
    check is made here. *)
Definition Logger_handle (name : string) (record : LogRecord) : M world unit :=
  callHandlers name record.

(** The attribute names [makeRecord] refuses in [extra]. *)
Definition record_attrs : list string :=
  [ "message"; "asctime";
    "name"; "msg"; "args"; "levelname"; "levelno"; "pathname"; "filename";
    "module"; "exc_info"; "exc_text"; "stack_info"; "lineno"; "funcName";
    "created"; "msecs"; "relativeCreated"; "thread"; "threadName";
    "processName"; "process" ].

Fixpoint add_extra (extra : pydict) (r : LogRecord) : result LogRecord :=
  match extra with
  | [] => Ok r
  | (k, v) :: extra' =>
      if string_in k record_attrs then Raise (KeyError k)
      else add_extra extra' (set_attr k v r)
  end.

(** Where a logging call stands in the source: module, function and
    line, as [findCaller] reports them. *)
Record caller : Type := mkCaller {
  c_module : string;
  c_function : string;
  c_line : Z
}.

(** [Logger.log(level, msg, extra=extra)] *)
Definition Logger_log (name : string) (c : caller) (level : Z) (msg : string)
  (extra : pydict) : M world unit :=
  w <- get ;;
  if isEnabledFor w name level then
    match add_extra extra
            (mkLogRecord name level msg (c_module c) (Some (c_function c))
                         (c_line c) (now (sys w)) None []) with
    | Ok record => callHandlers name record
    | Raise e => raise e
    end
  else ret tt.

(** [Logger.info(msg, extra=extra)] *)
Definition Logger_info (name : string) (c : caller) (msg : string) (extra : pydict)
  : M world unit :=
  Logger_log name c INFO msg extra.

(* ================================================================== *)
(** ** Configuration and set-up ([config.py]) *)

Record LoggingConfig : Type := mkLoggingConfig {
  log_dir : path;
  enable_interaction_logging : bool;
  interaction_log_level : string;
  enable_agent_logging : bool;
  agent_log_level : string;
  enable_workflow_logging : bool;
  workflow_log_level : string;
  enable_tool_logging : bool;
  tool_log_level : string;
  system_log_level : string;
  max_log_files : Z;
  enable_performance_logging : bool;
  enable_security_logging : bool
}.

(** The defaults of the dataclass. *)
Definition default_config : LoggingConfig :=
  mkLoggingConfig ["logs"] true "INFO" true "INFO" true "INFO" true "INFO"
                  "INFO" 30 true true.

(** The common body of the six [_setup_*_logger] functions once the
    channel is known to be enabled: the level expression is evaluated
    first, then the logger stops propagating, then the sink is created
    and attached. *)
Definition setup_channel (logger_name : string) (level : M world Z)
  (file : path) (f : formatter) (config : LoggingConfig) : M world unit :=
  getLogger logger_name ;;;
  l <- level ;;
  update_logger logger_name (Logger_setLevel l) ;;;
  update_logger logger_name (Logger_set_propagate false) ;;;
  h <- on_sys (DateRotatingFileHandler_init file (max_log_files config)) ;;
  addr <- alloc_handler (FileHandlerObj (setFormatter f h)) ;;
  update_logger logger_name (Logger_addHandler addr).

Definition channel_file (config : LoggingConfig) (channel : string) : path :=
  path_join (path_join (log_dir config) channel) (channel ++ ".log").

Definition _setup_interaction_logger (config : LoggingConfig) : M world unit :=
  if negb (enable_interaction_logging config) then ret tt
  else setup_channel "deer_flow.interactions"
         (getattr_logging (interaction_log_level config))
         (channel_file config "interactions") InteractionFormatter config.

Definition _setup_agent_logger (config : LoggingConfig) : M world unit :=
  if negb (enable_agent_logging config) then ret tt
  else setup_channel "deer_flow.agents"
         (getattr_logging (agent_log_level config))
         (channel_file config "agents") StructuredFormatter config.

Definition _setup_workflow_logger (config : LoggingConfig) : M world unit :=
  if negb (enable_workflow_logging config) then ret tt
  else setup_channel "deer_flow.workflows"
         (getattr_logging (workflow_log_level config))
         (channel_file config "workflows") StructuredFormatter config.

Definition _setup_tool_logger (config : LoggingConfig) : M world unit :=
  if negb (enable_tool_logging config) then ret tt
  else setup_channel "deer_flow.tools"
         (getattr_logging (tool_log_level config))
         (channel_file config "tools") StructuredFormatter config.

Definition _setup_performance_logger (config : LoggingConfig) : M world unit :=
  if negb (enable_performance_logging config) then ret tt
  else setup_channel "deer_flow.performance" (ret INFO)
         (channel_file config "performance") StructuredFormatter config.

Definition _setup_security_logger (config : LoggingConfig) : M world unit :=
  if negb (enable_security_logging config) then ret tt
  else setup_channel "deer_flow.security" (ret INFO)
         (channel_file config "security") StructuredFormatter config.

(** [setup_logging(config)] for an explicit configuration (reading
    the environment is outside the model). *)
Definition setup_logging (config : LoggingConfig) : M world unit :=
  let log_dir := log_dir config in
  on_sys_fs (fs_mkdir true log_dir) ;;;
  on_sys_fs (fs_mkdir true (path_join log_dir "interactions")) ;;;
  on_sys_fs (fs_mkdir true (path_join log_dir "agents")) ;;;
  on_sys_fs (fs_mkdir true (path_join log_dir "workflows")) ;;;
  on_sys_fs (fs_mkdir true (path_join log_dir "tools")) ;;;
  on_sys_fs (fs_mkdir true (path_join log_dir "system")) ;;;
  on_sys_fs (fs_mkdir true (path_join log_dir "performance")) ;;;
  on_sys_fs (fs_mkdir true (path_join log_dir "security")) ;;;
  l <- getattr_logging (system_log_level config) ;;
  modify (fun w => set_root (Logger_setLevel l (root w)) w) ;;;
  modify (fun w => set_root (mkLogger (lg_level (root w)) (propagate (root w)) []) w) ;;;
  h <- on_sys (DateRotatingFileHandler_init
                 (path_join (path_join log_dir "system") "system.log")
                 (max_log_files config)) ;;
  l' <- getattr_logging (system_log_level config) ;;
  system_handler <- alloc_handler
                      (FileHandlerObj (setLevel l' (setFormatter StructuredFormatter h))) ;;
  modify (fun w => set_root (Logger_addHandler system_handler (root w)) w) ;;;
  console_handler <- alloc_handler (ConsoleHandlerObj WARNING) ;;
  modify (fun w => set_root (Logger_addHandler console_handler (root w)) w) ;;;
  _setup_interaction_logger config ;;;
  _setup_agent_logger config ;;;
  _setup_workflow_logger config ;;;
  _setup_tool_logger config ;;;
  _setup_performance_logger config ;;;
  _setup_security_logger config.

(** A process that has not touched [logging] yet: the root logger at
    [WARNING] without handlers, no other logger. *)
Definition fresh_world (o : os) : world :=
  mkWorld o [] (mkLogger WARNING true []) [] 0 0 None.

(* ================================================================== *)
(** ** The event logger ([interaction_logger.py]) *)

(** [str(uuid.uuid4())]: the generator is modelled by the number of
    the draw, so that two draws never give the same identifier. *)
Definition uuid_str (n : nat) : string := "uuid4-" ++ str_of_nat n.

Definition uuid4 : M world string :=
  fun w => (Ok (uuid_str (uuid_calls w)), set_uuid_calls (S (uuid_calls w)) w).

(** [datetime.now()] *)
Definition datetime_now : M world instant := fun w => (Ok (now (sys w)), w).

(** Truthiness of an [Optional[str]] and of an [Optional[int]]. *)
Definition truthy_str (o : option string) : bool :=
  match o with
  | Some s => negb (String.eqb s "")
  | None => false
  end.

Definition truthy_int (o : option Z) : bool :=
  match o with
  | Some z => negb (z =? 0)%Z
  | None => false
  end.

(** [x or 0] *)
Definition or_zero (o : option Z) : Z :=
  match o with
  | Some z => if truthy_int o then z else 0%Z
  | None => 0%Z
  end.

(** [metadata or {}] *)
Definition or_empty (o : option pydict) : pydict :=
  match o with
  | Some (kv :: d) => kv :: d
  | _ => []
  end.

Definition opt_dict (o : option pydict) : pyval :=
  match o with Some d => PDict d | None => PNone end.

(** The four dataclasses. *)
Record InteractionEvent : Type := mkInteractionEvent {
  ie_event_id : string;
  ie_session_id : string;
  ie_timestamp : string;
  ie_event_type : string;
  ie_user_input : option string;
  ie_agent_response : option string;
  ie_agent_name : option string;
  ie_tool_name : option string;
  ie_tool_input : option pydict;
  ie_tool_output : option string;
  ie_duration_ms : option Z;
  ie_metadata : option pydict;
  ie_error : option string
}.

Record WorkflowEvent : Type := mkWorkflowEvent {
  we_event_id : string;
  we_session_id : string;
  we_timestamp : string;
  we_workflow_type : string;
  we_node_name : string;
  we_status : string;
  we_input_data : option pydict;
  we_output_data : option pydict;
  we_duration_ms : option Z;
  we_error : option string
}.

Record AgentActivity : Type := mkAgentActivity {
  aa_event_id : string;
  aa_session_id : string;
  aa_timestamp : string;
  aa_agent_name : string;
  aa_activity_type : string;
  aa_llm_model : option string;
  prompt_tokens : option Z;
  completion_tokens : option Z;
  total_tokens : option Z;
  aa_duration_ms : option Z;
  aa_input_data : option string;
  aa_output_data : option string;
  aa_metadata : option pydict
}.

Record ToolUsage : Type := mkToolUsage {
  tu_event_id : string;
  tu_session_id : string;
  tu_timestamp : string;
  tu_tool_name : string;
  tu_agent_name : option string;
  tu_input_parameters : option pydict;
  tu_output_result : option string;
  tu_duration_ms : option Z;
  tu_success : bool;
  tu_error : option string
}.

(** [dataclasses.asdict], field by field in declaration order (the
    deep copy it makes of the values is the identity here). *)
Definition asdict_InteractionEvent (e : InteractionEvent) : pydict :=
  [ ("event_id", PStr (ie_event_id e));
    ("session_id", PStr (ie_session_id e));
    ("timestamp", PStr (ie_timestamp e));
    ("event_type", PStr (ie_event_type e));
    ("user_input", opt_str (ie_user_input e));
    ("agent_response", opt_str (ie_agent_response e));
    ("agent_name", opt_str (ie_agent_name e));
    ("tool_name", opt_str (ie_tool_name e));
    ("tool_input", opt_dict (ie_tool_input e));
    ("tool_output", opt_str (ie_tool_output e));
    ("duration_ms", opt_int (ie_duration_ms e));
    ("metadata", opt_dict (ie_metadata e));
    ("error", opt_str (ie_error e)) ].

Definition asdict_WorkflowEvent (e : WorkflowEvent) : pydict :=
  [ ("event_id", PStr (we_event_id e));
    ("session_id", PStr (we_session_id e));
    ("timestamp", PStr (we_timestamp e));
    ("workflow_type", PStr (we_workflow_type e));
    ("node_name", PStr (we_node_name e));
    ("status", PStr (we_status e));
    ("input_data", opt_dict (we_input_data e));
    ("output_data", opt_dict (we_output_data e));
    ("duration_ms", opt_int (we_duration_ms e));
    ("error", opt_str (we_error e)) ].

Definition asdict_AgentActivity (a : AgentActivity) : pydict :=
  [ ("event_id", PStr (aa_event_id a));
    ("session_id", PStr (aa_session_id a));
    ("timestamp", PStr (aa_timestamp a));
    ("agent_name", PStr (aa_agent_name a));
    ("activity_type", PStr (aa_activity_type a));
    ("llm_model", opt_str (aa_llm_model a));
    ("prompt_tokens", opt_int (prompt_tokens a));
    ("completion_tokens", opt_int (completion_tokens a));
    ("total_tokens", opt_int (total_tokens a));
    ("duration_ms", opt_int (aa_duration_ms a));
    ("input_data", opt_str (aa_input_data a));
    ("output_data", opt_str (aa_output_data a));
    ("metadata", opt_dict (aa_metadata a)) ].

Definition asdict_ToolUsage (u : ToolUsage) : pydict :=
  [ ("event_id", PStr (tu_event_id u));
    ("session_id", PStr (tu_session_id u));
    ("timestamp", PStr (tu_timestamp u));
    ("tool_name", PStr (tu_tool_name u));
    ("agent_name", opt_str (tu_agent_name u));
    ("input_parameters", opt_dict (tu_input_parameters u));
    ("output_result", opt_str (tu_output_result u));
    ("duration_ms", opt_int (tu_duration_ms u));
    ("success", PBool (tu_success u));
    ("error", opt_str (tu_error u)) ].

(** [InteractionLogger(session_id)]: an empty or missing session
    identifier is replaced by a generated one; the six channel loggers
    are looked up (and so created if they do not exist yet). *)
Definition InteractionLogger_init (sid : option string) : M world InteractionLogger :=
  s <- (if truthy_str sid
        then ret (match sid with Some s => s | None => "" end)
        else uuid4) ;;
  getLogger "deer_flow.interactions" ;;;
  getLogger "deer_flow.agents" ;;;
  getLogger "deer_flow.workflows" ;;;
  getLogger "deer_flow.tools" ;;;
  getLogger "deer_flow.performance" ;;;
  getLogger "deer_flow.security" ;;;
  w <- get ;;
  put (set_objects (S (objects w)) w) ;;;
  ret (mkInteractionLogger (objects w) s).

(** [InteractionLogger.log_interaction] *)
Definition log_interaction (self : InteractionLogger) (event_type : string)
  (user_input agent_response agent_name : option string)
  (duration_ms : option Z) (metadata : option pydict) (error : option string)
  : M world string :=
  event_id <- uuid4 ;;
  t <- datetime_now ;;
  let event :=
    mkInteractionEvent event_id (session_id self) (isoformat t) event_type
      user_input agent_response agent_name None None None duration_ms
      (Some (or_empty metadata)) error in
  let record := LogRecord_new t "deer_flow.interactions" INFO "" in
  let record := set_attr "session_id" (PStr (session_id self)) record in
  let record := set_attr "interaction_type" (PStr event_type) record in
  let record := set_attr "interaction_data" (PDict (asdict_InteractionEvent event)) record in
  let record := set_attr "duration" (opt_int duration_ms) record in
  let record := set_attr "agent_name" (opt_str agent_name) record in
  Logger_handle "deer_flow.interactions" record ;;;
  ret event_id.

(** The expression both [total_tokens] and [tokens_used] are computed
    by: [(p or 0) + (c or 0) if p and c else None]. *)
Definition token_total (p c : option Z) : option Z :=
  if truthy_int p && truthy_int c then Some (or_zero p + or_zero c)%Z else None.

(** The [AgentActivity] that [log_agent_activity] constructs. *)
Definition make_agent_activity (event_id sid : string) (t : instant)
  (agent_name activity_type : string) (llm_model : option string)
  (p c : option Z) (duration_ms : option Z)
  (input_data output_data : option string) (metadata : option pydict)
  : AgentActivity :=
  mkAgentActivity event_id sid (isoformat t) agent_name activity_type llm_model
    p c (token_total p c) duration_ms input_data output_data
    (Some (or_empty metadata)).

(** [InteractionLogger.log_agent_activity] *)
Definition log_agent_activity (self : InteractionLogger)
  (agent_name activity_type : string) (llm_model : option string)
  (p c : option Z) (duration_ms : option Z)
  (input_data output_data : option string) (metadata : option pydict)
  : M world string :=
  event_id <- uuid4 ;;
  t <- datetime_now ;;
  let activity :=
    make_agent_activity event_id (session_id self) t agent_name activity_type
      llm_model p c duration_ms input_data output_data metadata in
  let record :=
    LogRecord_new t "deer_flow.agents" INFO
      ("Agent " ++ agent_name ++ " performed " ++ activity_type) in
  let record := set_attr "session_id" (PStr (session_id self)) record in
  let record := set_attr "agent_name" (PStr agent_name) record in
  let record := set_attr "action" (PStr activity_type) record in
  let record := set_attr "agent_data" (PDict (asdict_AgentActivity activity)) record in
  let record := set_attr "llm_model" (opt_str llm_model) record in
  let record := set_attr "tokens_used" (opt_int (token_total p c)) record in
  Logger_handle "deer_flow.agents" record ;;;
  ret event_id.

(** [InteractionLogger.log_workflow_event] *)
Definition log_workflow_event (self : InteractionLogger)
  (workflow_type node_name status : string)
  (input_data output_data : option pydict) (duration_ms : option Z)
  (error : option string) : M world string :=
  event_id <- uuid4 ;;
  t <- datetime_now ;;
  let event :=
    mkWorkflowEvent event_id (session_id self) (isoformat t) workflow_type
      node_name status input_data output_data duration_ms error in
  let level := if String.eqb status "error" then ERROR else INFO in
  let message :=
    "Workflow " ++ workflow_type ++ "." ++ node_name ++ ": " ++ status in
  let message :=
    match error with
    | Some e => if truthy_str error then message ++ " - " ++ e else message
    | None => message
    end in
  Logger_log "deer_flow.workflows"
    (mkCaller "interaction_logger" "log_workflow_event" 226) level message
    [ ("session_id", PStr (session_id self));
      ("workflow_event", PDict (asdict_WorkflowEvent event)) ] ;;;
  ret event_id.

(** [InteractionLogger.log_tool_usage] *)
Definition log_tool_usage (self : InteractionLogger) (tool_name : string)
  (input_parameters : option pydict) (output_result agent_name : option string)
  (duration_ms : option Z) (success : bool) (error : option string)
  : M world string :=
  event_id <- uuid4 ;;
  t <- datetime_now ;;
  let usage :=
    mkToolUsage event_id (session_id self) (isoformat t) tool_name agent_name
      input_parameters output_result duration_ms success error in
  let level := if negb success then ERROR else INFO in
  let message :=
    "Tool " ++ tool_name ++ " used by "
    ++ (match agent_name with
        | Some a => if truthy_str agent_name then a else "unknown"
        | None => "unknown"
        end) in
  let message :=
    match error with
    | Some e => if truthy_str error then message ++ " - Error: " ++ e else message
    | None => message
    end in
  let record := LogRecord_new t "deer_flow.tools" level message in
  let record := set_attr "session_id" (PStr (session_id self)) record in
  let record := set_attr "tool_name" (PStr tool_name) record in
  let record := set_attr "agent_name" (opt_str agent_name) record in
  let record := set_attr "tool_data" (PDict (asdict_ToolUsage usage)) record in
  Logger_handle "deer_flow.tools" record ;;;
  ret event_id.

(** [InteractionLogger.log_performance_metric]: returns [None]. *)
Definition log_performance_metric (self : InteractionLogger)
  (metric_name : string) (value : Z) (unit_ : string) (metadata : option pydict)
  : M world unit :=
  Logger_info "deer_flow.performance"
    (mkCaller "interaction_logger" "log_performance_metric" 287)
    ("Performance metric " ++ metric_name ++ ": " ++ str_of_Z value ++ unit_)
    [ ("session_id", PStr (session_id self));
      ("metric_name", PStr metric_name);
      ("value", PInt value);
      ("unit", PStr unit_);
      ("metadata", PDict (or_empty metadata)) ].

(** [s.upper()] on ASCII letters. *)
Definition upper_char (c : ascii) : ascii :=
  let n := nat_of_ascii c in
  if (Nat.leb 97 n && Nat.leb n 122)%bool then ascii_of_nat (n - 32) else c.

Fixpoint upper (s : string) : string :=
  match s with
  | EmptyString => ""
  | String c s' => String (upper_char c) (upper s')
  end.

(** [InteractionLogger.log_security_event]: returns [None]. *)
Definition log_security_event (self : InteractionLogger)
  (event_type description severity : string)
  (user_id ip_address : option string) (metadata : option pydict)
  : M world unit :=
  let level :=
    match level_of_name (upper severity) with
    | Some l => l
    | None => INFO
    end in
  Logger_log "deer_flow.security"
    (mkCaller "interaction_logger" "log_security_event" 309) level
    ("Security event " ++ event_type ++ ": " ++ description)
    [ ("session_id", PStr (session_id self));
      ("event_type", PStr event_type);
      ("user_id", opt_str user_id);
      ("ip_address", opt_str ip_address);
      ("metadata", PDict (or_empty metadata)) ].

(** [get_interaction_logger(session_id)] *)
Definition get_interaction_logger (sid : option string) : M world InteractionLogger :=
  w <- get ;;
  match _global_logger w with
  | Some g =>
      if truthy_str sid
         && negb (String.eqb (session_id g)
                             (match sid with Some s => s | None => "" end))
      then
        g' <- InteractionLogger_init sid ;;
        modify (set_global_logger (Some g')) ;;;
        ret g'
      else ret g
  | None =>
      g' <- InteractionLogger_init sid ;;
      modify (set_global_logger (Some g')) ;;;
      ret g'
  end.

(** The module-level convenience functions. *)
Module Convenience.

Definition log_interaction (event_type : string)
  (user_input agent_response agent_name : option string)
  (duration_ms : option Z) (metadata : option pydict) (error : option string)
  (sid : option string) : M world string :=
  logger <- get_interaction_logger sid ;;
  log_interaction logger event_type user_input agent_response agent_name
                  duration_ms metadata error.

Definition log_agent_activity (agent_name activity_type : string)
  (llm_model : option string) (p c : option Z) (duration_ms : option Z)
  (input_data output_data : option string) (metadata : option pydict)
  (sid : option string) : M world string :=
  logger <- get_interaction_logger sid ;;
  log_agent_activity logger agent_name activity_type llm_model p c
                     duration_ms input_data output_data metadata.

Definition log_workflow_event (workflow_type node_name status : string)
  (input_data output_data : option pydict) (duration_ms : option Z)
  (error : option string) (sid : option string) : M world string :=
  logger <- get_interaction_logger sid ;;
  log_workflow_event logger workflow_type node_name status input_data
                     output_data duration_ms error.

Definition log_tool_usage (tool_name : string) (input_parameters : option pydict)
  (output_result agent_name : option string) (duration_ms : option Z)
  (success : bool) (error : option string) (sid : option string)
  : M world string :=
  logger <- get_interaction_logger sid ;;
  log_tool_usage logger tool_name input_parameters output_result agent_name
                 duration_ms success error.

End Convenience.

(** A call of one of the six public logging operations, with its
    arguments. *)
Inductive operation : Type :=
| OpInteraction (event_type : string)
    (user_input agent_response agent_name : option string)
    (duration_ms : option Z) (metadata : option pydict) (error : option string)
| OpAgentActivity (agent_name activity_type : string) (llm_model : option string)
    (p c : option Z) (duration_ms : option Z)
    (input_data output_data : option string) (metadata : option pydict)
| OpWorkflowEvent (workflow_type node_name status : string)
    (input_data output_data : option pydict) (duration_ms : option Z)
    (error : option string)
| OpToolUsage (tool_name : string) (input_parameters : option pydict)
    (output_result agent_name : option string) (duration_ms : option Z)
    (success : bool) (error : option string)
| OpPerformanceMetric (metric_name : string) (value : Z) (unit_ : string)
    (metadata : option pydict)
| OpSecurityEvent (event_type description severity : string)
    (user_id ip_address : option string) (metadata : option pydict).

(** The value the call evaluates to in Python: the returned string,
    or [None] for a method without a [return]. *)
Definition call (self : InteractionLogger) (op : operation) : M world pyval :=
  match op with
  | OpInteraction et ui ar an d m e =>
      id <- log_interaction self et ui ar an d m e ;; ret (PStr id)
  | OpAgentActivity an at_ lm p c d i o m =>
      id <- log_agent_activity self an at_ lm p c d i o m ;; ret (PStr id)
  | OpWorkflowEvent wt nn st i o d e =>
      id <- log_workflow_event self wt nn st i o d e ;; ret (PStr id)
  | OpToolUsage tn ip o an d s e =>
      id <- log_tool_usage self tn ip o an d s e ;; ret (PStr id)
  | OpPerformanceMetric mn v u m =>
      log_performance_metric self mn v u m ;;; ret PNone
  | OpSecurityEvent et de sv ui ip m =>
      log_security_event self et de sv ui ip m ;;; ret PNone
  end.

(* ================================================================== *)
(** ** Example inputs *)

(** An empty working directory in which entries may be created. *)
Definition empty_fs : filesystem := mkFS [([], true)] [] [].

(** 14 January 2025, 10:20:00. *)
Definition t_jan14 : instant := mkInstant 1736850000 (mkDate 2025 1 14) 10 20 0.

(** A process started in the empty directory. *)
Definition w_start : world := fresh_world (mkOS empty_fs [] t_jan14).

(** The same process after [setup_logging] with the default
    configuration. *)
Definition w_default : world := snd (setup_logging default_config w_start).

(** A process whose global logger is bound to session [s1]. *)
Definition w_session1 : world :=
  snd (get_interaction_logger (Some "s1") w_default).

Definition logger_s1 : InteractionLogger := mkInteractionLogger 0 "s1".

(** Three dated files in [logs], written on three successive days, and
    a sink over them that keeps [n] files. *)
Definition fs_three_days : filesystem :=
  mkFS [([], true); (["logs"], true)]
       [ (["logs"; "test_2025-01-01.log"], 0%nat);
         (["logs"; "test_2025-01-02.log"], 1%nat);
         (["logs"; "test_2025-01-03.log"], 2%nat) ]
       [ mkInode 100 "a"; mkInode 200 "b"; mkInode 300 "c" ].

Definition sink_keeping (n : Z) : DateRotatingFileHandler :=
  mkHandler ["logs"; "test.log"] n (mkDate 2025 1 3)
            ["logs"; "test_2025-01-03.log"] (Some 2%nat) NOTSET None.

(** A record that carries a Python [set] in an attribute of its own. *)
Definition record_with_set : LogRecord :=
  set_attr "payload" (PObject "set")
           (LogRecord_new t_jan14 "deer_flow.tools" INFO "tool finished").

(** The evening of 3 January 2025 over the three dated files, and an
    instant just after the following midnight. *)
Definition os_evening : os :=
  mkOS fs_three_days [] (mkInstant 400 (mkDate 2025 1 3) 23 59 59).

Definition t_after_midnight : instant := mkInstant 500 (mkDate 2025 1 4) 0 0 1.


Definition record_after : LogRecord :=
  LogRecord_new t_after_midnight "test" INFO "after midnight".

(* ================================================================== *)
(** ** Vocabulary of the statements *)

(** A computation that leaves a component of the state as it found
    it, whatever its outcome. *)
Definition preserves {S A B} (proj : S -> B) (m : M S A) : Prop :=
  forall s, proj (snd (m s)) = proj s.



(** Whether every value of a dictionary can be encoded. *)
Definition all_serializable (d : pydict) : bool :=
  forallb (fun kv => serializable (snd kv)) d.

(** Membership of a path in a list. *)
Definition path_in (p : path) (l : list path) : bool := existsb (path_eqb p) l.

(** The entries are pairwise distinct paths, no two of them share an
    inode, and every inode they name exists. *)
Definition fs_wf (f : filesystem) : Prop :=
  NoDup (map fst (entries f))
  /\ NoDup (map snd (entries f))
  /\ Forall (fun e => (snd e < List.length (inodes f))%nat) (entries f).

(** The sink's [baseFilename] is the dated name of [current_date], and
    its open stream, if any, is the file of that name. *)
Definition sink_ok (h : DateRotatingFileHandler) (f : filesystem) : Prop :=
  baseFilename h = _get_dated_filename h
  /\ forall i, stream h = Some i -> lookup_file f (baseFilename h) = Some i.

(** The sink's directory exists, entries may be created in it, and no
    directory bears the name of a dated file. *)
Definition dir_ready (h : DateRotatingFileHandler) (f : filesystem) : Prop :=
  lookup_dir f (path_parent (base_filename h)) = Some true
  /\ forall d, lookup_dir f (dated_filename (base_filename h) d) = None.

(** The text a file holds, or nothing if there is no such file. *)
Definition content (f : filesystem) (p : path) : string :=
  match read_text f p with
  | Some s => s
  | None => ""
  end.

(** The inode a path leads to, if it names a file. *)
Definition file_at (f : filesystem) (p : path) : option inode :=
  match lookup_file f p with
  | Some i => nth_error (inodes f) i
  | None => None
  end.

(** The clock moves on; nothing else changes. *)
Definition set_clock (t : instant) (o : os) : os := mkOS (fs o) (stderr o) t.

(** The files of the sink's directory that its retention pattern
    matches. *)
Definition dated_files (h : DateRotatingFileHandler) (f : filesystem) : list path :=
  fs_glob f (path_parent (base_filename h))
          (path_stem (base_filename h) ++ "_*.log").

(** Noon of a day of January 2025. *)
Definition noon (d : nat) : instant :=
  mkInstant (1735689600 + Z.of_nat d * 86400) (mkDate 2025 1 d) 12 0 0.

(** One append at noon of each of the given days, through a sink over
    [logs/test.log] created in the empty directory at noon of the
    first day and keeping [keep] files. *)
Definition appends_over_days (keep : Z) (days : list nat) : option sink :=
  match days with
  | [] => None
  | d0 :: _ =>
      match DateRotatingFileHandler_init ["logs"; "test.log"] keep
              (mkOS empty_fs [] (noon d0)) with
      | (Raise _, _) => None
      | (Ok h, o) =>
          Some (fold_left
                  (fun s d =>
                     snd (emit (LogRecord_new (noon d) "test" INFO "test message")
                               (fst s, set_clock (noon d) (snd s))))
                  days (h, o))
      end
  end.

(** *** Set-up in steps *)

(** The statements of [setup_logging] before the channel set-ups: the
    directories, the root logger and its two handlers. *)
Definition setup_root (config : LoggingConfig) : M world unit :=
  let log_dir := log_dir config in
  on_sys_fs (fs_mkdir true log_dir) ;;;
  on_sys_fs (fs_mkdir true (path_join log_dir "interactions")) ;;;
  on_sys_fs (fs_mkdir true (path_join log_dir "agents")) ;;;
  on_sys_fs (fs_mkdir true (path_join log_dir "workflows")) ;;;
  on_sys_fs (fs_mkdir true (path_join log_dir "tools")) ;;;
  on_sys_fs (fs_mkdir true (path_join log_dir "system")) ;;;
  on_sys_fs (fs_mkdir true (path_join log_dir "performance")) ;;;
  on_sys_fs (fs_mkdir true (path_join log_dir "security")) ;;;
  l <- getattr_logging (system_log_level config) ;;
  modify (fun w => set_root (Logger_setLevel l (root w)) w) ;;;
  modify (fun w => set_root (mkLogger (lg_level (root w)) (propagate (root w)) []) w) ;;;
  h <- on_sys (DateRotatingFileHandler_init
                 (path_join (path_join log_dir "system") "system.log")
                 (max_log_files config)) ;;
  l' <- getattr_logging (system_log_level config) ;;
  system_handler <- alloc_handler
                      (FileHandlerObj (setLevel l' (setFormatter StructuredFormatter h))) ;;
  modify (fun w => set_root (Logger_addHandler system_handler (root w)) w) ;;;
  console_handler <- alloc_handler (ConsoleHandlerObj WARNING) ;;
  modify (fun w => set_root (Logger_addHandler console_handler (root w)) w).

(** The six channel set-ups in the order [setup_logging] calls them,
    each with the name of its logger and its enable flag. *)
Definition channel_setups (config : LoggingConfig)
  : list (string * (bool * M world unit)) :=
  [ ("deer_flow.interactions",
     (enable_interaction_logging config, _setup_interaction_logger config));
    ("deer_flow.agents",
     (enable_agent_logging config, _setup_agent_logger config));
    ("deer_flow.workflows",
     (enable_workflow_logging config, _setup_workflow_logger config));
    ("deer_flow.tools",
     (enable_tool_logging config, _setup_tool_logger config));
    ("deer_flow.performance",
     (enable_performance_logging config, _setup_performance_logger config));
    ("deer_flow.security",
     (enable_security_logging config, _setup_security_logger config)) ].

(** Running a list of set-ups in order. *)
Definition run_setups (l : list (string * (bool * M world unit))) : M world unit :=
  for_each l (fun c => snd (snd c)).

(** The handlers attached to the logger called [name]; none when the
    logger does not exist. *)
Definition attached (w : world) (name : string) : list nat :=
  match find_logger w name with
  | Some lg => handlers lg
  | None => []
  end.

(** The logger called [name] as [getLogger] would hand it out. *)
Definition logger_or_new (w : world) (name : string) : Logger :=
  match find_logger w name with
  | Some lg => lg
  | None => new_logger
  end.

(** A working directory where [logs] and its seven subdirectories
    exist, [logs/agents] without write permission. *)
Definition fs_agents_readonly : filesystem :=
  mkFS [ ([], true); (["logs"], true);
         (["logs"; "interactions"], true); (["logs"; "agents"], false);
         (["logs"; "workflows"], true); (["logs"; "tools"], true);
         (["logs"; "system"], true); (["logs"; "performance"], true);
         (["logs"; "security"], true) ] [] [].

Definition w_agents_readonly : world :=
  fresh_world (mkOS fs_agents_readonly [] t_jan14).

(** The process after the failed set-up over the read-only
    directory. *)
Definition w_agents_failed : world :=
  snd (setup_logging default_config w_agents_readonly).

(** The same process after the root and the interaction channel have
    been set up, just before the agent channel is. *)
Definition w_before_agents : world :=
  snd (bind (setup_root default_config)
            (fun _ => _setup_interaction_logger default_config)
            w_agents_readonly).

(** *** Disabled channels *)


(** The default configuration with the interaction channel switched
    off, and a process set up with it whose global logger is bound to
    session [s1]. *)
Definition config_no_interactions : LoggingConfig :=
  mkLoggingConfig ["logs"] false "INFO" true "INFO" true "INFO" true "INFO"
                  "INFO" 30 true true.







(** *** More example inputs *)

(** A file system with the three dated files in a directory that
    does not allow removing entries. *)
Definition fs_three_days_readonly : filesystem :=
  mkFS [([], true); (["logs"], false)] (entries fs_three_days)
       (inodes fs_three_days).

(** *** The agent formatter and more example records *)

(** The part of [AgentFormatter.format] that builds [log_data];
    [update] needs a mapping. *)
Definition agent_log_data (r : LogRecord) : result pydict :=
  let log_data :=
    [ ("timestamp", PStr (strftime_YmdHMS (created r)));
      ("agent", getattr_default r "agent_name" (PStr "unknown"));
      ("action", getattr_default r "action" (PStr "activity"));
      ("session_id", getattr_default r "session_id" (PStr "unknown"));
      ("message", PStr (getMessage r)) ] in
  let with_data :=
    match dict_get "agent_data" (extra r) with
    | None => Ok log_data
    | Some (PDict d) => Ok (dict_update log_data d)
    | Some _ => Raise (TypeError "agent_data is not a mapping")
    end in
  match with_data with
  | Raise e => Raise e
  | Ok log_data =>
      let log_data :=
        match dict_get "llm_model" (extra r) with
        | Some v => dict_set "llm_model" v log_data
        | None => log_data
        end in
      let log_data :=
        match dict_get "tokens_used" (extra r) with
        | Some v => dict_set "tokens_used" v log_data
        | None => log_data
        end in
      Ok log_data
  end.

(** [AgentFormatter.format] *)
Definition AgentFormatter_format (r : LogRecord) : result string :=
  match agent_log_data r with
  | Raise e => Raise e
  | Ok log_data => json_dumps None (PDict log_data)
  end.

(** The record [log_agent_activity] hands to its logger, for given
    draws of the identifier and the clock. *)
Definition record_researcher : LogRecord :=
  let activity :=
    make_agent_activity (uuid_str 0) "s1" t_jan14 "researcher" "search"
      (Some "gpt") (Some 100%Z) (Some 200%Z) None None None None in
  set_attr "tokens_used" (opt_int (token_total (Some 100%Z) (Some 200%Z)))
    (set_attr "llm_model" (PStr "gpt")
       (set_attr "agent_data" (PDict (asdict_AgentActivity activity))
          (set_attr "action" (PStr "search")
             (set_attr "agent_name" (PStr "researcher")
                (set_attr "session_id" (PStr "s1")
                   (LogRecord_new t_jan14 "deer_flow.agents" INFO
                      "Agent researcher performed search")))))).

(** A record with a custom attribute [level] and one named [name]. *)
Definition record_custom_level : LogRecord :=
  set_attr "name" (PStr "shadow")
    (set_attr "level" (PStr "custom")
       (LogRecord_new t_jan14 "deer_flow.tools" INFO "tool finished")).

(** The record [log_interaction] hands to its logger for a user query,
    for given draws of the identifier and the clock. *)
Definition record_user_query : LogRecord :=
  let event :=
    mkInteractionEvent (uuid_str 0) "s1" (isoformat t_jan14) "user_query"
      (Some "ping") None None None None None (Some 1500%Z) (Some []) None in
  set_attr "agent_name" PNone
    (set_attr "duration" (PInt 1500)
       (set_attr "interaction_data" (PDict (asdict_InteractionEvent event))
          (set_attr "interaction_type" (PStr "user_query")
             (set_attr "session_id" (PStr "s1")
                (LogRecord_new t_jan14 "deer_flow.interactions" INFO ""))))).

(** *** Set-up: invariants and the channel table *)

(** A configuration whose log directory lies in a directory that does
    not exist. *)
Definition config_nested : LoggingConfig :=
  mkLoggingConfig ["var"; "logs"] true "INFO" true "INFO" true "INFO" true "INFO"
                  "INFO" 30 true true.

(** A computation that keeps an invariant of the state, whatever its
    outcome. *)
Definition keeps {S A} (I : S -> Prop) (m : M S A) : Prop :=
  forall s, I s -> I (snd (m s)).

(** Every directory of [f] is a directory of [f'], with the same
    permission. *)
Definition dirs_kept (f f' : filesystem) : Prop :=
  forall p b, lookup_dir f p = Some b -> lookup_dir f' p = Some b.

(** From one state of the process to a later one: handler objects are
    only added, directories only created, and the clock is the same. *)
Definition extends (w w' : world) : Prop :=
  (exists l, heap w' = (heap w ++ l)%list)
  /\ dirs_kept (fs (sys w)) (fs (sys w'))
  /\ now (sys w') = now (sys w).

(** A computation whose final state is related to its initial state,
    whatever its outcome. *)
Definition respects {S A} (R : S -> S -> Prop) (m : M S A) : Prop :=
  forall s, R s (snd (m s)).

(** The directories [setup_logging] creates. *)
Definition setup_dirs (config : LoggingConfig) : list path :=
  log_dir config
  :: map (path_join (log_dir config))
       ["interactions"; "agents"; "workflows"; "tools"; "system";
        "performance"; "security"].

(** The six channels as the set-up functions configure them: the
    logger, the directory and file stem, the name of the level and the
    formatter of the sink. *)
Definition channel_table (config : LoggingConfig)
  : list (string * (string * string * formatter)) :=
  [ ("deer_flow.interactions",
     ("interactions", interaction_log_level config, InteractionFormatter));
    ("deer_flow.agents", ("agents", agent_log_level config, StructuredFormatter));
    ("deer_flow.workflows",
     ("workflows", workflow_log_level config, StructuredFormatter));
    ("deer_flow.tools", ("tools", tool_log_level config, StructuredFormatter));
    ("deer_flow.performance", ("performance", "INFO", StructuredFormatter));
    ("deer_flow.security", ("security", "INFO", StructuredFormatter)) ].

(** A process in which [setup_logging] has run twice with the default
    configuration, and the agent activity logged below. *)
Definition w_default_twice : world := snd (setup_logging default_config w_default).

Definition op_search : operation :=
  OpAgentActivity "researcher" "search" None (Some 100%Z) (Some 200%Z)
                  None None None None.

(** *** The event logger: what a dispatch reads *)

(** The part of the process the logging operations only read: the
    logger tree, the [InteractionLogger] instances and the global
    one. *)
Definition configuration (w : world)
  : Logger * list (string * Logger) * nat * option InteractionLogger :=
  (root w, loggerDict w, objects w, _global_logger w).

(** The loggers the [InteractionLogger] constructor looks up. *)
Definition channel_loggers : list string :=
  [ "deer_flow.interactions"; "deer_flow.agents"; "deer_flow.workflows";
    "deer_flow.tools"; "deer_flow.performance"; "deer_flow.security" ].

(** The default configuration with the workflow channel at
    [WARNING], and a process set up with it. *)
Definition config_workflows_warning : LoggingConfig :=
  mkLoggingConfig ["logs"] true "INFO" true "INFO" true "WARNING" true "INFO"
                  "INFO" 30 true true.

Definition w_workflows_warning : world :=
  snd (get_interaction_logger (Some "s1")
         (snd (setup_logging config_workflows_warning w_start))).

(** Two states of the process that agree on everything a dispatch
    reads: the surroundings, the handler objects, the identifiers
    drawn, and for every logger its handlers and whether it propagates.
    The levels of the loggers may differ. *)
Definition same_dispatch (w1 w2 : world) : Prop :=
  sys w1 = sys w2 /\ heap w1 = heap w2 /\ uuid_calls w1 = uuid_calls w2
  /\ handlers (root w1) = handlers (root w2)
  /\ Forall2 (fun a b => fst a = fst b
                         /\ propagate (snd a) = propagate (snd b)
                         /\ handlers (snd a) = handlers (snd b))
             (loggerDict w1) (loggerDict w2).

(** The operations that hand their record to [Logger.handle]. *)
Definition uses_handle (op : operation) : bool :=
  match op with
  | OpInteraction _ _ _ _ _ _ _ => true
  | OpAgentActivity _ _ _ _ _ _ _ _ _ => true
  | OpToolUsage _ _ _ _ _ _ _ => true
  | _ => false
  end.

(** The default configuration with the interaction, agent and tool
    channels at [ERROR], and a process set up with it. *)
Definition config_channels_error : LoggingConfig :=
  mkLoggingConfig ["logs"] true "ERROR" true "ERROR" true "INFO" true "ERROR"
                  "INFO" 30 true true.

Definition w_channels_error : world :=
  snd (get_interaction_logger (Some "s1")
         (snd (setup_logging config_channels_error w_start))).

(** A computation whose outcome, and whose effect on the surroundings
    and the handler objects, depend on these two only. *)
Definition reads_sys_heap {A} (m : M world A) : Prop :=
  forall w1 w2, sys w1 = sys w2 -> heap w1 = heap w2 ->
    fst (m w1) = fst (m w2)
    /\ sys (snd (m w1)) = sys (snd (m w2))
    /\ heap (snd (m w1)) = heap (snd (m w2)).

(** What [callHandlers] does once the handlers to visit are known. *)
Definition dispatch_to (hs : list nat) (record : LogRecord) : M world unit :=
  match hs with
  | [] =>
      if (levelno record >=? WARNING)%Z
      then on_sys (modify (fun o =>
             mkOS (fs o) (stderr o ++ [getMessage record])%list (now o)))
      else ret tt
  | _ =>
      for_each hs (fun addr =>
        w' <- get ;;
        match nth_error (heap w') addr with
        | Some h =>
            if (levelno record >=? handler_level h)%Z
            then Handler_handle addr record
            else ret tt
        | None => ret tt
        end)
  end.

(** A computation that cannot tell two such states apart. *)
Definition level_blind {A} (m : M world A) : Prop :=
  forall w1 w2, same_dispatch w1 w2 ->
    fst (m w1) = fst (m w2) /\ same_dispatch (snd (m w1)) (snd (m w2)).

(** *** File names and the retention pattern *)

(** Whether a string ends with a given suffix. *)
Fixpoint ends_with (suffix s : string) : bool :=
  String.eqb s suffix
  || match s with
     | EmptyString => false
     | String _ s' => ends_with suffix s'
     end.

(** A name without the characters [fnmatch] gives a meaning to. *)
Fixpoint plain_name (s : string) : bool :=
  match s with
  | EmptyString => true
  | String c s' =>
      negb (Ascii.eqb c "*") && negb (Ascii.eqb c "?") && negb (Ascii.eqb c "[")
      && plain_name s'
  end.

(** A sink over [logs/audit.txt], as it is after its first day. *)
Definition sink_audit : DateRotatingFileHandler :=
  mkHandler ["logs"; "audit.txt"] 1 (mkDate 2025 1 3)
            ["logs"; "audit_2025-01-03.txt"] None NOTSET None.

(* ================================================================== *)
(** * Properties *)

(** ** General facts about the effect monad *)

Lemma preserves_ret {S A B} (proj : S -> B) (a : A) : preserves proj (ret a).
Proof. intro s. reflexivity. Qed.

Lemma preserves_raise {S A B} (proj : S -> B) (e : exn) :
  preserves proj (@raise S A e).
Proof. intro s. reflexivity. Qed.

Lemma preserves_get {S B} (proj : S -> B) : preserves proj (@get S).
Proof. intro s. reflexivity. Qed.

Lemma preserves_modify {S B} (proj : S -> B) (f : S -> S) :
  (forall s, proj (f s) = proj s) -> preserves proj (modify f).
Proof. intros H s. apply H. Qed.

Lemma preserves_bind {S A C B} (proj : S -> B) (m : M S A) (k : A -> M S C) :
  preserves proj m -> (forall a, preserves proj (k a)) ->
  preserves proj (bind m k).
Proof.
  intros Hm Hk s. unfold bind.
  specialize (Hm s). destruct (m s) as [[a | e] s1]; simpl in *.
  - rewrite Hk. exact Hm.
  - exact Hm.
Qed.

Lemma preserves_for_each {S A B} (proj : S -> B) (xs : list A)
  (body : A -> M S unit) :
  (forall x, preserves proj (body x)) -> preserves proj (for_each xs body).
Proof.
  intros Hb. induction xs as [| x xs IH]; simpl.
  - apply preserves_ret.
  - apply preserves_bind; [apply Hb | intros _; exact IH].
Qed.

Lemma preserves_try_except {S A B} (proj : S -> B) (m : M S A)
  (h : exn -> M S A) :
  preserves proj m -> (forall e, preserves proj (h e)) ->
  preserves proj (try_except m h).
Proof.
  intros Hm Hh s. unfold try_except.
  specialize (Hm s). destruct (m s) as [[a | e] s1]; simpl in *.
  - exact Hm.
  - rewrite Hh. exact Hm.
Qed.

(** A raised exception ends the sequence: what follows is not run. *)
Lemma bind_raise {S A B} (m : M S A) (k : A -> M S B) (s s' : S) (e : exn) :
  m s = (Raise e, s') -> bind m k s = (Raise e, s').
Proof. intros H. unfold bind. rewrite H. reflexivity. Qed.

Lemma bind_ok {S A B} (m : M S A) (k : A -> M S B) (s s' : S) (a : A) :
  m s = (Ok a, s') -> bind m k s = k a s'.
Proof. intros H. unfold bind. rewrite H. reflexivity. Qed.

(* ================================================================== *)
(** ** Token totals of agent-activity records *)

(** What the token expression computes: a total exactly when both
    counts are supplied and neither is zero. *)
Lemma token_total_spec (p c : option Z) (t : Z) :
  token_total p c = Some t <->
  exists a b, p = Some a /\ c = Some b /\ a <> 0%Z /\ b <> 0%Z /\ t = (a + b)%Z.
Proof.
  unfold token_total, truthy_int, or_zero. split.
  - destruct p as [a |], c as [b |]; simpl; try discriminate.
    + destruct (Z.eqb_spec a 0), (Z.eqb_spec b 0); simpl; try discriminate.
      intros H. injection H as <-. exists a, b. repeat split; assumption.
    + destruct (a =? 0)%Z; discriminate.
  - intros (a & b & -> & -> & Ha & Hb & ->). simpl.
    destruct (Z.eqb_spec a 0), (Z.eqb_spec b 0); simpl; try contradiction.
    reflexivity.
Qed.

(** With both counts supplied and non-zero the total is their sum. *)
Lemma token_total_nonzero (a b : Z) :
  a <> 0%Z -> b <> 0%Z -> token_total (Some a) (Some b) = Some (a + b)%Z.
Proof.
  intros Ha Hb. apply token_total_spec. exists a, b. repeat split; assumption.
Qed.

(** A missing count leaves the total absent. *)
Lemma token_total_missing (o : option Z) :
  token_total None o = None /\ token_total o None = None.
Proof.
  unfold token_total. split; [reflexivity |].
  destruct (truthy_int o); reflexivity.
Qed.

(** C6, at the failing input: an agent-activity record built from a
    supplied prompt count of 0 and any supplied completion count has
    both counts present and no total, where the claim asks for their
    sum. *)
Theorem C6_zero_count_drops_total :
  forall (event_id sid : string) (t : instant) (agent_name activity_type : string)
         (llm_model : option string) (c : Z) (duration_ms : option Z)
         (input_data output_data : option string) (metadata : option pydict),
    let a := make_agent_activity event_id sid t agent_name activity_type
               llm_model (Some 0%Z) (Some c) duration_ms input_data output_data
               metadata in
    prompt_tokens a = Some 0%Z /\ completion_tokens a = Some c
    /\ total_tokens a = None.
Proof. intros. repeat split. Qed.

(** The same input through the whole logging call: the line written to
    the agents channel carries the two counts and a null total. *)
Example C6_logged_line :
  let w := snd (log_agent_activity logger_s1 "researcher" "search" None
                  (Some 0%Z) (Some 5%Z) None None None None w_session1) in
  option_map
    (contains
       ("prompt_tokens" ++ String DQUOTE ": 0, " ++ String DQUOTE
        "completion_tokens" ++ String DQUOTE ": 5, " ++ String DQUOTE
        "total_tokens" ++ String DQUOTE ": null"))
    (read_text (fs (sys w)) ["logs"; "agents"; "agents_2025-01-14.log"])
  = Some true.
Proof. vm_compute. reflexivity. Qed.

(* ================================================================== *)
(** ** Retention with a non-positive file count *)

Lemma slice_to_zero {A} (l : list A) : slice_to 0 l = [].
Proof. reflexivity. Qed.

(** With [max_files = 0] no file is selected for removal. *)
Lemma files_to_remove_zero (h : DateRotatingFileHandler) (f : filesystem) :
  max_files h = 0%Z -> files_to_remove h f = [].
Proof.
  intros H. unfold files_to_remove. rewrite H. simpl.
  destruct (Z.of_nat _ <=? 0)%Z; reflexivity.
Qed.

(** With a negative [max_files = -k] and at least one matching file,
    the [k] least recently modified matching files are selected. *)
Lemma files_to_remove_negative (h : DateRotatingFileHandler) (f : filesystem) :
  (max_files h < 0)%Z ->
  fs_glob f (path_parent (base_filename h))
          (path_stem (base_filename h) ++ "_*.log") <> [] ->
  files_to_remove h f =
  firstn (Z.to_nat (- max_files h))
    (sort_by (st_mtime f)
       (fs_glob f (path_parent (base_filename h))
                (path_stem (base_filename h) ++ "_*.log"))).
Proof.
  intros Hneg Hne. unfold files_to_remove.
  destruct (Z.leb_spec (Z.of_nat (List.length
              (fs_glob f (path_parent (base_filename h))
                 (path_stem (base_filename h) ++ "_*.log")))) (max_files h)) as [Hle | _].
  - lia.
  - unfold slice_to. destruct (Z.ltb_spec (- max_files h) 0); [lia | reflexivity].
Qed.

(** C3, amended: when [max_files] is 0, retention cleanup deletes no
    file and changes nothing, however many dated files exist. *)
Theorem C3_zero_keeps_all_files :
  forall (h : DateRotatingFileHandler) (f : filesystem),
    max_files h = 0%Z -> _cleanup_old_files h f = (Ok tt, f).
Proof.
  intros h f H. unfold _cleanup_old_files.
  rewrite (files_to_remove_zero h f H). reflexivity.
Qed.

Lemma C3_zero_keeps_all_files_witness :
  max_files (sink_keeping 0) = 0%Z
  /\ _cleanup_old_files (sink_keeping 0) fs_three_days = (Ok tt, fs_three_days).
Proof.
  split; [reflexivity |].
  apply (C3_zero_keeps_all_files (sink_keeping 0) fs_three_days). reflexivity.
Defined.

(** C3, as stated, fails for a negative count: a sink with
    [max_files = -1] over three dated files deletes the oldest one. *)
Lemma C3_negative_count_deletes :
  (max_files (sink_keeping (-1)) <= 0)%Z
  /\ entries (snd (_cleanup_old_files (sink_keeping (-1)) fs_three_days))
     = [ (["logs"; "test_2025-01-02.log"], 1%nat);
         (["logs"; "test_2025-01-03.log"], 2%nat) ]
  /\ path_exists fs_three_days ["logs"; "test_2025-01-01.log"] = true
  /\ path_exists (snd (_cleanup_old_files (sink_keeping (-1)) fs_three_days))
                 ["logs"; "test_2025-01-01.log"] = false.
Proof. vm_compute. repeat split; discriminate. Qed.

(* ================================================================== *)
(** ** Exceptions and identifiers of the logging calls *)








Lemma cleanup_never_raises (h : DateRotatingFileHandler) (f : filesystem) :
  fst (_cleanup_old_files h f) = Ok tt.
Proof.
  unfold _cleanup_old_files. generalize (files_to_remove h f) as l.
  intros l. revert f. induction l as [| p l IH]; intros f; simpl.
  - reflexivity.
  - unfold bind, try_except.
    destruct (fs_unlink p f) as [[[] | e] f1]; simpl; apply IH.
Qed.



Lemma preserves_uuid_Handler_handle (addr : nat) (record : LogRecord) :
  preserves uuid_calls (Handler_handle addr record).
Proof.
  intros w. unfold Handler_handle.
  destruct (nth_error (heap w) addr) as [[h | l] |]; simpl; try reflexivity.
  destruct (emit record (h, sys w)) as [r [h' o']]. reflexivity.
Qed.


Lemma preserves_uuid_on_sys {A} (m : M os A) : preserves uuid_calls (on_sys m).
Proof. intros w. unfold on_sys. destruct (m (sys w)). reflexivity. Qed.


Lemma preserves_uuid_callHandlers (name : string) (record : LogRecord) :
  preserves uuid_calls (callHandlers name record).
Proof.
  unfold callHandlers. apply preserves_bind; [apply preserves_get |]. intros w.
  destruct (handlers_for w name) as [| a hs].
  - destruct (levelno record >=? WARNING)%Z;
      [apply preserves_uuid_on_sys | apply preserves_ret].
  - apply preserves_for_each. intros addr.
    apply preserves_bind; [apply preserves_get |]. intros w'.
    destruct (nth_error (heap w') addr); [| apply preserves_ret].
    destruct (_ >=? _)%Z; [apply preserves_uuid_Handler_handle | apply preserves_ret].
Qed.










(** In the same process the other four operations do return the
    identifier they drew. *)
Example C5_four_operations_return_ids :
  fst (call logger_s1
         (OpInteraction "user_query" (Some "ping") None None None None None)
         w_session1) = Ok (PStr (uuid_str 0))
  /\ fst (call logger_s1
            (OpAgentActivity "researcher" "search" None (Some 100%Z) (Some 200%Z)
               None None None None) w_session1) = Ok (PStr (uuid_str 0))
  /\ fst (call logger_s1
            (OpWorkflowEvent "research" "planner" "started" None None None None)
            w_session1) = Ok (PStr (uuid_str 0))
  /\ fst (call logger_s1
            (OpToolUsage "web_search" None None None None false None)
            w_session1) = Ok (PStr (uuid_str 0)).
Proof. vm_compute. repeat split. Qed.

(* ================================================================== *)
(** ** The global logger *)

(** [getLogger] never raises and touches the logger table only. *)
Lemma getLogger_inv (name : string) (w w1 : world) (r : result Logger) :
  getLogger name w = (r, w1) ->
  (exists lg, r = Ok lg)
  /\ sys w1 = sys w /\ heap w1 = heap w /\ root w1 = root w
  /\ uuid_calls w1 = uuid_calls w /\ objects w1 = objects w
  /\ _global_logger w1 = _global_logger w.
Proof.
  unfold getLogger. destruct (find_logger w name) as [lg |]; intros H;
    injection H as <- <-; (split; [eexists; reflexivity | repeat split]).
Qed.

Ltac step_getLogger :=
  match goal with
  | |- context [getLogger ?n ?w] =>
      let r := fresh "r" in let w1 := fresh "w" in let E := fresh "E" in
      destruct (getLogger n w) as [r w1] eqn:E;
      apply getLogger_inv in E;
      destruct E as ((? & ->) & ? & ? & ? & ? & ? & ?)
  end.

(** What the constructor does: the session is the given one, or a
    generated identifier when none (or an empty one) is given; the
    instance is new. *)
Lemma InteractionLogger_init_spec (sid : option string) (w : world) :
  exists w',
    InteractionLogger_init sid w
    = (Ok (mkInteractionLogger (objects w)
             (if truthy_str sid
              then match sid with Some s => s | None => "" end
              else uuid_str (uuid_calls w))), w')
    /\ objects w' = S (objects w)
    /\ _global_logger w' = _global_logger w
    /\ uuid_calls w' = (if truthy_str sid then uuid_calls w else S (uuid_calls w)).
Proof.
  unfold InteractionLogger_init.
  destruct (truthy_str sid); cbv [bind ret uuid4 get put];
    repeat step_getLogger; eexists;
    match goal with
    | |- (Ok {| obj_id := objects ?a; session_id := _ |}, _) = _ /\ _ =>
        assert (Ho : objects a = objects w) by (simpl in *; congruence);
        assert (Hg : _global_logger a = _global_logger w) by (simpl in *; congruence);
        assert (Hu : uuid_calls a = uuid_calls w
                     \/ uuid_calls a = S (uuid_calls w)) by (simpl in *; first [left; congruence | right; congruence]);
        rewrite Ho
    end.
  - split; [reflexivity |]. simpl. repeat split; try congruence.
  - split; [reflexivity |]. simpl. repeat split; try congruence.
    simpl in *. congruence.
Qed.

(** C10, amended: with a global logger in place, a call without a
    session identifier, with an empty one, or with the identifier the
    logger is bound to returns that very instance and changes nothing;
    a call with a different, non-empty identifier installs and returns
    a new instance bound to it; so the convenience functions called
    without an identifier log under the session the global logger was
    last bound to. *)
Theorem C10_global_logger_reuse :
  forall (w : world) (g : InteractionLogger) (sid : option string),
    _global_logger w = Some g ->
    (obj_id g < objects w)%nat ->
    ((sid = None \/ sid = Some "" \/ sid = Some (session_id g)) ->
       get_interaction_logger sid w = (Ok g, w))
    /\ (forall s, sid = Some s -> s <> "" -> s <> session_id g ->
          exists g' w',
            get_interaction_logger sid w = (Ok g', w')
            /\ session_id g' = s
            /\ obj_id g' <> obj_id g
            /\ _global_logger w' = Some g')
    /\ (forall event_type user_input agent_response agent_name duration_ms
               metadata error,
          Convenience.log_interaction event_type user_input agent_response
            agent_name duration_ms metadata error None w
          = log_interaction g event_type user_input agent_response agent_name
              duration_ms metadata error w).
Proof.
  intros w g sid Hg Hid. split; [| split].
  - intros Hsid. unfold get_interaction_logger, bind, get. rewrite Hg.
    destruct Hsid as [-> | [-> | ->]]; simpl; try reflexivity.
    rewrite String.eqb_refl. simpl.
    destruct (negb (session_id g =? "")); reflexivity.
  - intros s -> Hne Hdiff.
    unfold get_interaction_logger, bind, get. rewrite Hg.
    assert (Ht : truthy_str (Some s) = true).
    { simpl. destruct (String.eqb_spec s ""); [contradiction | reflexivity]. }
    rewrite Ht.
    destruct (String.eqb_spec (session_id g) s) as [E | _];
      [symmetry in E; contradiction |]. cbn [negb andb].
    destruct (InteractionLogger_init_spec (Some s) w) as (w' & E & Ho & _ & _).
    rewrite E. rewrite Ht. simpl.
    eexists. eexists. split; [reflexivity |]. simpl.
    repeat split. lia.
  - intros. unfold Convenience.log_interaction, get_interaction_logger, bind, get.
    rewrite Hg. reflexivity.
Qed.

Lemma C10_global_logger_reuse_witness :
  _global_logger w_session1 = Some logger_s1
  /\ (obj_id logger_s1 < objects w_session1)%nat
  /\ get_interaction_logger None w_session1 = (Ok logger_s1, w_session1)
  /\ exists g' w',
       get_interaction_logger (Some "s2") w_session1 = (Ok g', w')
       /\ session_id g' = "s2"
       /\ obj_id g' <> obj_id logger_s1
       /\ _global_logger w' = Some g'.
Proof.
  assert (Hg : _global_logger w_session1 = Some logger_s1) by reflexivity.
  assert (Hid : (obj_id logger_s1 < objects w_session1)%nat)
    by (vm_compute; apply le_n).
  destruct (C10_global_logger_reuse w_session1 logger_s1 None Hg Hid)
    as (Hsame & _ & _).
  destruct (C10_global_logger_reuse w_session1 logger_s1 (Some "s2") Hg Hid)
    as (_ & Hnew & _).
  split; [exact Hg |]. split; [exact Hid |].
  split; [apply Hsame; left; reflexivity |].
  apply (Hnew "s2"); [reflexivity | discriminate | discriminate].
Defined.

(** C10, as stated, fails for the empty identifier: it is not [None]
    and differs from the bound session [s1], yet the existing instance
    is returned, still bound to [s1], and nothing changes. *)
Lemma C10_empty_session_id_keeps_logger :
  _global_logger w_session1 = Some logger_s1
  /\ Some "" <> @None string
  /\ "" <> session_id logger_s1
  /\ get_interaction_logger (Some "") w_session1 = (Ok logger_s1, w_session1).
Proof. repeat split; discriminate. Qed.

(* ================================================================== *)
(** ** Totality of the encoders *)

(** Induction on a value, with the hypothesis for every item of a
    container. *)
Lemma pyval_ind' (P : pyval -> Prop) :
  P PNone ->
  (forall b, P (PBool b)) ->
  (forall z, P (PInt z)) ->
  (forall s, P (PStr s)) ->
  (forall l, Forall P l -> P (PList l)) ->
  (forall d, Forall (fun kv => P (snd kv)) d -> P (PDict d)) ->
  (forall c, P (PObject c)) ->
  forall v, P v.
Proof.
  intros HNone HBool HInt HStr HList HDict HObject.
  fix IH 1. intros [| b | z | s | l | d | c].
  - exact HNone.
  - apply HBool.
  - apply HInt.
  - apply HStr.
  - apply HList. induction l as [| x l IHl]; constructor; [apply IH | exact IHl].
  - apply HDict. induction d as [| kv d IHd]; constructor; [apply IH | exact IHd].
  - apply HObject.
Qed.

(** A run of calls each of which returns or raises the encoder's
    [TypeError] does the same as a whole, and returns exactly when all
    of them do. *)
Lemma sequence_map_total {A} (f : A -> result string) (ok : A -> bool)
  (l : list A) :
  Forall (fun x => if ok x then exists s, f x = Ok s
                   else exists c, f x = Raise (not_serializable c)) l ->
  if forallb ok l then exists items, sequence (map f l) = Ok items
  else exists c, sequence (map f l) = Raise (not_serializable c).
Proof.
  induction 1 as [| x l Hx _ IH]; simpl.
  - eexists. reflexivity.
  - destruct (ok x).
    + destruct Hx as [s ->]. simpl.
      destruct (forallb ok l).
      * destruct IH as [items ->]. eexists. reflexivity.
      * destruct IH as [c ->]. eexists. reflexivity.
    + destruct Hx as [c ->]. simpl. eexists. reflexivity.
Qed.

(** [json.dumps] returns a text exactly for the values that hold
    nothing without an encoding rule; otherwise it raises
    [TypeError]. *)
Lemma json_encode_total (v : pyval) :
  forall (indent : option nat) (lvl : nat),
    if serializable v then exists s, json_encode indent lvl v = Ok s
    else exists c, json_encode indent lvl v = Raise (not_serializable c).
Proof.
  induction v as [| b | z | s | l IH | d IH | c] using pyval_ind';
    intros indent lvl; cbn [serializable json_encode].
  - eexists. reflexivity.
  - destruct b; eexists; reflexivity.
  - eexists. reflexivity.
  - eexists. reflexivity.
  - destruct l as [| x l']; [eexists; reflexivity |].
    pose proof (sequence_map_total (json_encode indent (S lvl)) serializable
                  (x :: l')) as H.
    destruct (forallb serializable (x :: l')).
    + destruct H as [items ->]; [| eexists; reflexivity].
      eapply Forall_impl; [| exact IH]. intros a Ha. apply Ha.
    + destruct H as [c ->]; [| eexists; reflexivity].
      eapply Forall_impl; [| exact IH]. intros a Ha. apply Ha.
  - destruct d as [| kv d']; [eexists; reflexivity |].
    pose proof (sequence_map_total
                  (fun kv => match json_encode indent (S lvl) (snd kv) with
                             | Raise e => Raise e
                             | Ok s => Ok (json_string (fst kv) ++ ": " ++ s)
                             end)
                  (fun kv => serializable (snd kv)) (kv :: d')) as H.
    assert (HF : Forall (fun x : string * pyval =>
                   if serializable (snd x)
                   then exists s, match json_encode indent (S lvl) (snd x) with
                                  | Raise e => Raise e
                                  | Ok s0 => Ok (json_string (fst x) ++ ": " ++ s0)
                                  end = Ok s
                   else exists c, match json_encode indent (S lvl) (snd x) with
                                  | Raise e => Raise e
                                  | Ok s0 => Ok (json_string (fst x) ++ ": " ++ s0)
                                  end = Raise (not_serializable c)) (kv :: d')).
    { eapply Forall_impl; [| exact IH]. intros a Ha.
      specialize (Ha indent (S lvl)). destruct (serializable (snd a)).
      - destruct Ha as [s ->]. eexists. reflexivity.
      - destruct Ha as [c ->]. eexists. reflexivity. }
    specialize (H HF).
    destruct (forallb (fun kv0 => serializable (snd kv0)) (kv :: d')).
    + destruct H as [items ->]. eexists. reflexivity.
    + destruct H as [c ->]. eexists. reflexivity.
  - eexists. reflexivity.
Qed.

Lemma json_dumps_ok (indent : option nat) (v : pyval) :
  serializable v = true -> exists s, json_dumps indent v = Ok s.
Proof.
  intros H. pose proof (json_encode_total v indent 0) as T.
  rewrite H in T. exact T.
Qed.

Lemma json_dumps_raises (indent : option nat) (v : pyval) :
  serializable v = false ->
  exists c, json_dumps indent v = Raise (not_serializable c).
Proof.
  intros H. pose proof (json_encode_total v indent 0) as T.
  rewrite H in T. exact T.
Qed.

(** Dictionary updates keep encodable dictionaries encodable. *)
Lemma dict_set_serializable (k : string) (v : pyval) (d : pydict) :
  serializable v = true -> all_serializable d = true ->
  all_serializable (dict_set k v d) = true.
Proof.
  intros Hv. unfold all_serializable.
  induction d as [| [k' v'] d IH]; simpl; intros Hd.
  - rewrite Hv. reflexivity.
  - apply andb_prop in Hd as [H1 H2].
    destruct (k =? k'); simpl.
    + rewrite Hv, H2. reflexivity.
    + rewrite H1. simpl. apply IH. exact H2.
Qed.

Lemma dict_get_serializable (k : string) (v : pyval) (d : pydict) :
  all_serializable d = true -> dict_get k d = Some v -> serializable v = true.
Proof.
  unfold all_serializable. induction d as [| [k' v'] d IH]; simpl; intros Hd Hg.
  - discriminate.
  - apply andb_prop in Hd as [H1 H2].
    destruct (k =? k'); [injection Hg as <-; exact H1 | apply IH; assumption].
Qed.

Lemma dict_update_serializable (d e : pydict) :
  all_serializable d = true -> all_serializable e = true ->
  all_serializable (dict_update d e) = true.
Proof.
  unfold dict_update. revert d.
  induction e as [| [k v] e IH]; simpl; intros d Hd He.
  - exact Hd.
  - unfold all_serializable in He. simpl in He.
    apply andb_prop in He as [H1 H2].
    apply IH; [apply dict_set_serializable; assumption | exact H2].
Qed.

Lemma opt_str_serializable (o : option string) : serializable (opt_str o) = true.
Proof. destruct o; reflexivity. Qed.

(** The dictionary [StructuredFormatter] builds is encodable when the
    attributes set on the record are. *)
Lemma structured_log_data_serializable (r : LogRecord) :
  all_serializable (extra r) = true ->
  all_serializable (structured_log_data r) = true.
Proof.
  intros Hx. unfold structured_log_data.
  match goal with
  | |- all_serializable (fold_left ?f _ ?d0) = true =>
      assert (H0 : all_serializable d0 = true)
  end.
  { destruct (exc_info r).
    - apply dict_set_serializable; [reflexivity |].
      unfold all_serializable. simpl. rewrite opt_str_serializable. reflexivity.
    - unfold all_serializable. simpl. rewrite opt_str_serializable. reflexivity. }
  revert H0 Hx.
  match goal with
  | |- all_serializable ?d0 = true -> _ => generalize d0
  end.
  generalize (extra r) as x.
  induction x as [| [k v] x IH]; simpl; intros d Hd Hx.
  - exact Hd.
  - unfold all_serializable in Hx. simpl in Hx.
    apply andb_prop in Hx as [H1 H2].
    apply IH; [| exact H2].
    destruct (negb _); [apply dict_set_serializable; assumption | exact Hd].
Qed.

(** The same for [InteractionFormatter], which in addition needs
    [interaction_data], when set, to be a mapping. *)
Lemma interaction_log_data_serializable (r : LogRecord) :
  all_serializable (extra r) = true ->
  (forall v, dict_get "interaction_data" (extra r) = Some v ->
             exists d, v = PDict d) ->
  exists d, interaction_log_data r = Ok d /\ all_serializable d = true.
Proof.
  intros Hx Hmap. unfold interaction_log_data.
  assert (Hg : forall k v, dict_get k (extra r) = Some v -> serializable v = true).
  { intros k v. apply dict_get_serializable. exact Hx. }
  assert (Hd : forall k dflt, serializable dflt = true ->
                 serializable (getattr_default r k dflt) = true).
  { intros k dflt Hdf. unfold getattr_default.
    destruct (dict_get k (extra r)) eqn:E; [eapply Hg; exact E | exact Hdf]. }
  match goal with
  | |- context [dict_update ?d0 _] => assert (H0 : all_serializable d0 = true)
  end.
  { unfold all_serializable. simpl.
    rewrite !Hd by reflexivity. reflexivity. }
  destruct (dict_get "interaction_data" (extra r)) as [v |] eqn:E.
  - destruct (Hmap v eq_refl) as [d ->].
    eexists. split; [reflexivity |].
    assert (H1 : all_serializable (dict_update
              [("timestamp", PStr (strftime_YmdHMS (created r)));
               ("session_id", getattr_default r "session_id" (PStr "unknown"));
               ("interaction_type", getattr_default r "interaction_type" (PStr "general"));
               ("user_id", getattr_default r "user_id" (PStr "anonymous"));
               ("message", PStr (getMessage r))] d) = true).
    { apply dict_update_serializable; [exact H0 |].
      apply (Hg _ _ E). }
    destruct (dict_get "duration" (extra r)) eqn:E1,
             (dict_get "agent_name" (extra r)) eqn:E2,
             (dict_get "tool_name" (extra r)) eqn:E3;
      repeat (apply dict_set_serializable; [eapply Hg; eassumption |]);
      exact H1.
  - eexists. split; [reflexivity |].
    destruct (dict_get "duration" (extra r)) eqn:E1,
             (dict_get "agent_name" (extra r)) eqn:E2,
             (dict_get "tool_name" (extra r)) eqn:E3;
      repeat (apply dict_set_serializable; [eapply Hg; eassumption |]);
      exact H0.
Qed.

(** C8, amended: a record all of whose attribute values are
    JSON-serializable is encoded by both encoders, whichever optional
    attributes are missing (the interaction encoder asks in addition
    that [interaction_data], when set, is a mapping); when a value an
    encoder copies into its output is not serializable, no placeholder
    is substituted: the encoder raises [TypeError], and the sink
    reports the failure on standard error and writes nothing. *)
Theorem C8_encoders_raise_on_unserializable :
  forall (r : LogRecord),
    (all_serializable (extra r) = true ->
       (exists s, StructuredFormatter_format r = Ok s)
       /\ ((forall v, dict_get "interaction_data" (extra r) = Some v ->
                      exists d, v = PDict d) ->
           exists s, InteractionFormatter_format r = Ok s))
    /\ (all_serializable (structured_log_data r) = false ->
          exists c, StructuredFormatter_format r = Raise (not_serializable c))
    /\ (forall d, interaction_log_data r = Ok d ->
          all_serializable d = false ->
          exists c, InteractionFormatter_format r = Raise (not_serializable c))
    /\ (forall (h : DateRotatingFileHandler) (o : os) (i : nat) (e : exn),
          stream h = Some i ->
          handler_format (fmt h) r = Raise e ->
          StreamHandler_emit r (h, o)
          = (Ok tt, (h, mkOS (fs o) (stderr o ++ ["--- Logging error ---"])%list
                             (now o)))).
Proof.
  intros r. repeat split.
  - unfold StructuredFormatter_format. apply json_dumps_ok.
    apply structured_log_data_serializable. exact H.
  - intros Hmap.
    destruct (interaction_log_data_serializable r H Hmap) as (d & Hd & Hs).
    unfold InteractionFormatter_format. rewrite Hd.
    apply json_dumps_ok. exact Hs.
  - intros H. unfold StructuredFormatter_format. apply json_dumps_raises. exact H.
  - intros d Hd Hs. unfold InteractionFormatter_format. rewrite Hd.
    apply json_dumps_raises. exact Hs.
  - intros h o i e Hst Hf. unfold StreamHandler_emit, bind, get. simpl.
    rewrite Hst, Hf. reflexivity.
Qed.

(** C8, as stated, fails on a record with an unserializable value:
    both encoders raise instead of substituting a placeholder, and a
    logging call with such a value in its metadata returns its
    identifier while the channel file stays empty and the failure goes
    to standard error. *)
Lemma C8_unserializable_value_drops_record :
  StructuredFormatter_format record_with_set
  = Raise (TypeError "Object of type set is not JSON serializable")
  /\ InteractionFormatter_format
       (set_attr "interaction_data" (PDict [("tags", PObject "set")])
                 record_with_set)
     = Raise (TypeError "Object of type set is not JSON serializable")
  /\ (let out := log_interaction logger_s1 "user_query" (Some "ping") None None
                   None (Some [("tags", PObject "set")]) None w_session1 in
      fst out = Ok (uuid_str 0)
      /\ read_text (fs (sys (snd out)))
                   ["logs"; "interactions"; "interactions_2025-01-14.log"]
         = Some ""
      /\ stderr (sys (snd out)) = ["--- Logging error ---"]).
Proof. vm_compute. repeat split. Qed.

(* ================================================================== *)
(** ** Lines of the encoded output *)

Lemma single_line_app (a b : string) :
  single_line (a ++ b) = single_line a && single_line b.
Proof.
  induction a as [| c a IH]; simpl; [reflexivity |].
  rewrite IH. rewrite andb_assoc. reflexivity.
Qed.

Lemma dict_set_nonempty (k : string) (v : pyval) (d : pydict) :
  dict_set k v d <> [].
Proof. destruct d as [| [k' v'] d]; simpl; [| destruct (k =? k')]; discriminate. Qed.

Lemma dict_update_nonempty (d e : pydict) : d <> [] -> dict_update d e <> [].
Proof.
  unfold dict_update. revert d. induction e as [| [k v] e IH]; simpl; intros d Hd.
  - exact Hd.
  - apply IH. apply dict_set_nonempty.
Qed.

Lemma interaction_log_data_nonempty (r : LogRecord) (d : pydict) :
  interaction_log_data r = Ok d -> d <> [].
Proof.
  unfold interaction_log_data.
  destruct (dict_get "interaction_data" (extra r)) as [[| | | | | e |] |];
    try discriminate;
    destruct (dict_get "duration" (extra r)),
             (dict_get "agent_name" (extra r)),
             (dict_get "tool_name" (extra r));
    intros H; injection H as <-;
    try apply dict_set_nonempty;
    try (apply dict_update_nonempty; discriminate);
    discriminate.
Qed.

(** With [indent=2] a non-empty dictionary is spread over several
    lines. *)
Lemma indented_dict_is_multiline (k : nat) (lvl : nat) (d : pydict) (s : string) :
  d <> [] -> json_encode (Some k) lvl (PDict d) = Ok s -> single_line s = false.
Proof.
  intros Hd. cbn [json_encode]. destruct d as [| kv d]; [contradiction |].
  destruct (sequence _) as [items |]; [| discriminate].
  intros H. injection H as <-. reflexivity.
Qed.

(** C9: whatever the record, the text [InteractionFormatter] returns
    is not a single line. *)
Theorem C9_interaction_encoder_is_multiline :
  forall (r : LogRecord),
    match InteractionFormatter_format r with
    | Ok s => single_line s = false
    | Raise _ => True
    end.
Proof.
  intros r. unfold InteractionFormatter_format.
  destruct (interaction_log_data r) as [d |] eqn:E; [| exact I].
  destruct (json_dumps (Some 2%nat) (PDict d)) as [s |] eqn:Ej; [| exact I].
  apply (indented_dict_is_multiline 2 0 d s);
    [eapply interaction_log_data_nonempty; exact E | exact Ej].
Qed.

(** The same at a concrete call: the text appended to the interactions
    file starts with an opening brace alone on its line, so the first
    line of the file is not a JSON document. *)
Example C9_interaction_file_first_line :
  let w := snd (log_interaction logger_s1 "user_query" (Some "ping") None None
                  None None None w_session1) in
  option_map (String.prefix ("{" ++ newline))
    (read_text (fs (sys w))
               ["logs"; "interactions"; "interactions_2025-01-14.log"])
  = Some true.
Proof. vm_compute. reflexivity. Qed.

(** The compact layout, by contrast, never breaks the line. *)

Lemma single_line_uint (d : Decimal.uint) :
  single_line (NilEmpty.string_of_uint d) = true.
Proof. induction d; simpl; auto. Qed.

Lemma single_line_str_of_Z (z : Z) : single_line (str_of_Z z) = true.
Proof.
  unfold str_of_Z, NilZero.string_of_int.
  destruct (Z.to_int z) as [d | d]; unfold NilZero.string_of_uint.
  - destruct d; try apply single_line_uint; reflexivity.
  - destruct d; simpl; try apply single_line_uint; reflexivity.
Qed.

Lemma single_line_escape_char (c : ascii) :
  single_line (json_escape_char c) = true.
Proof. destruct c as [[] [] [] [] [] [] [] []]; reflexivity. Qed.

Lemma single_line_json_string (s : string) : single_line (json_string s) = true.
Proof.
  unfold json_string. cbn [single_line]. rewrite single_line_app.
  assert (H : single_line (json_escape s) = true).
  { induction s as [| c s IH]; simpl; [reflexivity |].
    rewrite single_line_app, single_line_escape_char, IH. reflexivity. }
  rewrite H. reflexivity.
Qed.

Lemma single_line_join (items : list string) :
  Forall (fun s => single_line s = true) items ->
  single_line (join ", " items) = true.
Proof.
  induction 1 as [| s items Hs Hitems IH]; [reflexivity |].
  cbn [join]. destruct items as [| s' items']; [exact Hs |].
  rewrite !single_line_app, Hs. cbn [andb]. simpl single_line at 1.
  exact IH.
Qed.

Lemma sequence_map_ok {A B} (f : A -> result B) (l : list A) (items : list B) :
  sequence (map f l) = Ok items -> Forall2 (fun x s => f x = Ok s) l items.
Proof.
  revert items. induction l as [| x l IH]; simpl; intros items H.
  - injection H as <-. constructor.
  - destruct (f x) as [s |] eqn:E; [| discriminate].
    destruct (sequence (map f l)) as [rest |]; [| discriminate].
    injection H as <-. constructor; [exact E | apply IH; reflexivity].
Qed.

Lemma Forall2_Forall_image {A B} (P : A -> B -> Prop) (Q : B -> Prop)
  (l : list A) (items : list B) :
  Forall2 P l items -> Forall (fun x => forall s, P x s -> Q s) l ->
  Forall Q items.
Proof.
  induction 1 as [| x s l items Hx _ IH]; intros HF; constructor.
  - inversion HF; subst. eauto.
  - apply IH. inversion HF; subst. assumption.
Qed.

Lemma single_line_compact_layout (opening closing : string) (lvl : nat)
  (items : list string) :
  single_line opening = true -> single_line closing = true ->
  Forall (fun s => single_line s = true) items ->
  single_line (layout opening closing None lvl items) = true.
Proof.
  intros Ho Hc Hi. unfold layout, item_open, item_sep, item_close.
  rewrite !single_line_app, Ho, Hc, single_line_join by exact Hi. reflexivity.
Qed.

Lemma compact_json_single_line (v : pyval) :
  forall (lvl : nat) (s : string),
    json_encode None lvl v = Ok s -> single_line s = true.
Proof.
  induction v as [| b | z | t | l IH | d IH | c] using pyval_ind';
    intros lvl s; cbn [json_encode].
  - intros H. injection H as <-. reflexivity.
  - destruct b; intros H; injection H as <-; reflexivity.
  - intros H. injection H as <-. apply single_line_str_of_Z.
  - intros H. injection H as <-. apply single_line_json_string.
  - destruct l as [| x l']; [intros H; injection H as <-; reflexivity |].
    destruct (sequence _) as [items |] eqn:E; [| discriminate].
    intros H. injection H as <-.
    apply single_line_compact_layout; try reflexivity.
    apply sequence_map_ok in E.
    eapply Forall2_Forall_image; [exact E |].
    eapply Forall_impl; [| exact IH]. intros a Ha t Ht. eapply Ha. exact Ht.
  - destruct d as [| kv d']; [intros H; injection H as <-; reflexivity |].
    destruct (sequence _) as [items |] eqn:E; [| discriminate].
    intros H. injection H as <-.
    apply single_line_compact_layout; try reflexivity.
    apply sequence_map_ok in E.
    eapply Forall2_Forall_image; [exact E |].
    eapply Forall_impl; [| exact IH]. intros a Ha t Ht. cbn beta in Ht.
    destruct (json_encode None (S lvl) (snd a)) as [u |] eqn:Eu; [| discriminate].
    injection Ht as <-.
    change (single_line (json_string (fst a) ++ ": " ++ u) = true).
    rewrite !single_line_app, single_line_json_string. simpl.
    eapply Ha. exact Eu.
  - discriminate.
Qed.

(** Every text [StructuredFormatter] returns is a single line. *)
Lemma structured_encoder_single_line (r : LogRecord) (s : string) :
  StructuredFormatter_format r = Ok s -> single_line s = true.
Proof. apply compact_json_single_line. Qed.

(* ================================================================== *)
(** ** The file system under the sink's operations *)

(* ---------------- paths ---------------- *)

Lemma path_eqb_spec (p q : path) : reflect (p = q) (path_eqb p q).
Proof.
  revert q. induction p as [| a p IH]; intros [| b q]; simpl;
    try (constructor; congruence).
  destruct (String.eqb_spec a b) as [-> | Hab]; simpl.
  - destruct (IH q) as [-> | Hpq]; constructor; congruence.
  - constructor. congruence.
Qed.

Lemma path_eqb_refl (p : path) : path_eqb p p = true.
Proof. destruct (path_eqb_spec p p); congruence. Qed.

Lemma path_parent_join (p : path) (name : string) :
  path_parent (path_join p name) = p.
Proof. unfold path_parent, path_join. apply removelast_last. Qed.

Lemma path_name_join (p : path) (name : string) :
  path_name (path_join p name) = name.
Proof. unfold path_name, path_join. apply last_last. Qed.

Lemma dated_filename_parent (base : path) (d : date) :
  path_parent (dated_filename base d) = path_parent base.
Proof. unfold dated_filename. apply path_parent_join. Qed.

(* ---------------- association lists ---------------- *)

Lemma assoc_path_app {A} (p : path) (l l' : list (path * A)) :
  assoc_path p (l ++ l') =
  match assoc_path p l with
  | Some a => Some a
  | None => assoc_path p l'
  end.
Proof.
  induction l as [| [q a] l IH]; simpl; [reflexivity |].
  destruct (path_eqb p q); [reflexivity | exact IH].
Qed.

Lemma assoc_path_In {A} (p : path) (a : A) (l : list (path * A)) :
  assoc_path p l = Some a -> In (p, a) l.
Proof.
  induction l as [| [q b] l IH]; simpl; [discriminate |].
  destruct (path_eqb_spec p q) as [-> | _].
  - intros H. injection H as <-. left. reflexivity.
  - intros H. right. apply IH. exact H.
Qed.

Lemma assoc_path_None {A} (p : path) (l : list (path * A)) :
  assoc_path p l = None <-> ~ In p (map fst l).
Proof.
  induction l as [| [q b] l IH]; simpl.
  - split; [intros _ [] | reflexivity].
  - destruct (path_eqb_spec p q) as [-> | Hne].
    + split; [discriminate | intros H; exfalso; apply H; left; reflexivity].
    + rewrite IH. split.
      * intros H [E | Hin]; [congruence | contradiction].
      * intros H Hin. apply H. right. exact Hin.
Qed.

Lemma In_assoc_path {A} (p : path) (a : A) (l : list (path * A)) :
  NoDup (map fst l) -> In (p, a) l -> assoc_path p l = Some a.
Proof.
  induction l as [| [q b] l IH]; simpl; intros Hnd Hin; [contradiction |].
  inversion Hnd as [| ? ? Hq Hnd']; subst.
  destruct (path_eqb_spec p q) as [-> | Hne].
  - destruct Hin as [E | Hin]; [congruence |].
    exfalso. apply Hq. change q with (fst (q, a)). apply in_map. exact Hin.
  - destruct Hin as [E | Hin]; [congruence | apply IH; assumption].
Qed.

(** Looking a path up after keeping the entries whose path passes a
    test. *)
Lemma assoc_path_filter {A} (g : path -> bool) (p : path) (l : list (path * A)) :
  assoc_path p (filter (fun e => g (fst e)) l) =
  if g p then assoc_path p l else None.
Proof.
  induction l as [| [q a] l IH]; simpl.
  - destruct (g p); reflexivity.
  - destruct (g q) eqn:Eq; simpl.
    + destruct (path_eqb_spec p q) as [-> | Hne].
      * rewrite Eq. reflexivity.
      * exact IH.
    + destruct (path_eqb_spec p q) as [-> | Hne].
      * rewrite IH, Eq. reflexivity.
      * exact IH.
Qed.

Lemma remove_entry_filter {A} (p : path) (l : list (path * A)) :
  NoDup (map fst l) ->
  remove_entry p l = filter (fun e => negb (path_eqb p (fst e))) l.
Proof.
  induction l as [| [q a] l IH]; simpl; intros Hnd; [reflexivity |].
  inversion Hnd as [| ? ? Hq Hnd']; subst.
  destruct (path_eqb_spec p q) as [-> | Hne]; simpl.
  - symmetry. apply forallb_filter_id. apply forallb_forall.
    intros [q' a'] Hin. simpl.
    destruct (path_eqb_spec q q') as [-> | _]; [| reflexivity].
    exfalso. apply Hq. change q' with (fst (q', a')). apply in_map. exact Hin.
  - f_equal. apply IH. exact Hnd'.
Qed.

Lemma NoDup_map_filter {A B} (g : A -> B) (t : A -> bool) (l : list A) :
  NoDup (map g l) -> NoDup (map g (filter t l)).
Proof.
  induction l as [| x l IH]; simpl; intros Hnd; [constructor |].
  inversion Hnd as [| ? ? Hx Hnd']; subst.
  destruct (t x); simpl; [| apply IH; exact Hnd'].
  constructor; [| apply IH; exact Hnd'].
  intros Hin. apply Hx. apply in_map_iff in Hin as (y & Ey & Hy).
  apply filter_In in Hy as [Hy _]. rewrite <- Ey. apply in_map. exact Hy.
Qed.

Lemma Forall_filter {A} (P : A -> Prop) (t : A -> bool) (l : list A) :
  Forall P l -> Forall P (filter t l).
Proof.
  intros H. apply Forall_forall. intros x Hx.
  apply filter_In in Hx as [Hx _]. revert x Hx. apply Forall_forall. exact H.
Qed.

(* ---------------- inode table ---------------- *)

Lemma nth_error_update_nth {A} (i j : nat) (g : A -> A) (l : list A) :
  nth_error (update_nth i g l) j =
  if Nat.eqb i j then option_map g (nth_error l j) else nth_error l j.
Proof.
  revert i j. induction l as [| x l IH]; intros i j; simpl.
  - destruct i, j; simpl; try reflexivity; destruct (Nat.eqb _ _); reflexivity.
  - destruct i as [| i], j as [| j]; simpl; try reflexivity. apply IH.
Qed.

Lemma length_update_nth {A} (i : nat) (g : A -> A) (l : list A) :
  List.length (update_nth i g l) = List.length l.
Proof.
  revert i. induction l as [| x l IH]; intros [| i]; simpl; auto.
Qed.

(* ---------------- sorting and slicing ---------------- *)

Lemma insert_by_perm {A} (key : A -> Z) (x : A) (l : list A) :
  Permutation (insert_by key x l) (x :: l).
Proof.
  induction l as [| y l IH]; simpl; [apply Permutation_refl |].
  destruct (key x <=? key y)%Z; [apply Permutation_refl |].
  eapply Permutation_trans; [apply perm_skip; exact IH | apply perm_swap].
Qed.

Lemma sort_by_perm {A} (key : A -> Z) (l : list A) :
  Permutation (sort_by key l) l.
Proof.
  induction l as [| x l IH]; simpl; [constructor |].
  eapply Permutation_trans; [apply insert_by_perm | apply perm_skip; exact IH].
Qed.

Lemma In_firstn {A} (n : nat) (x : A) (l : list A) :
  In x (firstn n l) -> In x l.
Proof.
  intros H. rewrite <- (firstn_skipn n l). apply in_or_app. left. exact H.
Qed.

Lemma NoDup_snoc {A} (l : list A) (a : A) :
  NoDup l -> ~ In a l -> NoDup (l ++ [a]).
Proof.
  intros Hl Ha. apply NoDup_app; [exact Hl | constructor; [intros [] | constructor] |].
  intros x Hx [<- | []]. contradiction.
Qed.

Lemma NoDup_map_inj {A B} (g : A -> B) (l : list A) (a b : A) :
  NoDup (map g l) -> In a l -> In b l -> g a = g b -> a = b.
Proof.
  induction l as [| x l IH]; simpl; intros Hnd Ha Hb E; [contradiction |].
  inversion Hnd as [| ? ? Hx Hnd']; subst.
  destruct Ha as [<- | Ha], Hb as [<- | Hb].
  - reflexivity.
  - exfalso. apply Hx. rewrite E. apply in_map. exact Hb.
  - exfalso. apply Hx. rewrite <- E. apply in_map. exact Ha.
  - apply IH; assumption.
Qed.

Lemma In_slice_to {A} (k : Z) (x : A) (l : list A) :
  In x (slice_to k l) -> In x l.
Proof.
  unfold slice_to. destruct (k <? 0)%Z; intros H; eapply In_firstn; exact H.
Qed.

Lemma In_fs_glob (f : filesystem) (d : path) (pat : string) (p : path) :
  In p (fs_glob f d pat) ->
  path_parent p = d /\ In p (map fst (entries f)).
Proof.
  unfold fs_glob. intros H. apply in_map_iff in H as (e & <- & He).
  apply filter_In in He as [He Ht]. apply andb_prop in Ht as [Hp _].
  split.
  - destruct (path_eqb_spec (path_parent (fst e)) d); [assumption | discriminate].
  - apply in_map. exact He.
Qed.

Lemma In_files_to_remove (h : DateRotatingFileHandler) (f : filesystem) (p : path) :
  In p (files_to_remove h f) ->
  path_parent p = path_parent (base_filename h) /\ In p (map fst (entries f)).
Proof.
  unfold files_to_remove. destruct (_ <=? _)%Z; [intros [] |].
  intros H. apply In_slice_to in H.
  apply (Permutation_in _ (sort_by_perm _ _)) in H.
  apply In_fs_glob in H. exact H.
Qed.

(* ---------------- unlinking ---------------- *)

Lemma filter_filter {A} (t u : A -> bool) (l : list A) :
  filter u (filter t l) = filter (fun x => t x && u x) l.
Proof.
  induction l as [| x l IH]; simpl; [reflexivity |].
  destruct (t x); simpl; [destruct (u x); simpl; congruence | exact IH].
Qed.

Lemma path_eqb_sym (p q : path) : path_eqb p q = path_eqb q p.
Proof.
  destruct (path_eqb_spec p q), (path_eqb_spec q p); congruence.
Qed.

(** Removing a list of files from a writable directory: what is left
    are the entries not on the list.  A file already gone is skipped. *)
Lemma unlink_all_exact (l : list path) :
  forall f : filesystem,
    NoDup (map fst (entries f)) ->
    (forall p, In p l -> lookup_dir f (path_parent p) = Some true) ->
    for_each l (fun p => try_except (fs_unlink p) (fun _ => ret tt)) f
    = (Ok tt, mkFS (dirs f)
                   (filter (fun e => negb (path_in (fst e) l)) (entries f))
                   (inodes f)).
Proof.
  induction l as [| p l IH]; intros f Hnd Hw.
  - simpl. unfold ret. f_equal. destruct f as [ds es ns]. simpl. f_equal.
    symmetry. apply forallb_filter_id. apply forallb_forall. reflexivity.
  - cbn [for_each]. unfold bind at 1. unfold try_except, fs_unlink.
    destruct (lookup_file f p) as [i |] eqn:E.
    + rewrite (Hw p (or_introl eq_refl)). cbn [ret].
      rewrite IH; cbn [dirs entries inodes].
      * f_equal. f_equal.
        rewrite (remove_entry_filter p (entries f) Hnd), filter_filter.
        apply filter_ext. intros e. unfold path_in. cbn [existsb].
        rewrite negb_orb, (path_eqb_sym p (fst e)). reflexivity.
      * rewrite (remove_entry_filter p (entries f) Hnd).
        apply NoDup_map_filter. exact Hnd.
      * intros q Hq. apply (Hw q). right. exact Hq.
    + cbn [ret]. rewrite IH; [| exact Hnd | intros q Hq; apply Hw; right; exact Hq].
      f_equal. f_equal. apply filter_ext_in. intros e He.
      unfold path_in. cbn [existsb]. rewrite negb_orb.
      destruct (path_eqb_spec (fst e) p) as [Ep | _]; [| reflexivity].
      exfalso. unfold lookup_file in E. apply assoc_path_None in E. apply E.
      rewrite <- Ep. apply in_map. exact He.
Qed.

(** Retention cleanup in a writable directory: exactly the selected
    files disappear; directories and file contents stay. *)
Lemma cleanup_exact (h : DateRotatingFileHandler) (f : filesystem) :
  NoDup (map fst (entries f)) ->
  lookup_dir f (path_parent (base_filename h)) = Some true ->
  _cleanup_old_files h f
  = (Ok tt, mkFS (dirs f)
                 (filter (fun e => negb (path_in (fst e) (files_to_remove h f)))
                         (entries f))
                 (inodes f)).
Proof.
  intros Hnd Hw. unfold _cleanup_old_files. apply unlink_all_exact; [exact Hnd |].
  intros p Hp. apply In_files_to_remove in Hp as [-> _]. exact Hw.
Qed.

Lemma cleanup_congr (h1 h2 : DateRotatingFileHandler) (f : filesystem) :
  base_filename h1 = base_filename h2 -> max_files h1 = max_files h2 ->
  _cleanup_old_files h1 f = _cleanup_old_files h2 f.
Proof.
  intros Hb Hm. unfold _cleanup_old_files, files_to_remove.
  rewrite Hb, Hm. reflexivity.
Qed.

(* ---------------- opening and writing ---------------- *)

Lemma fs_open_append_existing (t : Z) (p : path) (f : filesystem) (i : nat) :
  lookup_dir f p = None -> lookup_file f p = Some i ->
  fs_open_append t p f = (Ok i, f).
Proof. intros Hd Hf. unfold fs_open_append. rewrite Hd, Hf. reflexivity. Qed.

Lemma fs_open_append_new (t : Z) (p : path) (f : filesystem) :
  lookup_dir f p = None -> lookup_file f p = None ->
  lookup_dir f (path_parent p) = Some true ->
  fs_open_append t p f
  = (Ok (List.length (inodes f)),
     mkFS (dirs f) (entries f ++ [(p, List.length (inodes f))])%list
          (inodes f ++ [mkInode t ""])%list).
Proof. intros Hd Hf Hp. unfold fs_open_append. rewrite Hd, Hf, Hp. reflexivity. Qed.

(** Opening [p] for append and writing [text]: the file ends up with
    its former content followed by [text], and no other file
    changes. *)
Lemma open_write_spec (t : Z) (p : path) (text : string) (f : filesystem) :
  fs_wf f ->
  lookup_dir f p = None ->
  lookup_dir f (path_parent p) = Some true ->
  exists i f1,
    fs_open_append t p f = (Ok i, f1)
    /\ (forall j, lookup_file f p = Some j -> i = j /\ f1 = f)
    /\ let f' := snd (fs_write t i text f1) in
       lookup_file f' p = Some i
       /\ file_at f' p = Some (mkInode t (content f p ++ text))
       /\ (forall q, q <> p ->
             lookup_file f' q = lookup_file f q
             /\ file_at f' q = file_at f q)
       /\ dirs f' = dirs f
       /\ fs_wf f'.
Proof.
  intros (Hnd1 & Hnd2 & Hrange) Hd Hp.
  destruct (lookup_file f p) as [i |] eqn:E.
  - exists i, f. split; [apply fs_open_append_existing; assumption |].
    split; [intros j Hj; injection Hj as <-; split; reflexivity |].
    cbn zeta. unfold fs_write, modify. cbn [snd].
    unfold file_at, lookup_file, content, read_text, lookup_file in *.
    cbn [entries inodes dirs]. rewrite E.
    assert (Hi : (i < List.length (inodes f))%nat).
    { apply assoc_path_In in E.
      rewrite Forall_forall in Hrange. apply (Hrange _ E). }
    destruct (nth_error (inodes f) i) as [n |] eqn:En;
      [| apply nth_error_None in En; lia].
    repeat split.
    + rewrite nth_error_update_nth, Nat.eqb_refl, En. reflexivity.
    + destruct (assoc_path q (entries f)) as [j |] eqn:Ej; [| reflexivity].
      rewrite nth_error_update_nth.
      destruct (Nat.eqb_spec i j) as [<- | _]; [| reflexivity].
      exfalso. apply H.
      apply assoc_path_In in E, Ej.
      pose proof (NoDup_map_inj snd (entries f) _ _ Hnd2 Ej E eq_refl) as Hinj.
      congruence.
    + exact Hnd1.
    + exact Hnd2.
    + cbn [entries inodes]. rewrite length_update_nth. exact Hrange.
  - exists (List.length (inodes f)).
    eexists. split; [apply fs_open_append_new; assumption |].
    split; [discriminate |].
    cbn zeta. unfold fs_write, modify. cbn [snd].
    unfold file_at, lookup_file, content, read_text, lookup_file in *.
    cbn [entries inodes dirs]. rewrite E.
    assert (Hfresh : ~ In (List.length (inodes f)) (map snd (entries f))).
    { intros Hin. apply in_map_iff in Hin as (e & Ee & He).
      rewrite Forall_forall in Hrange. specialize (Hrange e He). lia. }
    repeat split.
    + rewrite assoc_path_app, E. simpl. rewrite path_eqb_refl. reflexivity.
    + rewrite assoc_path_app, E. simpl. rewrite path_eqb_refl.
      rewrite nth_error_update_nth, Nat.eqb_refl.
      rewrite nth_error_app2 by lia. rewrite Nat.sub_diag. reflexivity.
    + rewrite assoc_path_app. simpl.
      destruct (path_eqb_spec q p) as [-> | _]; [contradiction |].
      destruct (assoc_path q (entries f)); reflexivity.
    + rewrite assoc_path_app. simpl.
      destruct (path_eqb_spec q p) as [-> | _]; [contradiction |].
      destruct (assoc_path q (entries f)) as [j |] eqn:Ej; [| reflexivity].
      rewrite nth_error_update_nth.
      destruct (Nat.eqb_spec (List.length (inodes f)) j) as [Ejl | _].
      * exfalso. apply Hfresh. rewrite Ejl.
        apply assoc_path_In in Ej. change j with (snd (q, j)).
        apply in_map. exact Ej.
      * apply assoc_path_In in Ej.
        rewrite Forall_forall in Hrange. specialize (Hrange _ Ej). simpl in Hrange.
        rewrite nth_error_app1 by exact Hrange. reflexivity.
    + cbn [entries]. rewrite map_app. simpl. apply NoDup_snoc; [exact Hnd1 |].
      apply assoc_path_None. exact E.
    + cbn [entries]. rewrite map_app. simpl. apply NoDup_snoc; assumption.
    + cbn [entries inodes]. rewrite length_update_nth, length_app. simpl.
      apply Forall_app. split.
      * eapply Forall_impl; [| exact Hrange]. intros e He. simpl in *. lia.
      * constructor; [simpl; lia | constructor].
Qed.

Lemma date_eqb_spec (a b : date) : reflect (a = b) (date_eqb a b).
Proof.
  destruct a as [y m d], b as [y' m' d']. unfold date_eqb. simpl.
  destruct (Nat.eqb_spec y y'), (Nat.eqb_spec m m'), (Nat.eqb_spec d d');
    simpl; constructor; congruence.
Qed.

Lemma on_fs_run {A} (m : M filesystem A) (h : DateRotatingFileHandler) (o : os) :
  on_fs m (h, o) = (fst (m (fs o)), (h, set_fs o (snd (m (fs o))))).
Proof.
  unfold on_fs, lift_fs. simpl. destruct (m (fs o)). reflexivity.
Qed.

(** What retention leaves of a well-formed file system. *)
Lemma cleanup_keeps_wf (h : DateRotatingFileHandler) (f : filesystem) :
  fs_wf f -> lookup_dir f (path_parent (base_filename h)) = Some true ->
  let f' := snd (_cleanup_old_files h f) in
  fs_wf f' /\ dirs f' = dirs f /\ inodes f' = inodes f
  /\ forall q, lookup_file f' q
               = if path_in q (files_to_remove h f) then None else lookup_file f q.
Proof.
  intros (Hnd1 & Hnd2 & Hr) Hw. cbn zeta.
  rewrite (cleanup_exact h f Hnd1 Hw). cbn [snd].
  split; [| split; [reflexivity | split; [reflexivity |]]].
  - unfold fs_wf. cbn [entries inodes].
    split; [apply NoDup_map_filter; exact Hnd1 |].
    split; [apply NoDup_map_filter; exact Hnd2 | apply Forall_filter; exact Hr].
  - intros q. unfold lookup_file. cbn [entries].
    rewrite (assoc_path_filter (fun p => negb (path_in p (files_to_remove h f)))).
    destruct (path_in q (files_to_remove h f)); reflexivity.
Qed.

(** The file system a [FileHandler.emit] with a closed stream leaves,
    and the one a full [emit] leaves. *)
Lemma FileHandler_emit_spec (h : DateRotatingFileHandler) (o : os)
  (record : LogRecord) (text : string) :
  fs_wf (fs o) ->
  (forall j, stream h = Some j -> lookup_file (fs o) (baseFilename h) = Some j) ->
  lookup_dir (fs o) (baseFilename h) = None ->
  lookup_dir (fs o) (path_parent (baseFilename h)) = Some true ->
  handler_format (fmt h) record = Ok text ->
  exists i f',
    FileHandler_emit record (h, o) = (Ok tt, (set_stream (Some i) h, set_fs o f'))
    /\ (forall j, stream h = Some j -> i = j)
    /\ lookup_file f' (baseFilename h) = Some i
    /\ file_at f' (baseFilename h)
       = Some (mkInode (epoch (now o))
                       (content (fs o) (baseFilename h) ++ text ++ newline))
    /\ (forall q, q <> baseFilename h ->
          lookup_file f' q = lookup_file (fs o) q
          /\ file_at f' q = file_at (fs o) q)
    /\ dirs f' = dirs (fs o)
    /\ fs_wf f'.
Proof.
  intros Hwf Hst Hnd Hw Hfmt.
  destruct (open_write_spec (epoch (now o)) (baseFilename h) (text ++ newline)
              (fs o) Hwf Hnd Hw)
    as (i & f1 & Hopen & Hsame & Hlook & Hread & Hother & Hdirs & Hwf').
  exists i, (snd (fs_write (epoch (now o)) i (text ++ newline) f1)).
  split; [| split; [| split; [exact Hlook | split; [exact Hread |
             split; [exact Hother | split; [exact Hdirs | exact Hwf']]]]]].
  - unfold FileHandler_emit, bind at 1, get. cbn [fst snd].
    destruct (stream h) as [j |] eqn:Es.
    + destruct (Hsame j (Hst j eq_refl)) as [-> ->].
      unfold bind, ret, StreamHandler_emit, bind, get. cbn [fst snd].
      rewrite Es, Hfmt, on_fs_run. cbn [fst snd fs_write modify].
      replace (set_stream (Some j) h) with h; [reflexivity |].
      destruct h; simpl in *; subst; reflexivity.
    + unfold bind at 1. unfold bind at 1. rewrite on_fs_run, Hopen. cbn [fst snd].
      unfold update_self, modify. cbn [fst snd].
      unfold StreamHandler_emit, bind, get. cbn [fst snd stream set_stream fmt].
      rewrite Hfmt, on_fs_run. reflexivity.
  - intros j Hj. destruct (Hsame j (Hst j Hj)) as [-> _]. reflexivity.
Qed.

Lemma emit_spec (h : DateRotatingFileHandler) (o : os) (record : LogRecord)
  (text : string) :
  fs_wf (fs o) -> sink_ok h (fs o) -> dir_ready h (fs o) ->
  handler_format (fmt h) record = Ok text ->
  let d := today (now o) in
  let p := dated_filename (base_filename h) d in
  let rotated := negb (date_eqb d (current_date h)) in
  let f_c := if rotated then snd (_cleanup_old_files h (fs o)) else fs o in
  exists i f',
    emit record (h, o)
    = (Ok tt, (mkHandler (base_filename h) (max_files h) d p (Some i)
                         (level h) (fmt h),
               set_fs o f'))
    /\ (rotated = false -> forall j, stream h = Some j -> i = j)
    /\ lookup_file f' p = Some i
    /\ file_at f' p
       = Some (mkInode (epoch (now o)) (content f_c p ++ text ++ newline))
    /\ (forall q, q <> p ->
          lookup_file f' q = lookup_file f_c q
          /\ file_at f' q = file_at f_c q)
    /\ dirs f' = dirs (fs o)
    /\ fs_wf f'.
Proof.
  intros Hwf [Hbase Hstream] [Hw Hnodir] Hfmt d p rotated f_c.
  subst rotated f_c.
  unfold emit, bind at 1, get. cbn [fst snd]. fold d.
  destruct (date_eqb_spec d (current_date h)) as [Ed | Ed]; cbn [negb].
  - (* the day has not changed *)
    unfold bind at 1, ret.
    assert (Hp : baseFilename h = p).
    { rewrite Hbase. unfold _get_dated_filename, p. rewrite Ed. reflexivity. }
    destruct (FileHandler_emit_spec h o record text Hwf Hstream) as
      (i & f' & Hrun & Hsame & Hlook & Hread & Hother & Hdirs & Hwf');
      [rewrite Hp; apply Hnodir
      | rewrite Hp; unfold p; rewrite dated_filename_parent; exact Hw
      | exact Hfmt |].
    exists i, f'. rewrite Hrun, <- Hp.
    split; [| split; [intros _; exact Hsame | split; [exact Hlook |
      split; [exact Hread | split; [exact Hother |
      split; [exact Hdirs | exact Hwf']]]]]].
    f_equal. f_equal.
    destruct (stream h) eqn:Es; destruct h; simpl in *; subst; reflexivity.
  - (* a new day: close, switch, clean, then write *)
    pose proof (cleanup_keeps_wf h (fs o) Hwf Hw) as (Hwfc & Hdirsc & _ & _).
    set (h1 := mkHandler (base_filename h) (max_files h) d p None (level h) (fmt h)).
    set (f_c := snd (_cleanup_old_files h (fs o))) in *.
    destruct (FileHandler_emit_spec h1 (set_fs o f_c) record text) as
      (i & f' & Hrun & _ & Hlook & Hread & Hother & Hdirs & Hwf').
    + exact Hwfc.
    + discriminate.
    + cbn [baseFilename h1 fs set_fs]. unfold lookup_dir. rewrite Hdirsc.
      apply Hnodir.
    + cbn [baseFilename h1 fs set_fs]. unfold lookup_dir, p.
      rewrite Hdirsc, dated_filename_parent. exact Hw.
    + exact Hfmt.
    + exists i, f'.
      split; [| split; [discriminate | split; [exact Hlook |
        split; [exact Hread | split; [exact Hother |
        split; [rewrite Hdirs; exact Hdirsc | exact Hwf']]]]]].
      unfold bind at 1. unfold bind at 1. unfold close, update_self, modify, bind.
      cbn [fst snd]. unfold get. cbn [fst snd].
      rewrite on_fs_run. cbn [fst snd].
      change (set_stream None
                (set_baseFilename
                   (_get_dated_filename (set_current_date d (set_stream None h)))
                   (set_current_date d (set_stream None h)))) with h1.
      rewrite (cleanup_congr h1 h (fs o) eq_refl eq_refl).
      rewrite cleanup_never_raises. fold f_c. rewrite Hrun. reflexivity.
Qed.




Lemma path_in_spec (p : path) (l : list path) :
  path_in p l = true <-> In p l.
Proof.
  unfold path_in. rewrite existsb_exists. split.
  - intros (q & Hq & E). destruct (path_eqb_spec p q); [subst; exact Hq | discriminate].
  - intros H. exists p. split; [exact H | apply path_eqb_refl].
Qed.

(* ---------------- the order of removal ---------------- *)

Lemma insert_by_sorted {A} (key : A -> Z) (x : A) (l : list A) :
  StronglySorted (fun a b => (key a <= key b)%Z) l ->
  StronglySorted (fun a b => (key a <= key b)%Z) (insert_by key x l).
Proof.
  induction 1 as [| y l Hl IH Hy]; simpl.
  - constructor; constructor.
  - destruct (Z.leb_spec (key x) (key y)) as [Hxy | Hxy].
    + constructor; [constructor; assumption |].
      constructor; [exact Hxy |].
      eapply Forall_impl; [| exact Hy]. intros a Ha. simpl in *. lia.
    + constructor; [exact IH |].
      apply (Permutation_Forall (Permutation_sym (insert_by_perm key x l))).
      constructor; [lia | exact Hy].
Qed.

Lemma sort_by_sorted {A} (key : A -> Z) (l : list A) :
  StronglySorted (fun a b => (key a <= key b)%Z) (sort_by key l).
Proof.
  induction l as [| x l IH]; simpl; [constructor | apply insert_by_sorted, IH].
Qed.

Lemma StronglySorted_app_le {A} (R : A -> A -> Prop) (l1 l2 : list A) :
  StronglySorted R (l1 ++ l2) ->
  forall x y, In x l1 -> In y l2 -> R x y.
Proof.
  induction l1 as [| a l1 IH]; simpl; intros Hs x y Hx Hy; [contradiction |].
  inversion Hs as [| ? ? Hs' Ha]; subst.
  destruct Hx as [<- | Hx].
  - rewrite Forall_forall in Ha. apply Ha. apply in_or_app. right. exact Hy.
  - apply IH; assumption.
Qed.

Lemma fs_glob_NoDup (f : filesystem) (d : path) (pat : string) :
  NoDup (map fst (entries f)) -> NoDup (fs_glob f d pat).
Proof. intros H. unfold fs_glob. apply NoDup_map_filter. exact H. Qed.


(* ================================================================== *)
(** ** Dated file names *)








(* ================================================================== *)
(** ** Appending across a day boundary *)

Lemma In_fs_glob_iff (f : filesystem) (d : path) (pat : string) (q : path) :
  In q (fs_glob f d pat) <->
  lookup_file f q <> None /\ path_parent q = d
  /\ glob_match pat (path_name q) = true.
Proof.
  unfold fs_glob. rewrite in_map_iff. split.
  - intros (e & <- & He). apply filter_In in He as [He Ht].
    apply andb_prop in Ht as [Hp Hg]. split; [| split].
    + unfold lookup_file. rewrite assoc_path_None. intros H. apply H.
      apply in_map. exact He.
    + destruct (path_eqb_spec (path_parent (fst e)) d); [assumption | discriminate].
    + exact Hg.
  - intros (Hl & Hp & Hg). unfold lookup_file in Hl.
    destruct (assoc_path q (entries f)) as [i |] eqn:E; [| contradiction].
    exists (q, i). split; [reflexivity |]. apply filter_In.
    split; [apply assoc_path_In; exact E |]. simpl.
    rewrite Hg, Hp, path_eqb_refl. reflexivity.
Qed.

Lemma lookup_file_file_at (f : filesystem) (q : path) :
  fs_wf f -> (lookup_file f q <> None <-> file_at f q <> None).
Proof.
  intros (_ & _ & Hr). unfold file_at.
  destruct (lookup_file f q) as [i |] eqn:E; [| tauto].
  split; [| discriminate]. intros _.
  unfold lookup_file in E. apply assoc_path_In in E.
  rewrite Forall_forall in Hr. specialize (Hr _ E). simpl in Hr.
  intros Hn. apply nth_error_None in Hn. lia.
Qed.





Lemma fs_three_days_wf : fs_wf fs_three_days.
Proof.
  unfold fs_wf, fs_three_days. cbn [entries inodes map fst snd].
  repeat split.
  - repeat constructor; simpl; intuition discriminate.
  - repeat constructor; simpl; intuition discriminate.
  - repeat constructor; simpl; lia.
Qed.



(* ================================================================== *)
(** ** Retention *)

Lemma Permutation_filter_length {A} (t : A -> bool) (l l' : list A) :
  Permutation l l' -> List.length (filter t l) = List.length (filter t l').
Proof.
  induction 1 as [| x l l' _ IH | x y l | l l' l'' _ IH1 _ IH2]; simpl.
  - reflexivity.
  - destruct (t x); simpl; congruence.
  - destruct (t x), (t y); reflexivity.
  - congruence.
Qed.

Lemma filter_none {A} (t : A -> bool) (l : list A) :
  (forall x, In x l -> t x = false) -> filter t l = [].
Proof.
  induction l as [| x l IH]; simpl; intros H; [reflexivity |].
  rewrite (H x (or_introl eq_refl)). apply IH. intros y Hy. apply H. right. exact Hy.
Qed.

Lemma filter_all {A} (t : A -> bool) (l : list A) :
  (forall x, In x l -> t x = true) -> filter t l = l.
Proof.
  intros H. apply forallb_filter_id. apply forallb_forall. exact H.
Qed.

(** The dated files after retention are those not selected. *)
Lemma dated_files_after_cleanup (h : DateRotatingFileHandler) (f : filesystem) :
  fs_wf f -> lookup_dir f (path_parent (base_filename h)) = Some true ->
  dated_files h (snd (_cleanup_old_files h f))
  = filter (fun p => negb (path_in p (files_to_remove h f))) (dated_files h f).
Proof.
  intros (Hnd & _) Hw. rewrite (cleanup_exact h f Hnd Hw). cbn [snd].
  unfold dated_files, fs_glob. cbn [entries].
  generalize (entries f) as es. intros es.
  induction es as [| e es IH]; simpl; [reflexivity |].
  destruct (negb (path_in (fst e) (files_to_remove h f))) eqn:Ek; simpl.
  - destruct (path_eqb _ _ && glob_match _ _); simpl; [rewrite Ek |]; simpl;
      rewrite IH; reflexivity.
  - destruct (path_eqb _ _ && glob_match _ _); simpl; [rewrite Ek |]; simpl;
      exact IH.
Qed.

(** What retention does when it has something to do: with a positive
    [max_files = N] and more than [N] dated files in a writable
    directory, exactly [N] of them are left, they are among the former
    ones, and every file removed is no newer than every file kept. *)
Lemma cleanup_keeps_the_newest (h : DateRotatingFileHandler) (f : filesystem) :
  fs_wf f -> lookup_dir f (path_parent (base_filename h)) = Some true ->
  (0 < max_files h)%Z ->
  (max_files h < Z.of_nat (List.length (dated_files h f)))%Z ->
  let f' := snd (_cleanup_old_files h f) in
  Z.of_nat (List.length (dated_files h f')) = max_files h
  /\ (forall q, In q (dated_files h f') -> In q (dated_files h f))
  /\ (forall p q, In p (dated_files h f) -> ~ In p (dated_files h f') ->
                  In q (dated_files h f') ->
                  (st_mtime f p <= st_mtime f q)%Z).
Proof.
  intros Hwf Hw Hpos Hlen. cbn zeta.
  rewrite (dated_files_after_cleanup h f Hwf Hw).
  set (ms := dated_files h f) in *.
  set (sorted := sort_by (st_mtime f) ms).
  assert (Hperm : Permutation sorted ms) by apply sort_by_perm.
  assert (Hlen' : List.length sorted = List.length ms)
    by (apply Permutation_length; exact Hperm).
  set (k := Z.to_nat (Z.of_nat (List.length sorted) + - max_files h)).
  assert (Hrm : files_to_remove h f = firstn k sorted).
  { unfold files_to_remove. fold (dated_files h f). fold ms.
    destruct (Z.leb_spec (Z.of_nat (List.length ms)) (max_files h)); [lia |].
    unfold slice_to. destruct (Z.ltb_spec (- max_files h) 0); [| lia].
    reflexivity. }
  rewrite Hrm.
  assert (Hnds : NoDup sorted).
  { apply (Permutation_NoDup (Permutation_sym Hperm)).
    apply fs_glob_NoDup. exact (proj1 Hwf). }
  assert (Hsplit : (firstn k sorted ++ skipn k sorted)%list = sorted)
    by apply firstn_skipn.
  assert (Hdisj : forall x, In x (firstn k sorted) -> ~ In x (skipn k sorted)).
  { rewrite <- Hsplit in Hnds. intros x Hx Hx'.
    apply in_split in Hx' as (l1 & l2 & E). rewrite E, app_assoc in Hnds.
    apply NoDup_remove_2 in Hnds. apply Hnds.
    apply in_or_app. left. apply in_or_app. left. exact Hx. }
  assert (Hkept : filter (fun p => negb (path_in p (firstn k sorted))) sorted
                  = skipn k sorted).
  { transitivity (filter (fun p => negb (path_in p (firstn k sorted)))
                          (firstn k sorted ++ skipn k sorted)%list);
      [rewrite Hsplit; reflexivity |].
    rewrite filter_app.
    rewrite filter_none, filter_all; [reflexivity | |].
    - intros x Hx. apply negb_true_iff.
      destruct (path_in x (firstn k sorted)) eqn:E; [| reflexivity].
      apply path_in_spec in E. exfalso. exact (Hdisj x E Hx).
    - intros x Hx. apply negb_false_iff. apply path_in_spec. exact Hx. }
  assert (Hin : forall q,
             In q (filter (fun p => negb (path_in p (firstn k sorted))) ms)
             <-> In q (skipn k sorted)).
  { intros q. rewrite <- Hkept, !filter_In.
    split; intros [H1 H2]; split; try exact H2.
    - apply (Permutation_in _ (Permutation_sym Hperm)). exact H1.
    - apply (Permutation_in _ Hperm). exact H1. }
  split; [| split].
  - rewrite (Permutation_filter_length _ ms sorted (Permutation_sym Hperm)).
    rewrite Hkept, length_skipn. unfold k. lia.
  - intros q Hq. apply filter_In in Hq as [Hq _]. exact Hq.
  - intros p q Hp Hnp Hq. apply Hin in Hq.
    assert (Hpf : In p (firstn k sorted)).
    { apply (Permutation_in _ (Permutation_sym Hperm)) in Hp.
      rewrite <- Hsplit in Hp. apply in_app_or in Hp as [Hp | Hp]; [exact Hp |].
      exfalso. apply Hnp. apply Hin. exact Hp. }
    pose proof (sort_by_sorted (st_mtime f) ms) as Hs. fold sorted in Hs.
    rewrite <- Hsplit in Hs.
    exact (StronglySorted_app_le _ _ _ Hs p q Hpf Hq).
Qed.

(** C2: where the code departs from the claim.  On a rotation the
    cleanup runs while the file of the new day does not exist yet (the
    stream is reopened only by the write that follows), so with
    [max_files = N > 0] and at least [N] dated files present, a rotating
    append leaves [N + 1] dated files, not [N]. *)
Theorem C2_rotation_keeps_one_file_too_many :
  forall (h : DateRotatingFileHandler) (o : os) (record : LogRecord)
         (text : string),
    fs_wf (fs o) -> sink_ok h (fs o) -> dir_ready h (fs o) ->
    handler_format (fmt h) record = Ok text ->
    today (now o) <> current_date h ->
    (0 < max_files h)%Z ->
    (max_files h <= Z.of_nat (List.length (dated_files h (fs o))))%Z ->
    lookup_file (fs o) (dated_filename (base_filename h) (today (now o))) = None ->
    glob_match (path_stem (base_filename h) ++ "_*.log")
               (path_name (dated_filename (base_filename h) (today (now o))))
    = true ->
    exists h' f',
      emit record (h, o) = (Ok tt, (h', set_fs o f'))
      /\ Z.of_nat (List.length (dated_files h f')) = (max_files h + 1)%Z.
Proof.
  intros h o record text Hwf Hok Hdir Hfmt Hday Hpos Hlen Hnew Hmatch.
  set (p := dated_filename (base_filename h) (today (now o))) in *.
  destruct (emit_spec h o record text Hwf Hok Hdir Hfmt)
    as (i & f' & Hrun & _ & Hlook & _ & Hother & _ & Hwf').
  fold p in Hrun, Hlook, Hother.
  destruct (date_eqb_spec (today (now o)) (current_date h)) as [E | _];
    [contradiction |]. cbn [negb] in *.
  destruct Hdir as [Hw _].
  set (f_c := snd (_cleanup_old_files h (fs o))) in *.
  eexists. exists f'. split; [exact Hrun |].
  (* retention leaves exactly [max_files] dated files *)
  assert (Hc : Z.of_nat (List.length (dated_files h f_c)) = max_files h).
  { destruct (Z.eq_dec (max_files h) (Z.of_nat (List.length (dated_files h (fs o)))))
      as [Eq | Hne].
    - assert (Hnone : files_to_remove h (fs o) = []).
      { unfold files_to_remove. fold (dated_files h (fs o)).
        destruct (Z.leb_spec (Z.of_nat (List.length (dated_files h (fs o))))
                    (max_files h)); [reflexivity | lia]. }
      unfold f_c. rewrite (dated_files_after_cleanup h (fs o) Hwf Hw), Hnone.
      rewrite filter_all by reflexivity. lia.
    - apply (cleanup_keeps_the_newest h (fs o) Hwf Hw Hpos). lia. }
  (* the new file is not among them, and is the only addition *)
  pose proof (cleanup_keeps_wf h (fs o) Hwf Hw) as (Hwfc & _ & _ & Hlc).
  fold f_c in Hwfc, Hlc.
  assert (Hpc : ~ In p (dated_files h f_c)).
  { intros Hin. apply In_fs_glob_iff in Hin as (Hl & _). apply Hl.
    rewrite Hlc, Hnew. destruct (path_in p _); reflexivity. }
  assert (Hperm : Permutation (dated_files h f') (p :: dated_files h f_c)).
  { apply NoDup_Permutation.
    - apply fs_glob_NoDup. exact (proj1 Hwf').
    - constructor; [exact Hpc | apply fs_glob_NoDup; exact (proj1 Hwfc)].
    - intros q. unfold dated_files. rewrite In_fs_glob_iff. simpl.
      rewrite In_fs_glob_iff.
      destruct (path_eqb_spec q p) as [-> | Hq].
      + split; [intros _; left; reflexivity |]. intros _.
        split; [rewrite Hlook; discriminate |].
        split; [apply dated_filename_parent | exact Hmatch].
      + destruct (Hother q Hq) as [-> _]. split.
        * intros H. right. exact H.
        * intros [E | H]; [congruence | exact H]. }
  rewrite (Permutation_length Hperm). simpl. lia.
Qed.

Lemma C2_rotation_keeps_one_file_too_many_witness :
  exists h' f',
    emit (LogRecord_new (noon 4) "test" INFO "test message")
         (sink_keeping 2, mkOS fs_three_days [] (noon 4))
    = (Ok tt, (h', set_fs (mkOS fs_three_days [] (noon 4)) f'))
    /\ Z.of_nat (List.length (dated_files (sink_keeping 2) f')) = (2 + 1)%Z.
Proof.
  apply (C2_rotation_keeps_one_file_too_many (sink_keeping 2)
           (mkOS fs_three_days [] (noon 4))
           (LogRecord_new (noon 4) "test" INFO "test message") "test message").
  - exact fs_three_days_wf.
  - split; [reflexivity | intros i Hi; injection Hi as <-; reflexivity].
  - split; [reflexivity | intros d; reflexivity].
  - reflexivity.
  - discriminate.
  - reflexivity.
  - vm_compute. discriminate.
  - reflexivity.
  - reflexivity.
Defined.

(** The failing input of C2: one append a day on [N + 5] successive
    days, for [N] = 1, 2 and 3, leaves [N + 1] dated files; for
    [N = 1] they are the files of the last two days. *)
Example C2_appends_over_N_plus_5_days :
  map (fun n =>
         option_map
           (fun s : sink =>
              List.length (dated_files (fst s) (fs (snd s))))
           (appends_over_days (Z.of_nat n) (seq 1 (n + 5))))
      [1; 2; 3]
  = [Some 2; Some 3; Some 4]
  /\ option_map (fun s : sink => dated_files (fst s) (fs (snd s)))
                (appends_over_days 1 (seq 1 6))
     = Some [ ["logs"; "test_2025-01-05.log"]; ["logs"; "test_2025-01-06.log"] ].
Proof. vm_compute. split; reflexivity. Qed.

(** The constructor, by contrast, opens today's file before it cleans
    up, and so leaves exactly [max_files] files. *)
Example init_keeps_max_files :
  let out := DateRotatingFileHandler_init ["logs"; "test.log"] 2
               (mkOS fs_three_days [] (noon 4)) in
  option_map (fun h => dated_files h (fs (snd out)))
             (match fst out with Ok h => Some h | Raise _ => None end)
  = Some [ ["logs"; "test_2025-01-03.log"]; ["logs"; "test_2025-01-04.log"] ].
Proof. vm_compute. reflexivity. Qed.

(* ================================================================== *)
(** ** Set-up: a failing channel *)

Lemma bind_unit_ret {S} (m : M S unit) (s : S) : bind m (fun _ => ret tt) s = m s.
Proof. unfold bind, ret. destruct (m s) as [[[] | e] s']; reflexivity. Qed.

Lemma bind_assoc {S A B C} (m : M S A) (k : A -> M S B) (g : B -> M S C) (s : S) :
  bind (bind m k) g s = bind m (fun a => bind (k a) g) s.
Proof. unfold bind. destruct (m s) as [[a | e] s']; reflexivity. Qed.

Lemma bind_ext {S A B} (m : M S A) (k k' : A -> M S B) (s : S) :
  (forall a s', k a s' = k' a s') -> bind m k s = bind m k' s.
Proof. intros H. unfold bind. destruct (m s) as [[a | e] s']; [apply H | reflexivity]. Qed.

(** [setup_logging] is the root set-up followed by the channel
    set-ups in order. *)
Lemma setup_logging_steps (config : LoggingConfig) (w : world) :
  setup_logging config w
  = bind (setup_root config) (fun _ => run_setups (channel_setups config)) w.
Proof.
  unfold setup_logging, setup_root. cbv zeta.
  repeat (rewrite bind_assoc; apply bind_ext; intros ? ?).
  unfold run_setups, channel_setups. cbn [for_each snd].
  repeat (apply bind_ext; intros ? ?).
  symmetry. apply bind_unit_ret.
Qed.

Lemma assoc_string_set {A} (n k : string) (a : A) (l : list (string * A)) :
  assoc_string n (assoc_set k a l)
  = if String.eqb n k then Some a else assoc_string n l.
Proof.
  induction l as [| [k' a'] l IH]; simpl.
  - destruct (String.eqb n k); reflexivity.
  - destruct (String.eqb_spec k k') as [<- | Hk]; simpl.
    + destruct (String.eqb n k); reflexivity.
    + rewrite IH. destruct (String.eqb_spec n k) as [-> | Hn].
      * destruct (String.eqb_spec k k'); [contradiction | reflexivity].
      * reflexivity.
Qed.

(** [getLogger] hands out the logger of that name and leaves every
    other logger, the handlers and the surroundings alone. *)
Lemma getLogger_spec (name : string) (w : world) :
  exists w',
    getLogger name w = (Ok (logger_or_new w name), w')
    /\ find_logger w' name = Some (logger_or_new w name)
    /\ (forall n, n <> name -> find_logger w' n = find_logger w n)
    /\ sys w' = sys w /\ heap w' = heap w /\ root w' = root w.
Proof.
  unfold getLogger, logger_or_new.
  destruct (find_logger w name) as [lg |] eqn:E.
  - exists w. repeat split; assumption.
  - eexists. split; [reflexivity |]. unfold find_logger. simpl.
    split; [| split; [| repeat split]].
    + rewrite assoc_string_set, String.eqb_refl. reflexivity.
    + intros n Hn. rewrite assoc_string_set.
      destruct (String.eqb_spec n name); [contradiction | reflexivity].
Qed.

(** Changing an attribute of a logger never raises and touches that
    logger only. *)
Lemma update_logger_spec (name : string) (f : Logger -> Logger) (w : world) :
  exists w',
    update_logger name f w = (Ok tt, w')
    /\ find_logger w' name = Some (f (logger_or_new w name))
    /\ (forall n, n <> name -> find_logger w' n = find_logger w n)
    /\ sys w' = sys w /\ heap w' = heap w /\ root w' = root w.
Proof.
  unfold update_logger, bind.
  destruct (getLogger_spec name w) as (w1 & E & Hs & Ho & Hsys & Hh & Hr).
  rewrite E. unfold modify. eexists. split; [reflexivity |].
  unfold find_logger. simpl. split; [| split; [| repeat split; assumption]].
  - rewrite assoc_string_set, String.eqb_refl. reflexivity.
  - intros n Hn. rewrite assoc_string_set.
    destruct (String.eqb_spec n name); [contradiction |]. apply Ho, Hn.
Qed.

Lemma on_sys_run {A} (m : M os A) (w : world) :
  on_sys m w = (fst (m (sys w)), set_sys (snd (m (sys w))) w).
Proof. unfold on_sys. destruct (m (sys w)); reflexivity. Qed.

Lemma getattr_logging_state {S} (name : string) (s : S) :
  snd (@getattr_logging S name s) = s.
Proof. unfold getattr_logging. destruct (level_of_name name); reflexivity. Qed.

(** The common body of the channel set-ups: when it raises, no handler
    object has been created and none attached; in any case only the
    logger of the channel and the root are out of its reach. *)
Lemma setup_channel_spec (name : string) (level : M world Z) (file : path)
  (f : formatter) (config : LoggingConfig) (w w' : world) (r : result unit) :
  (forall s, snd (level s) = s) ->
  setup_channel name level file f config w = (r, w') ->
  (forall n, n <> name -> find_logger w' n = find_logger w n)
  /\ root w' = root w
  /\ (forall e, r = Raise e ->
        heap w' = heap w /\ attached w' name = attached w name).
Proof.
  intros Hl H. unfold setup_channel, bind in H.
  destruct (getLogger_spec name w) as (w1 & E1 & Hs1 & Ho1 & Hsys1 & Hh1 & Hr1).
  rewrite E1 in H.
  assert (Ha1 : attached w1 name = attached w name).
  { unfold attached. rewrite Hs1. unfold logger_or_new.
    destruct (find_logger w name); reflexivity. }
  specialize (Hl w1). destruct (level w1) as [[l | e0] w2]; simpl in Hl; subst w2.
  2:{ injection H as <- <-. split; [exact Ho1 | split; [exact Hr1 |]].
      intros e _. split; assumption. }
  destruct (update_logger_spec name (Logger_setLevel l) w1)
    as (w2 & E2 & Hs2 & Ho2 & Hsys2 & Hh2 & Hr2).
  rewrite E2 in H.
  destruct (update_logger_spec name (Logger_set_propagate false) w2)
    as (w3 & E3 & Hs3 & Ho3 & Hsys3 & Hh3 & Hr3).
  rewrite E3 in H.
  assert (Ha3 : attached w3 name = attached w name).
  { rewrite <- Ha1. unfold attached. rewrite Hs3, Hs1.
    unfold logger_or_new at 1. rewrite Hs2.
    unfold logger_or_new at 1. rewrite Hs1. reflexivity. }
  assert (Ho : forall n, n <> name -> find_logger w3 n = find_logger w n).
  { intros n Hn. rewrite Ho3, Ho2, Ho1 by exact Hn. reflexivity. }
  rewrite on_sys_run in H.
  destruct (DateRotatingFileHandler_init file (max_log_files config) (sys w3))
    as [[h | e0] o]; cbn [fst snd] in H.
  2:{ injection H as <- <-.
      split; [exact Ho | split; [simpl; congruence |]].
      intros e _. split; [simpl; congruence | exact Ha3]. }
  unfold alloc_handler in H.
  match type of H with
  | context [update_logger name ?g ?s] =>
      destruct (update_logger_spec name g s)
        as (w5 & E5 & Hs5 & Ho5 & Hsys5 & Hh5 & Hr5); rewrite E5 in H
  end.
  injection H as <- <-. split; [| split].
  - intros n Hn. rewrite Ho5 by exact Hn. apply Ho, Hn.
  - rewrite Hr5. simpl. congruence.
  - intros e He. discriminate He.
Qed.

(** Each channel set-up leaves the loggers of the other channels and
    the root alone; when it raises it has attached no handler. *)
Lemma channel_setup_spec (config : LoggingConfig) (name : string) (en : bool)
  (m : M world unit) (w : world) :
  In (name, (en, m)) (channel_setups config) ->
  (forall n, n <> name -> find_logger (snd (m w)) n = find_logger w n)
  /\ root (snd (m w)) = root w
  /\ (forall e, fst (m w) = Raise e ->
        heap (snd (m w)) = heap w /\ attached (snd (m w)) name = attached w name)
  /\ (en = false -> m w = (Ok tt, w)).
Proof.
  unfold channel_setups.
  intros [H | [H | [H | [H | [H | [H | []]]]]]]; injection H as <- <- <-;
    unfold _setup_interaction_logger, _setup_agent_logger,
      _setup_workflow_logger, _setup_tool_logger, _setup_performance_logger,
      _setup_security_logger;
    match goal with
    | |- context [negb ?b] => destruct b; cbn [negb]
    end;
    try (repeat split; solve [reflexivity | discriminate]);
    match goal with
    | |- context [setup_channel ?n ?l ?p ?f ?c ?s] =>
        destruct (setup_channel n l p f c s) as [r w1] eqn:E;
        apply setup_channel_spec in E;
          [| intros s0; first [apply getattr_logging_state | reflexivity]];
        destruct E as (Ho & Hr & Hf)
    end;
    (split; [exact Ho | split; [exact Hr | split; [exact Hf | discriminate]]]).
Qed.

Lemma channel_names_NoDup (config : LoggingConfig) :
  NoDup (map fst (channel_setups config)).
Proof.
  unfold channel_setups. cbn [map fst].
  repeat constructor; simpl; intuition discriminate.
Qed.

(** The set-ups of a part of the channels leave the loggers of the
    other channels alone. *)
Lemma run_setups_others (config : LoggingConfig)
  (l : list (string * (bool * M world unit))) (n : string) :
  incl l (channel_setups config) ->
  ~ In n (map fst l) ->
  preserves (fun w => find_logger w n) (run_setups l).
Proof.
  intros Hincl Hn. unfold run_setups. induction l as [| [name [en m]] l IH].
  - apply preserves_ret.
  - cbn [for_each snd]. apply preserves_bind.
    + intros w.
      destruct (channel_setup_spec config name en m w) as (Ho & _).
      { apply Hincl. left. reflexivity. }
      apply Ho. intros ->. apply Hn. left. reflexivity.
    + intros _. apply IH.
      * intros x Hx. apply Hincl. right. exact Hx.
      * intros Hx. apply Hn. right. exact Hx.
Qed.

(** The root set-up creates no named logger. *)
Lemma setup_root_loggerDict (config : LoggingConfig) :
  preserves loggerDict (setup_root config).
Proof.
  assert (Hfs : forall A (m : M os A), preserves loggerDict (on_sys m)).
  { intros A m w. rewrite on_sys_run. reflexivity. }
  assert (Hg : forall n, preserves loggerDict (@getattr_logging world n)).
  { intros n w. rewrite getattr_logging_state. reflexivity. }
  unfold setup_root. cbv zeta.
  repeat first
    [ apply preserves_bind; [| intros ?]
    | apply Hfs | apply Hg
    | unfold on_sys_fs; apply Hfs
    | apply preserves_modify; intros ?; reflexivity
    | intros ?; reflexivity ].
Qed.

Lemma run_setups_app (l1 l2 : list (string * (bool * M world unit))) (w : world) :
  run_setups (l1 ++ l2) w = bind (run_setups l1) (fun _ => run_setups l2) w.
Proof.
  unfold run_setups. revert w. induction l1 as [| x l1 IH]; intros w.
  - reflexivity.
  - cbn [app for_each]. rewrite bind_assoc. apply bind_ext. intros _ s. apply IH.
Qed.

(** C7, amended: the channels are set up one after the other with
    nothing to isolate them.  When the set-up of one channel raises,
    [setup_logging] raises the same exception to its caller at that
    point; the failing set-up has created and attached no handler; the
    loggers of the channels set up before it are as they were just
    before the failure; and the loggers of all the channels after it
    are as they were before [setup_logging] was called, so none of them
    has been initialised. *)
Theorem C7_channel_failure_aborts_setup :
  forall (config : LoggingConfig) (w w0 w1 w2 : world)
         (pre post : list (string * (bool * M world unit)))
         (name : string) (en : bool) (m : M world unit) (e : exn),
    channel_setups config = (pre ++ (name, (en, m)) :: post)%list ->
    setup_root config w = (Ok tt, w0) ->
    run_setups pre w0 = (Ok tt, w1) ->
    m w1 = (Raise e, w2) ->
    setup_logging config w = (Raise e, w2)
    /\ heap w2 = heap w1
    /\ attached w2 name = attached w name
    /\ (forall n, n <> name -> find_logger w2 n = find_logger w1 n)
    /\ (forall n, In n (map fst post) -> find_logger w2 n = find_logger w n).
Proof.
  intros config w w0 w1 w2 pre post name en m e Hc Hroot Hpre Hm.
  pose proof (channel_names_NoDup config) as Hnd.
  rewrite Hc, map_app in Hnd. cbn [map fst] in Hnd.
  assert (Hin : In (name, (en, m)) (channel_setups config)).
  { rewrite Hc. apply in_or_app. right. left. reflexivity. }
  assert (Hincl : incl pre (channel_setups config)).
  { rewrite Hc. intros x Hx. apply in_or_app. left. exact Hx. }
  assert (Hname : ~ In name (map fst pre)).
  { intros Hx. apply NoDup_remove_2 in Hnd. apply Hnd.
    apply in_or_app. left. exact Hx. }
  assert (Hpost : forall n, In n (map fst post) ->
                    n <> name /\ ~ In n (map fst pre)).
  { intros n Hn. split.
    - intros ->. apply NoDup_remove_2 in Hnd. apply Hnd.
      apply in_or_app. right. exact Hn.
    - intros Hx. revert Hnd Hn Hx. clear. induction (map fst pre) as [| a l IH].
      + intros _ _ [].
      + cbn [app]. intros Hnd Hn [-> | Hx].
        * apply NoDup_cons_iff in Hnd. apply (proj1 Hnd).
          apply in_or_app. right. right. exact Hn.
        * apply NoDup_cons_iff in Hnd. exact (IH (proj2 Hnd) Hn Hx). }
  assert (H0 : forall n, find_logger w0 n = find_logger w n).
  { intros n. unfold find_logger.
    pose proof (setup_root_loggerDict config w) as Hd.
    rewrite Hroot in Hd. simpl in Hd. rewrite Hd. reflexivity. }
  assert (H1 : forall n, ~ In n (map fst pre) -> find_logger w1 n = find_logger w n).
  { intros n Hn. rewrite <- H0.
    pose proof (run_setups_others config pre n Hincl Hn w0) as Hp.
    simpl in Hp. rewrite Hpre in Hp. exact Hp. }
  destruct (channel_setup_spec config name en m w1 Hin) as (Ho & _ & Hf & _).
  rewrite Hm in Ho, Hf. cbn [fst snd] in Ho, Hf.
  destruct (Hf e eq_refl) as (Hheap & Hatt).
  split; [| split; [| split; [| split]]].
  - rewrite setup_logging_steps. unfold bind at 1. rewrite Hroot.
    rewrite Hc, run_setups_app. unfold bind at 1. rewrite Hpre.
    unfold run_setups. cbn [for_each snd]. apply bind_raise. exact Hm.
  - exact Hheap.
  - rewrite Hatt. unfold attached. rewrite (H1 name Hname). reflexivity.
  - exact Ho.
  - intros n Hn. destruct (Hpost n Hn) as (Hne & Hnp).
    rewrite (Ho n Hne). apply H1, Hnp.
Qed.

Lemma C7_channel_failure_aborts_setup_witness :
  setup_logging default_config w_agents_readonly
  = (Raise (OSError EACCES), w_agents_failed)
  /\ heap w_agents_failed = heap w_before_agents
  /\ attached w_agents_failed "deer_flow.agents"
     = attached w_agents_readonly "deer_flow.agents"
  /\ (forall n, n <> "deer_flow.agents" ->
        find_logger w_agents_failed n = find_logger w_before_agents n)
  /\ (forall n,
        In n ["deer_flow.workflows"; "deer_flow.tools"; "deer_flow.performance";
              "deer_flow.security"] ->
        find_logger w_agents_failed n = find_logger w_agents_readonly n).
Proof.
  apply (C7_channel_failure_aborts_setup default_config w_agents_readonly
           (snd (setup_root default_config w_agents_readonly))
           w_before_agents w_agents_failed
           [("deer_flow.interactions",
             (true, _setup_interaction_logger default_config))]
           [("deer_flow.workflows", (true, _setup_workflow_logger default_config));
            ("deer_flow.tools", (true, _setup_tool_logger default_config));
            ("deer_flow.performance",
             (true, _setup_performance_logger default_config));
            ("deer_flow.security", (true, _setup_security_logger default_config))]
           "deer_flow.agents" true (_setup_agent_logger default_config)
           (OSError EACCES)).
  - reflexivity.
  - vm_compute. reflexivity.
  - vm_compute. reflexivity.
  - vm_compute. reflexivity.
Defined.

(** With [logs/agents] read-only the default set-up raises a
    permission error out of [setup_logging]; the interaction channel,
    set up before, has its sink, the agent logger is left without one,
    and the workflow, tool, performance and security loggers, which the
    specification expects to be initialised normally, do not even exist. *)
Lemma C7_failed_channel_stops_the_rest :
  fst (setup_logging default_config w_agents_readonly) = Raise (OSError EACCES)
  /\ attached w_agents_failed "deer_flow.interactions" = [2%nat]
  /\ find_logger w_agents_failed "deer_flow.agents"
     = Some (mkLogger INFO false [])
  /\ find_logger w_agents_failed "deer_flow.workflows" = None
  /\ find_logger w_agents_failed "deer_flow.tools" = None
  /\ find_logger w_agents_failed "deer_flow.performance" = None
  /\ find_logger w_agents_failed "deer_flow.security" = None
  /\ List.length (heap w_agents_failed) = 3%nat.
Proof. vm_compute. repeat split. Qed.

(* ================================================================== *)
(** ** Set-up: a disabled channel *)







(** A record below the levels of both root handlers is dropped
    without a trace. *)
Lemma root_handlers_skip (name : string) (record : LogRecord) (w : world)
  (a c : nat) (h : DateRotatingFileHandler) (lvl : Z) :
  handlers_for w name = [a; c] ->
  nth_error (heap w) a = Some (FileHandlerObj h) ->
  nth_error (heap w) c = Some (ConsoleHandlerObj lvl) ->
  (levelno record < level h)%Z -> (levelno record < lvl)%Z ->
  Logger_handle name record w = (Ok tt, w).
Proof.
  intros Hh Ha Hc Hl1 Hl2.
  unfold Logger_handle, callHandlers, bind at 1, get. rewrite Hh.
  cbn [for_each]. unfold bind, get, ret. rewrite Ha. cbn [handler_level].
  replace (levelno record >=? level h)%Z with false
    by (symmetry; rewrite Z.geb_leb; apply Z.leb_gt; lia).
  rewrite Hc. cbn [handler_level].
  replace (levelno record >=? lvl)%Z with false
    by (symmetry; rewrite Z.geb_leb; apply Z.leb_gt; lia).
  reflexivity.
Qed.





(* ================================================================== *)
(** ** The sink: retention, construction and dropped records *)

Lemma assoc_path_remove_other {A} (p q : path) (l : list (path * A)) :
  q <> p -> assoc_path q (remove_entry p l) = assoc_path q l.
Proof.
  intros Hne. induction l as [| [r a] l IH]; simpl; [reflexivity |].
  destruct (path_eqb_spec p r) as [<- | Hpr].
  - destruct (path_eqb_spec q p); [contradiction | reflexivity].
  - simpl. rewrite IH. reflexivity.
Qed.

Lemma remove_entry_incl {A} (p : path) (l : list (path * A)) :
  incl (remove_entry p l) l.
Proof.
  induction l as [| [r a] l IH]; simpl; [apply incl_refl |].
  destruct (path_eqb p r).
  - apply incl_tl, incl_refl.
  - intros x [<- | Hx]; [left; reflexivity | right; apply IH, Hx].
Qed.

(** One guarded [unlink]: it never raises; it changes nothing or
    removes the entry of that path. *)
Lemma guarded_unlink_spec (p : path) (f : filesystem) :
  exists f',
    try_except (fs_unlink p) (fun _ => ret tt) f = (Ok tt, f')
    /\ dirs f' = dirs f /\ inodes f' = inodes f
    /\ incl (entries f') (entries f)
    /\ (forall q, q <> p -> lookup_file f' q = lookup_file f q)
    /\ (lookup_dir f (path_parent p) <> Some true -> f' = f).
Proof.
  unfold try_except, fs_unlink.
  destruct (lookup_file f p) as [i |]; cbn.
  - destruct (lookup_dir f (path_parent p)) as [[|] |]; cbn;
      eexists; (split; [reflexivity |]); cbn.
    + repeat split; try reflexivity.
      * apply remove_entry_incl.
      * intros q Hq. unfold lookup_file. cbn. apply assoc_path_remove_other, Hq.
      * intros H. exfalso. apply H. reflexivity.
    + repeat split; try reflexivity. apply incl_refl.
    + repeat split; try reflexivity. apply incl_refl.
  - eexists. split; [reflexivity |]. repeat split; try reflexivity. apply incl_refl.
Qed.

Lemma guarded_unlinks_spec (l : list path) (f : filesystem) :
  exists f',
    for_each l (fun p => try_except (fs_unlink p) (fun _ => ret tt)) f = (Ok tt, f')
    /\ dirs f' = dirs f /\ inodes f' = inodes f
    /\ incl (entries f') (entries f)
    /\ (forall q, ~ In q l -> lookup_file f' q = lookup_file f q)
    /\ ((forall p, In p l -> lookup_dir f (path_parent p) <> Some true) -> f' = f).
Proof.
  revert f. induction l as [| p l IH]; intros f.
  - exists f. cbn. repeat split; try reflexivity. apply incl_refl.
  - destruct (guarded_unlink_spec p f) as (f1 & E1 & Hd1 & Hi1 & He1 & Ho1 & Hro1).
    destruct (IH f1) as (f2 & E2 & Hd2 & Hi2 & He2 & Ho2 & Hro2).
    exists f2. cbn [for_each]. unfold bind. rewrite E1, E2.
    split; [reflexivity |]. split; [congruence |]. split; [congruence |].
    split; [| split].
    + intros x Hx. apply He1, He2, Hx.
    + intros q Hq. rewrite Ho2, Ho1; [reflexivity | |].
      * intros ->. apply Hq. left. reflexivity.
      * intros Hin. apply Hq. right. exact Hin.
    + intros Hro.
      assert (f1 = f) as -> by (apply Hro1, Hro; left; reflexivity).
      apply Hro2. intros p0 Hp0. apply Hro. right. exact Hp0.
Qed.

(** The files selected for removal are among the files the retention
    pattern matches in the sink's directory. *)
Lemma files_to_remove_dated (h : DateRotatingFileHandler) (f : filesystem)
  (p : path) :
  In p (files_to_remove h f) -> In p (dated_files h f).
Proof.
  unfold files_to_remove, dated_files.
  destruct (_ <=? _)%Z; [intros [] |].
  intros H. apply In_slice_to in H.
  apply (Permutation_in _ (sort_by_perm _ _)) in H. exact H.
Qed.


(** X3: when the sink's directory does not allow removing entries (or
    does not exist), every [unlink] fails, the failures are swallowed,
    and [_cleanup_old_files] returns normally with the file system
    exactly as it was: the files over the limit stay. *)
Theorem cleanup_in_read_only_directory :
  forall (h : DateRotatingFileHandler) (f : filesystem),
    lookup_dir f (path_parent (base_filename h)) <> Some true ->
    _cleanup_old_files h f = (Ok tt, f).
Proof.
  intros h f Hro. unfold _cleanup_old_files.
  destruct (guarded_unlinks_spec (files_to_remove h f) f)
    as (f' & E & _ & _ & _ & _ & Hsame).
  rewrite E. f_equal. apply Hsame.
  intros p Hp. apply In_files_to_remove in Hp. destruct Hp as (-> & _).
  exact Hro.
Qed.

Lemma cleanup_in_read_only_directory_witness :
  _cleanup_old_files (sink_keeping 1) fs_three_days_readonly
  = (Ok tt, fs_three_days_readonly)
  /\ files_to_remove (sink_keeping 1) fs_three_days_readonly
     = [ ["logs"; "test_2025-01-01.log"]; ["logs"; "test_2025-01-02.log"] ].
Proof.
  split.
  - apply (cleanup_in_read_only_directory (sink_keeping 1) fs_three_days_readonly).
    vm_compute. discriminate.
  - vm_compute. reflexivity.
Defined.






(** X6: a record the sink's formatter cannot encode is dropped.  With
    the stream open and no day change, [emit] returns normally, leaves
    the sink and every file as they were, and only reports the error on
    standard error; nothing reaches the caller. *)
Theorem emit_drops_unformattable_record :
  forall (record : LogRecord) (h : DateRotatingFileHandler) (o : os)
         (i : nat) (e : exn),
    today (now o) = current_date h ->
    stream h = Some i ->
    handler_format (fmt h) record = Raise e ->
    emit record (h, o)
    = (Ok tt, (h, mkOS (fs o) (stderr o ++ ["--- Logging error ---"]) (now o))).
Proof.
  intros record h o i e Hday Hs Hfmt.
  unfold emit, bind at 1, get. cbn [fst snd].
  rewrite Hday. destruct (date_eqb_spec (current_date h) (current_date h)) as [_ | Hne];
    [| contradiction].
  cbn [negb]. unfold bind at 1, ret.
  unfold FileHandler_emit, bind at 1, get. cbn [fst snd]. rewrite Hs.
  unfold bind at 1, ret. unfold StreamHandler_emit, bind, get. cbn [fst snd].
  rewrite Hs, Hfmt. reflexivity.
Qed.

Lemma emit_drops_unformattable_record_witness :
  emit record_with_set
       (setFormatter StructuredFormatter (sink_keeping 30), os_evening)
  = (Ok tt, (setFormatter StructuredFormatter (sink_keeping 30),
             mkOS (fs os_evening)
                  (stderr os_evening ++ ["--- Logging error ---"])
                  (now os_evening))).
Proof.
  apply (emit_drops_unformattable_record record_with_set
           (setFormatter StructuredFormatter (sink_keeping 30)) os_evening 2%nat
           (not_serializable "set")).
  - reflexivity.
  - reflexivity.
  - vm_compute. reflexivity.
Defined.





(* ================================================================== *)
(** ** The formatters: what a line holds *)

Lemma dict_get_set (k k' : string) (v : pyval) (d : pydict) :
  dict_get k (dict_set k' v d)
  = if String.eqb k k' then Some v else dict_get k d.
Proof.
  induction d as [| [k0 v0] d IH]; simpl.
  - destruct (String.eqb k k'); reflexivity.
  - destruct (String.eqb_spec k' k0) as [<- | Hne]; simpl.
    + destruct (String.eqb k k'); reflexivity.
    + rewrite IH. destruct (String.eqb_spec k k') as [-> | _]; [| reflexivity].
      destruct (String.eqb_spec k' k0); [contradiction | reflexivity].
Qed.

Lemma dict_get_In (k : string) (v : pyval) (d : pydict) :
  dict_get k d = Some v -> In k (map fst d).
Proof.
  induction d as [| [k0 v0] d IH]; simpl; [discriminate |].
  destruct (String.eqb_spec k k0) as [-> | _]; [left; reflexivity |].
  intros H. right. apply IH, H.
Qed.

(** Copying the entries of a dictionary one by one, some of them
    skipped: an entry that is copied shows with its value, and a key
    that is skipped or missing keeps what the target had. *)
Lemma dict_get_copy (keep : string -> bool) (e : pydict) :
  NoDup (map fst e) ->
  forall (d : pydict) (k : string),
    dict_get k
      (fold_left (fun acc kv => if keep (fst kv)
                                then dict_set (fst kv) (snd kv) acc else acc) e d)
    = match dict_get k e with
      | Some v => if keep k then Some v else dict_get k d
      | None => dict_get k d
      end.
Proof.
  induction e as [| [k0 v0] e IH]; intros Hnd d k; simpl.
  - reflexivity.
  - apply NoDup_cons_iff in Hnd. destruct Hnd as (Hk0 & Hnd).
    rewrite (IH Hnd). cbn [fst snd].
    destruct (String.eqb_spec k k0) as [-> | Hne].
    + destruct (dict_get k0 e) as [v |] eqn:E.
      * exfalso. apply Hk0. exact (dict_get_In _ _ _ E).
      * destruct (keep k0); [| reflexivity].
        rewrite dict_get_set, String.eqb_refl. reflexivity.
    + assert (Hd : dict_get k (if keep k0 then dict_set k0 v0 d else d)
                   = dict_get k d).
      { destruct (keep k0); [| reflexivity]. rewrite dict_get_set.
        destruct (String.eqb_spec k k0); [contradiction | reflexivity]. }
      rewrite Hd. reflexivity.
Qed.

Lemma dict_get_update (d e : pydict) (k : string) :
  NoDup (map fst e) ->
  dict_get k (dict_update d e)
  = match dict_get k e with
    | Some v => Some v
    | None => dict_get k d
    end.
Proof.
  intros Hnd. unfold dict_update.
  rewrite (dict_get_copy (fun _ => true) e Hnd d k).
  destruct (dict_get k e); reflexivity.
Qed.

(** X7: [StructuredFormatter.format] either returns one line (line
    feeds and carriage returns inside the message or inside any value
    are escaped by the encoder) or raises the encoder's [TypeError] for
    a value that is not serializable; it does nothing else. *)
Theorem structured_format_one_line_or_type_error :
  forall (r : LogRecord),
    match StructuredFormatter_format r with
    | Ok s => single_line s = true
    | Raise e => exists c, e = not_serializable c
    end.
Proof.
  intros r. destruct (StructuredFormatter_format r) as [s | e] eqn:E.
  - exact (structured_encoder_single_line r s E).
  - unfold StructuredFormatter_format in E.
    destruct (serializable (PDict (structured_log_data r))) eqn:Es.
    + destruct (json_dumps_ok None _ Es) as (s & Hs). congruence.
    + destruct (json_dumps_raises None _ Es) as (c & Hc).
      exists c. congruence.
Qed.

(** X8: what [StructuredFormatter] copies from the record.  Every
    custom attribute whose name is not in the formatter's exclusion
    list appears in [log_data] under its own name with its value, also
    when that name is one of the formatter's own keys ([timestamp],
    [level], [logger], ...), whose value it then replaces; an attribute
    whose name is in the exclusion list is never copied. *)
Theorem structured_custom_attributes :
  forall (r : LogRecord) (k : string),
    NoDup (map fst (extra r)) ->
    (forall v, string_in k reserved_attrs = false ->
               dict_get k (extra r) = Some v ->
               dict_get k (structured_log_data r) = Some v)
    /\ (string_in k reserved_attrs = true -> k <> "module" ->
        dict_get k (structured_log_data r) = None).
Proof.
  intros r k Hnd. unfold structured_log_data. cbv zeta.
  rewrite (dict_get_copy (fun key => negb (string_in key reserved_attrs))
             (extra r) Hnd).
  split.
  - intros v Hres Hget. rewrite Hget, Hres. reflexivity.
  - intros Hres Hmod. rewrite Hres. cbn [negb].
    assert (Hbase : forall d,
              dict_get k d = None ->
              dict_get k (match exc_info r with
                          | Some tb => dict_set "exception" (PStr tb) d
                          | None => d
                          end) = None).
    { intros d Hd. destruct (exc_info r); [| exact Hd].
      rewrite dict_get_set, Hd.
      destruct (String.eqb_spec k "exception") as [-> | _]; [| reflexivity].
      discriminate Hres. }
    assert (Hk : dict_get k
                   (match exc_info r with
                    | Some tb =>
                        dict_set "exception" (PStr tb)
                          [("timestamp", PStr (isoformat (created r)));
                           ("level", PStr (levelname r));
                           ("logger", PStr (name r));
                           ("message", PStr (getMessage r));
                           ("module", PStr (module r));
                           ("function", opt_str (funcName r));
                           ("line", PInt (lineno r))]
                    | None =>
                        [("timestamp", PStr (isoformat (created r)));
                         ("level", PStr (levelname r));
                         ("logger", PStr (name r));
                         ("message", PStr (getMessage r));
                         ("module", PStr (module r));
                         ("function", opt_str (funcName r));
                         ("line", PInt (lineno r))]
                    end) = None).
    { apply Hbase. cbn [dict_get].
      repeat match goal with
             | |- context [String.eqb k ?s] =>
                 destruct (String.eqb_spec k s) as [-> | _];
                   [first [discriminate Hres | contradiction] |]
             end.
      reflexivity. }
    destruct (dict_get k (extra r)); exact Hk.
Qed.

Lemma structured_custom_attributes_witness :
  (forall v, string_in "level" reserved_attrs = false ->
             dict_get "level" (extra record_custom_level) = Some v ->
             dict_get "level" (structured_log_data record_custom_level) = Some v)
  /\ (string_in "level" reserved_attrs = true -> "level" <> "module" ->
      dict_get "level" (structured_log_data record_custom_level) = None).
Proof.
  apply (structured_custom_attributes record_custom_level "level").
  cbn. repeat constructor; simpl; intuition discriminate.
Defined.

(** The custom attribute [level] replaces the level name, and the
    custom attribute [name] is not copied. *)
Example structured_custom_level_line :
  dict_get "level" (structured_log_data record_custom_level) = Some (PStr "custom")
  /\ dict_get "logger" (structured_log_data record_custom_level)
     = Some (PStr "deer_flow.tools")
  /\ dict_get "name" (structured_log_data record_custom_level) = None.
Proof. vm_compute. repeat split. Qed.

(** X9: what [InteractionFormatter] does with [interaction_data].
    Every field of the mapping is copied into [log_data] under its own
    name and replaces the formatter's own field of that name
    ([timestamp], [session_id], ...); only the three keys the formatter
    sets afterwards are taken from the record's [duration],
    [agent_name] and [tool_name] attributes when these exist. *)
Theorem interaction_data_overrides_base_fields :
  forall (r : LogRecord) (d : pydict),
    dict_get "interaction_data" (extra r) = Some (PDict d) ->
    NoDup (map fst d) ->
    exists data,
      interaction_log_data r = Ok data
      /\ (forall k v, dict_get k d = Some v ->
            k <> "duration_ms" -> k <> "agent" -> k <> "tool" ->
            dict_get k data = Some v)
      /\ (forall v, dict_get "duration" (extra r) = Some v ->
            dict_get "duration_ms" data = Some v)
      /\ (forall v, dict_get "agent_name" (extra r) = Some v ->
            dict_get "agent" data = Some v)
      /\ (forall v, dict_get "tool_name" (extra r) = Some v ->
            dict_get "tool" data = Some v).
Proof.
  intros r d Hd Hnd. unfold interaction_log_data. rewrite Hd. cbv zeta.
  eexists. split; [reflexivity |].
  split; [| split; [| split]].
  - intros k v Hk H1 H2 H3.
    assert (Hu : forall base, dict_get k (dict_update base d) = Some v).
    { intros base. rewrite (dict_get_update base d k Hnd), Hk. reflexivity. }
    destruct (dict_get "duration" (extra r)), (dict_get "agent_name" (extra r)),
             (dict_get "tool_name" (extra r));
      rewrite ?dict_get_set;
      repeat match goal with
             | |- context [String.eqb k ?s] =>
                 destruct (String.eqb_spec k s); [contradiction |]
             end;
      apply Hu.
  - intros v Hv. rewrite Hv.
    destruct (dict_get "agent_name" (extra r)), (dict_get "tool_name" (extra r));
      rewrite ?dict_get_set; reflexivity.
  - intros v Hv. rewrite Hv.
    destruct (dict_get "duration" (extra r)), (dict_get "tool_name" (extra r));
      rewrite ?dict_get_set; reflexivity.
  - intros v Hv. rewrite Hv.
    destruct (dict_get "duration" (extra r)), (dict_get "agent_name" (extra r));
      rewrite ?dict_get_set; reflexivity.
Qed.

Lemma interaction_data_overrides_base_fields_witness :
  exists data,
    interaction_log_data record_user_query = Ok data
    /\ (forall k v,
          dict_get k
            (asdict_InteractionEvent
               (mkInteractionEvent (uuid_str 0) "s1" (isoformat t_jan14)
                  "user_query" (Some "ping") None None None None None
                  (Some 1500%Z) (Some []) None)) = Some v ->
          k <> "duration_ms" -> k <> "agent" -> k <> "tool" ->
          dict_get k data = Some v)
    /\ (forall v, dict_get "duration" (extra record_user_query) = Some v ->
          dict_get "duration_ms" data = Some v)
    /\ (forall v, dict_get "agent_name" (extra record_user_query) = Some v ->
          dict_get "agent" data = Some v)
    /\ (forall v, dict_get "tool_name" (extra record_user_query) = Some v ->
          dict_get "tool" data = Some v).
Proof.
  apply (interaction_data_overrides_base_fields record_user_query).
  - reflexivity.
  - cbn. repeat constructor; simpl; intuition discriminate.
Defined.

(** For the record of a user query the [timestamp] written is the
    event's ISO timestamp, not the formatter's own rendering of the
    record's creation time. *)
Example interaction_timestamp_is_the_events :
  option_map (dict_get "timestamp")
             (match interaction_log_data record_user_query with
              | Ok data => Some data
              | Raise _ => None
              end)
  = Some (Some (PStr (isoformat t_jan14)))
  /\ isoformat t_jan14 <> strftime_YmdHMS t_jan14.
Proof. split; [vm_compute; reflexivity | vm_compute; discriminate]. Qed.

(** X10: [AgentFormatter.format] on a record whose attributes are all
    serializable and whose [agent_data], if any, is a mapping: it
    returns one line; [llm_model] and [tokens_used] are taken from the
    record's attributes of these names, also over fields of the same
    name in [agent_data]; and without [agent_data] the [agent], [action]
    and [session_id] fields are the record's attributes or the defaults
    [unknown], [activity] and [unknown]. *)
Theorem agent_format_one_line :
  forall (r : LogRecord),
    all_serializable (extra r) = true ->
    (forall v, dict_get "agent_data" (extra r) = Some v -> exists d, v = PDict d) ->
    exists data s,
      agent_log_data r = Ok data
      /\ AgentFormatter_format r = Ok s
      /\ single_line s = true
      /\ (forall v, dict_get "llm_model" (extra r) = Some v ->
            dict_get "llm_model" data = Some v)
      /\ (forall v, dict_get "tokens_used" (extra r) = Some v ->
            dict_get "tokens_used" data = Some v)
      /\ (dict_get "agent_data" (extra r) = None ->
            dict_get "agent" data
            = Some (getattr_default r "agent_name" (PStr "unknown"))
            /\ dict_get "action" data
               = Some (getattr_default r "action" (PStr "activity"))
            /\ dict_get "session_id" data
               = Some (getattr_default r "session_id" (PStr "unknown"))).
Proof.
  intros r Hx Hmap.
  assert (Hg : forall k v, dict_get k (extra r) = Some v -> serializable v = true).
  { intros k v. apply dict_get_serializable. exact Hx. }
  assert (Hd : forall k dflt, serializable dflt = true ->
                 serializable (getattr_default r k dflt) = true).
  { intros k dflt Hdf. unfold getattr_default.
    destruct (dict_get k (extra r)) eqn:E; [eapply Hg; exact E | exact Hdf]. }
  set (base := [ ("timestamp", PStr (strftime_YmdHMS (created r)));
                 ("agent", getattr_default r "agent_name" (PStr "unknown"));
                 ("action", getattr_default r "action" (PStr "activity"));
                 ("session_id", getattr_default r "session_id" (PStr "unknown"));
                 ("message", PStr (getMessage r)) ]).
  assert (H0 : all_serializable base = true).
  { unfold all_serializable, base. simpl. rewrite !Hd by reflexivity. reflexivity. }
  assert (Hfin : forall upd,
            all_serializable upd = true ->
            agent_log_data r
            = Ok (match dict_get "tokens_used" (extra r) with
                  | Some v =>
                      dict_set "tokens_used" v
                        (match dict_get "llm_model" (extra r) with
                         | Some v0 => dict_set "llm_model" v0 upd
                         | None => upd
                         end)
                  | None =>
                      match dict_get "llm_model" (extra r) with
                      | Some v0 => dict_set "llm_model" v0 upd
                      | None => upd
                      end
                  end) ->
            exists data s,
              agent_log_data r = Ok data
              /\ AgentFormatter_format r = Ok s
              /\ single_line s = true
              /\ (forall v, dict_get "llm_model" (extra r) = Some v ->
                    dict_get "llm_model" data = Some v)
              /\ (forall v, dict_get "tokens_used" (extra r) = Some v ->
                    dict_get "tokens_used" data = Some v)
              /\ (forall k, k <> "llm_model" -> k <> "tokens_used" ->
                    dict_get k data = dict_get k upd)).
  { intros upd Hupd E.
    match type of E with _ = Ok ?d => set (data := d) in * end.
    assert (Hser : all_serializable data = true).
    { unfold data.
      destruct (dict_get "tokens_used" (extra r)) eqn:E1,
               (dict_get "llm_model" (extra r)) eqn:E2;
        repeat (apply dict_set_serializable; [eapply Hg; eassumption |]);
        exact Hupd. }
    destruct (json_dumps_ok None (PDict data) Hser) as (s & Hs).
    exists data, s. split; [exact E |].
    split; [unfold AgentFormatter_format; rewrite E; exact Hs |].
    split; [exact (compact_json_single_line _ _ _ Hs) |].
    split; [| split].
    - intros v Hv. unfold data. rewrite Hv.
      destruct (dict_get "tokens_used" (extra r));
        rewrite ?dict_get_set; reflexivity.
    - intros v Hv. unfold data. rewrite Hv.
      rewrite dict_get_set. reflexivity.
    - intros k H1 H2. unfold data.
      destruct (dict_get "tokens_used" (extra r)),
               (dict_get "llm_model" (extra r));
        rewrite ?dict_get_set;
        repeat match goal with
               | |- context [String.eqb k ?s] =>
                   destruct (String.eqb_spec k s); [contradiction |]
               end;
        reflexivity. }
  destruct (dict_get "agent_data" (extra r)) as [v |] eqn:E.
  - destruct (Hmap v eq_refl) as [d ->].
    destruct (Hfin (dict_update base d)) as (data & s & H1 & H2 & H3 & H4 & H5 & _).
    + apply dict_update_serializable; [exact H0 | exact (Hg _ _ E)].
    + unfold agent_log_data. rewrite E. reflexivity.
    + exists data, s. repeat split; try assumption; discriminate.
  - destruct (Hfin base H0) as (data & s & H1 & H2 & H3 & H4 & H5 & H6).
    + unfold agent_log_data. rewrite E. reflexivity.
    + exists data, s.
      split; [exact H1 |]. split; [exact H2 |]. split; [exact H3 |].
      split; [exact H4 |]. split; [exact H5 |].
      intros _. rewrite !H6 by discriminate. repeat split.
Qed.

Lemma agent_format_one_line_witness :
  exists data s,
    agent_log_data record_researcher = Ok data
    /\ AgentFormatter_format record_researcher = Ok s
    /\ single_line s = true
    /\ (forall v, dict_get "llm_model" (extra record_researcher) = Some v ->
          dict_get "llm_model" data = Some v)
    /\ (forall v, dict_get "tokens_used" (extra record_researcher) = Some v ->
          dict_get "tokens_used" data = Some v)
    /\ (dict_get "agent_data" (extra record_researcher) = None ->
          dict_get "agent" data
          = Some (getattr_default record_researcher "agent_name" (PStr "unknown"))
          /\ dict_get "action" data
             = Some (getattr_default record_researcher "action" (PStr "activity"))
          /\ dict_get "session_id" data
             = Some (getattr_default record_researcher "session_id"
                       (PStr "unknown"))).
Proof.
  apply (agent_format_one_line record_researcher).
  - vm_compute. reflexivity.
  - intros v H. vm_compute in H. injection H as <-. eexists. reflexivity.
Defined.

(* ================================================================== *)
(** ** Set-up: what a successful call leaves *)

Lemma on_sys_fs_unchanged {A} (m : M filesystem A) (w : world) (r : result A) :
  m (fs (sys w)) = (r, fs (sys w)) -> on_sys_fs m w = (r, w).
Proof.
  intros H. unfold on_sys_fs, on_sys, lift_fs. rewrite H.
  destruct w as [[f e n] hp rt ld u ob g]. reflexivity.
Qed.

(** X11: [setup_logging] creates the log directory with a plain
    [mkdir]: when neither the log directory nor its parent exists, it
    raises the [FileNotFoundError] of that first [mkdir] and has changed
    nothing: no directory, no logger, no handler. *)
Theorem setup_needs_parent_of_log_dir :
  forall (config : LoggingConfig) (w : world),
    lookup_dir (fs (sys w)) (log_dir config) = None ->
    lookup_file (fs (sys w)) (log_dir config) = None ->
    lookup_dir (fs (sys w)) (path_parent (log_dir config)) = None ->
    lookup_file (fs (sys w)) (path_parent (log_dir config)) = None ->
    setup_logging config w = (Raise (OSError ENOENT), w).
Proof.
  intros config w H1 H2 H3 H4. unfold setup_logging. cbv zeta.
  apply bind_raise. apply on_sys_fs_unchanged.
  unfold fs_mkdir. rewrite H1, H2, H3, H4. reflexivity.
Qed.

Lemma setup_needs_parent_of_log_dir_witness :
  setup_logging config_nested w_start = (Raise (OSError ENOENT), w_start).
Proof.
  apply (setup_needs_parent_of_log_dir config_nested w_start); reflexivity.
Defined.

Lemma keeps_ret {S A} (I : S -> Prop) (a : A) : keeps I (ret a).
Proof. intros s H. exact H. Qed.

Lemma keeps_bind {S A B} (I : S -> Prop) (m : M S A) (k : A -> M S B) :
  keeps I m -> (forall a, keeps I (k a)) -> keeps I (bind m k).
Proof.
  intros Hm Hk s Hs. unfold bind. specialize (Hm s Hs).
  destruct (m s) as [[a | e] s1]; simpl in *.
  - apply Hk. exact Hm.
  - exact Hm.
Qed.

Lemma keeps_modify {S} (I : S -> Prop) (f : S -> S) :
  (forall s, I s -> I (f s)) -> keeps I (modify f).
Proof. intros H s Hs. apply H, Hs. Qed.

Lemma dirs_kept_refl (f : filesystem) : dirs_kept f f.
Proof. intros p b H. exact H. Qed.

Lemma dirs_kept_trans (f g h : filesystem) :
  dirs_kept f g -> dirs_kept g h -> dirs_kept f h.
Proof. intros H1 H2 p b H. apply H2, H1, H. Qed.

Lemma dirs_kept_same (f g : filesystem) : dirs g = dirs f -> dirs_kept f g.
Proof. intros E p b. unfold lookup_dir. rewrite E. intros H. exact H. Qed.

Lemma mkdir_dirs_kept (exist_ok : bool) (p : path) (f : filesystem) :
  dirs_kept f (snd (fs_mkdir exist_ok p f))
  /\ entries (snd (fs_mkdir exist_ok p f)) = entries f
  /\ inodes (snd (fs_mkdir exist_ok p f)) = inodes f
  /\ (fst (fs_mkdir exist_ok p f) = Ok tt ->
      lookup_dir (snd (fs_mkdir exist_ok p f)) p <> None).
Proof.
  unfold fs_mkdir.
  destruct (lookup_dir f p) as [b |] eqn:Ed.
  - destruct exist_ok; cbn; repeat split; try apply dirs_kept_refl;
      try congruence; discriminate.
  - destruct (lookup_file f p); cbn.
    + repeat split; try apply dirs_kept_refl; discriminate.
    + destruct (lookup_dir f (path_parent p)) as [[|] |]; cbn.
      * repeat split.
        -- intros q b H. unfold lookup_dir in *. cbn.
           rewrite assoc_path_app, H. reflexivity.
        -- intros _. unfold lookup_dir in *. cbn.
           rewrite assoc_path_app, Ed. cbn. rewrite path_eqb_refl. discriminate.
      * repeat split; try apply dirs_kept_refl; discriminate.
      * destruct (lookup_file f (path_parent p)); cbn;
          repeat split; try apply dirs_kept_refl; discriminate.
Qed.

Lemma mkdir_from_dirs_kept (rest prefix : path) (f : filesystem) :
  dirs_kept f (snd (fs_mkdir_from prefix rest f)).
Proof.
  revert prefix f. induction rest as [| c rest IH]; intros prefix f.
  - apply dirs_kept_refl.
  - cbn [fs_mkdir_from]. unfold bind.
    pose proof (mkdir_dirs_kept true (path_join prefix c) f) as (Hk & _).
    destruct (fs_mkdir true (path_join prefix c) f) as [[[] | e] f1]; cbn in *.
    + eapply dirs_kept_trans; [exact Hk | apply IH].
    + exact Hk.
Qed.

Lemma open_dirs_kept (t : Z) (p : path) (f : filesystem) :
  dirs (snd (fs_open_append t p f)) = dirs f.
Proof.
  unfold fs_open_append.
  destruct (lookup_dir f p); [reflexivity |].
  destruct (lookup_file f p); [reflexivity |].
  destruct (lookup_dir f (path_parent p)) as [[|] |]; reflexivity.
Qed.

Lemma cleanup_dirs_kept (h : DateRotatingFileHandler) (f : filesystem) :
  dirs (snd (_cleanup_old_files h f)) = dirs f.
Proof.
  unfold _cleanup_old_files.
  destruct (guarded_unlinks_spec (files_to_remove h f) f) as (f' & E & Hd & _).
  rewrite E. exact Hd.
Qed.

Lemma keeps_on_fs {A} (I : sink -> Prop) (m : M filesystem A) :
  (forall h o, I (h, o) -> I (h, set_fs o (snd (m (fs o))))) ->
  keeps I (on_fs m).
Proof.
  intros H [h o] Hs. rewrite on_fs_run. cbn [snd]. apply H, Hs.
Qed.

(** What the constructor returns, whatever the file system: a sink
    with the given base filename and limit, the date of the day, level
    [NOTSET] and no formatter; the clock and the error stream are as
    before and no directory has gone. *)
Lemma init_fields (file : path) (max : Z) (o o' : os)
  (r : result DateRotatingFileHandler) :
  DateRotatingFileHandler_init file max o = (r, o') ->
  now o' = now o /\ stderr o' = stderr o /\ dirs_kept (fs o) (fs o')
  /\ (forall h, r = Ok h ->
        base_filename h = file /\ max_files h = max
        /\ current_date h = today (now o) /\ level h = NOTSET /\ fmt h = None).
Proof.
  unfold DateRotatingFileHandler_init.
  set (h0 := mkHandler file max (today (now o)) [] None NOTSET None).
  set (I := fun s : sink =>
              now (snd s) = now o /\ stderr (snd s) = stderr o
              /\ dirs_kept (fs o) (fs (snd s))
              /\ base_filename (fst s) = file /\ max_files (fst s) = max
              /\ current_date (fst s) = today (now o)
              /\ level (fst s) = NOTSET /\ fmt (fst s) = None).
  match goal with
  | |- context [match ?run (h0, o) with _ => _ end] =>
      assert (Hk : keeps I run)
  end.
  { assert (Hfs : forall A (m : M filesystem A),
              (forall f, dirs_kept f (snd (m f))) -> keeps I (on_fs m)).
    { intros A m Hm. apply keeps_on_fs. intros h1 o1 H. unfold I in *.
      cbn [fst snd set_fs now stderr fs] in *.
      destruct H as (H1 & H2 & H3 & H4).
      repeat split; try tauto.
      eapply dirs_kept_trans; [exact H3 | apply Hm]. }
    assert (Hup : forall g : DateRotatingFileHandler -> DateRotatingFileHandler,
              (forall h, base_filename (g h) = base_filename h
                         /\ max_files (g h) = max_files h
                         /\ current_date (g h) = current_date h
                         /\ level (g h) = level h /\ fmt (g h) = fmt h) ->
              keeps I (update_self g)).
    { intros g Hg. apply keeps_modify. intros [h1 o1] H. unfold I in *.
      cbn [fst snd] in *. destruct (Hg h1) as (E1 & E2 & E3 & E4 & E5).
      rewrite E1, E2, E3, E4, E5. exact H. }
    apply keeps_bind; [apply Hfs; intros f; apply mkdir_from_dirs_kept |].
    intros _. apply keeps_bind; [apply Hup; intros h; repeat split |].
    intros _. apply keeps_bind;
      [apply Hfs; intros f; apply dirs_kept_same, open_dirs_kept |].
    intros i. apply keeps_bind; [apply Hup; intros h; repeat split |].
    intros _. apply Hfs. intros f. apply dirs_kept_same, cleanup_dirs_kept. }
  specialize (Hk (h0, o)).
  assert (H0 : I (h0, o)).
  { unfold I. cbn. repeat split. apply dirs_kept_refl. }
  specialize (Hk H0).
  match goal with
  | |- context [match ?run (h0, o) with _ => _ end] =>
      destruct (run (h0, o)) as [[u | e] [h1 o1]]
  end; intros H; injection H as <- <-; unfold I in Hk; cbn [fst snd] in Hk;
    destruct Hk as (K1 & K2 & K3 & K4 & K5 & K6 & K7 & K8);
    (split; [exact K1 | split; [exact K2 | split; [exact K3 |]]]).
  - intros h Hh. injection Hh as <-. repeat split; assumption.
  - intros h Hh. discriminate Hh.
Qed.

Lemma extends_refl (w : world) : extends w w.
Proof.
  split; [exists []; symmetry; apply app_nil_r |].
  split; [apply dirs_kept_refl | reflexivity].
Qed.

Lemma extends_trans (a b c : world) : extends a b -> extends b c -> extends a c.
Proof.
  intros ((l1 & H1) & D1 & N1) ((l2 & H2) & D2 & N2). split; [| split].
  - exists (l1 ++ l2)%list. rewrite H2, H1, app_assoc. reflexivity.
  - eapply dirs_kept_trans; eassumption.
  - congruence.
Qed.

Lemma respects_bind {A B} (m : M world A) (k : A -> M world B) :
  respects extends m -> (forall a, respects extends (k a)) ->
  respects extends (bind m k).
Proof.
  intros Hm Hk s. unfold bind. specialize (Hm s).
  destruct (m s) as [[a | e] s1]; cbn [snd] in *.
  - eapply extends_trans; [exact Hm | apply Hk].
  - exact Hm.
Qed.

Lemma respects_same {A} (m : M world A) :
  (forall s, heap (snd (m s)) = heap s /\ sys (snd (m s)) = sys s) ->
  respects extends m.
Proof.
  intros H s. destruct (H s) as (Hh & Hs). split; [| split].
  - exists []. rewrite Hh. symmetry. apply app_nil_r.
  - rewrite Hs. apply dirs_kept_refl.
  - rewrite Hs. reflexivity.
Qed.

Lemma respects_getLogger (name : string) : respects extends (getLogger name).
Proof.
  apply respects_same. intros s.
  destruct (getLogger_spec name s) as (w' & E & _ & _ & Hs & Hh & _).
  rewrite E. split; assumption.
Qed.

Lemma respects_update_logger (name : string) (f : Logger -> Logger) :
  respects extends (update_logger name f).
Proof.
  apply respects_same. intros s.
  destruct (update_logger_spec name f s) as (w' & E & _ & _ & Hs & Hh & _).
  rewrite E. split; assumption.
Qed.

Lemma respects_getattr (name : string) :
  respects extends (@getattr_logging world name).
Proof. intros s. rewrite getattr_logging_state. apply extends_refl. Qed.

Lemma respects_mkdir (p : path) : respects extends (on_sys_fs (fs_mkdir true p)).
Proof.
  intros s. unfold on_sys_fs. rewrite on_sys_run. cbn [snd].
  unfold lift_fs.
  pose proof (mkdir_dirs_kept true p (fs (sys s))) as (Hk & _).
  destruct (fs_mkdir true p (fs (sys s))) as [r f1]. cbn [snd] in *.
  split; [exists []; symmetry; apply app_nil_r |].
  split; [exact Hk | reflexivity].
Qed.

Lemma respects_init (file : path) (max : Z) :
  respects extends (on_sys (DateRotatingFileHandler_init file max)).
Proof.
  intros s. rewrite on_sys_run. cbn [snd].
  destruct (DateRotatingFileHandler_init file max (sys s)) as [r o'] eqn:E.
  apply init_fields in E. destruct E as (Hn & _ & Hd & _). cbn [snd].
  split; [exists []; symmetry; apply app_nil_r |].
  split; [exact Hd | exact Hn].
Qed.

Lemma respects_alloc (h : handler_obj) : respects extends (alloc_handler h).
Proof.
  intros s. unfold alloc_handler. cbn [snd].
  split; [exists [h]; reflexivity |].
  split; [apply dirs_kept_refl | reflexivity].
Qed.

Lemma respects_set_root (g : world -> Logger) :
  respects extends (modify (fun w => set_root (g w) w)).
Proof. apply respects_same. intros s. split; reflexivity. Qed.

Lemma respects_setup_channel (name : string) (level : M world Z) (file : path)
  (f : formatter) (config : LoggingConfig) :
  respects extends level ->
  respects extends (setup_channel name level file f config).
Proof.
  intros Hl. unfold setup_channel.
  repeat first
    [ apply respects_getLogger | apply respects_update_logger
    | apply respects_init | apply respects_alloc | exact Hl
    | apply respects_bind; [| intros ?] ].
Qed.

Lemma respects_channel (config : LoggingConfig) (name : string) (en : bool)
  (m : M world unit) :
  In (name, (en, m)) (channel_setups config) -> respects extends m.
Proof.
  unfold channel_setups.
  intros [H | [H | [H | [H | [H | [H | []]]]]]]; injection H as <- <- <-;
    unfold _setup_interaction_logger, _setup_agent_logger,
      _setup_workflow_logger, _setup_tool_logger, _setup_performance_logger,
      _setup_security_logger;
    match goal with
    | |- context [negb ?b] => destruct b; cbn [negb]
    end;
    try (intros s; apply extends_refl);
    apply respects_setup_channel;
    first [apply respects_getattr | intros s; apply extends_refl].
Qed.

Lemma respects_run_setups (config : LoggingConfig)
  (l : list (string * (bool * M world unit))) :
  incl l (channel_setups config) -> respects extends (run_setups l).
Proof.
  unfold run_setups. induction l as [| [name [en m]] l IH]; intros Hincl.
  - intros s. apply extends_refl.
  - cbn [for_each snd]. apply respects_bind.
    + apply (respects_channel config name en). apply Hincl. left. reflexivity.
    + intros _. apply IH. intros x Hx. apply Hincl. right. exact Hx.
Qed.

Lemma respects_setup_root (config : LoggingConfig) :
  respects extends (setup_root config).
Proof.
  unfold setup_root. cbv zeta.
  repeat first
    [ apply respects_mkdir | apply respects_getattr | apply respects_init
    | apply respects_alloc | apply respects_set_root
    | apply respects_bind; [| intros ?] ].
Qed.

Lemma respects_setup_logging (config : LoggingConfig) :
  respects extends (setup_logging config).
Proof.
  intros s. rewrite setup_logging_steps.
  apply (respects_bind (setup_root config)
           (fun _ => run_setups (channel_setups config))).
  - apply respects_setup_root.
  - intros _. apply (respects_run_setups config). apply incl_refl.
Qed.

Lemma bind_ok_inv {S A B} (m : M S A) (k : A -> M S B) (s s' : S) (b : B) :
  bind m k s = (Ok b, s') ->
  exists a s1, m s = (Ok a, s1) /\ k a s1 = (Ok b, s').
Proof.
  unfold bind. destruct (m s) as [[a | e] s1]; intros H.
  - exists a, s1. split; [reflexivity | exact H].
  - discriminate H.
Qed.

Lemma mkdir_step_ok (p : path) (w w1 : world) (u : unit) :
  on_sys_fs (fs_mkdir true p) w = (Ok u, w1) ->
  heap w1 = heap w /\ root w1 = root w /\ loggerDict w1 = loggerDict w
  /\ now (sys w1) = now (sys w)
  /\ lookup_dir (fs (sys w1)) p <> None
  /\ dirs_kept (fs (sys w)) (fs (sys w1)).
Proof.
  unfold on_sys_fs. rewrite on_sys_run. unfold lift_fs.
  pose proof (mkdir_dirs_kept true p (fs (sys w))) as (Hk & _ & _ & Hex).
  destruct (fs_mkdir true p (fs (sys w))) as [r f1]. cbn [fst snd] in *.
  intros H. injection H as Hr <-. cbn.
  repeat split; try assumption. apply Hex. rewrite Hr. destruct u. reflexivity.
Qed.

(** What the root set-up leaves when it succeeds. *)
Lemma setup_root_ok (config : LoggingConfig) (w w0 : world) :
  setup_root config w = (Ok tt, w0) ->
  exists l h,
    level_of_name (system_log_level config) = Some l
    /\ root w0 = mkLogger l (propagate (root w))
                          [List.length (heap w); S (List.length (heap w))]
    /\ heap w0
       = (heap w ++ [FileHandlerObj (setLevel l (setFormatter StructuredFormatter h));
                     ConsoleHandlerObj WARNING])%list
    /\ loggerDict w0 = loggerDict w
    /\ base_filename h
       = path_join (path_join (log_dir config) "system") "system.log"
    /\ max_files h = max_log_files config
    /\ current_date h = today (now (sys w))
    /\ Forall (fun p => lookup_dir (fs (sys w0)) p <> None) (setup_dirs config).
Proof.
  unfold setup_root. cbv zeta. intros H.
  repeat match type of H with
  | bind (on_sys_fs (fs_mkdir true ?p)) _ ?s = _ =>
      let u := fresh "u" in let s1 := fresh "s" in
      let E := fresh "E" in let K := fresh "K" in
      apply bind_ok_inv in H; destruct H as (u & s1 & E & H);
      apply mkdir_step_ok in E
  end.
  repeat match goal with
  | E : _ /\ _ |- _ => destruct E as (? & ? & ? & ? & ? & ?)
  end.
  apply bind_ok_inv in H. destruct H as (l & s8 & El & H).
  unfold getattr_logging in El.
  destruct (level_of_name (system_log_level config)) as [l0 |] eqn:Elvl;
    [| discriminate El].
  injection El as <- <-.
  apply bind_ok_inv in H. destruct H as ([] & s9 & E9 & H).
  injection E9 as <-.
  apply bind_ok_inv in H. destruct H as ([] & s10 & E10 & H).
  injection E10 as <-.
  apply bind_ok_inv in H. destruct H as (h & s11 & E11 & H).
  rewrite on_sys_run in E11.
  destruct (DateRotatingFileHandler_init _ _ _) as [r o'] eqn:Einit.
  cbn [fst snd] in E11. injection E11 as -> <-.
  apply init_fields in Einit.
  destruct Einit as (Hnow & _ & Hdk & Hf).
  destruct (Hf h eq_refl) as (F1 & F2 & F3 & _ & _).
  apply bind_ok_inv in H. destruct H as (l' & s12 & El' & H).
  unfold getattr_logging in El'. rewrite Elvl in El'. injection El' as <- <-.
  apply bind_ok_inv in H. destruct H as (a1 & s13 & Ea1 & H).
  injection Ea1 as <- <-.
  apply bind_ok_inv in H. destruct H as ([] & s14 & E14 & H).
  injection E14 as <-.
  apply bind_ok_inv in H. destruct H as (a2 & s15 & Ea2 & H).
  injection Ea2 as <- <-.
  injection H as <-.
  exists l0, h. cbn.
  split; [reflexivity |].
  split.
  { unfold Logger_addHandler. cbn.
    replace (Nat.eqb (List.length (heap s6 ++ [FileHandlerObj
               (setLevel l0 (setFormatter StructuredFormatter h))]))
               (List.length (heap s6))) with false.
    2:{ symmetry. apply Nat.eqb_neq. rewrite length_app. simpl. lia. }
    cbn. rewrite length_app. cbn.
    f_equal; [congruence |].
    replace (heap s6) with (heap w) by congruence.
    rewrite Nat.add_1_r. reflexivity. }
  split.
  { rewrite <- app_assoc. cbn. replace (heap s6) with (heap w) by congruence.
    reflexivity. }
  split; [congruence |].
  split; [exact F1 |]. split; [exact F2 |].
  split; [rewrite F3; cbn; congruence |].
  assert (Hfin : forall st p, dirs_kept (fs (sys st)) (fs (sys s6)) ->
                   lookup_dir (fs (sys st)) p <> None ->
                   lookup_dir (fs o') p <> None).
  { intros st p Hk Hp.
    destruct (lookup_dir (fs (sys st)) p) as [b |] eqn:Eb; [| contradiction].
    apply Hk in Eb. cbn in Hdk. apply Hdk in Eb. congruence. }
  unfold setup_dirs. cbn [map].
  repeat constructor;
    match goal with
    | Hp : lookup_dir (fs (sys ?st)) ?p <> None |- lookup_dir _ ?p <> None =>
        apply (Hfin st p); [| exact Hp]
    end;
    repeat first [ apply dirs_kept_refl
                 | eassumption
                 | eapply dirs_kept_trans; [eassumption |] ].
Qed.

Lemma attached_logger_or_new (w : world) (name : string) :
  handlers (logger_or_new w name) = attached w name.
Proof.
  unfold attached, logger_or_new. destruct (find_logger w name); reflexivity.
Qed.

(** The common body of the channel set-ups when it succeeds. *)
Lemma setup_channel_ok (name : string) (level : M world Z) (lr : result Z)
  (file : path) (f : formatter) (config : LoggingConfig) (w w' : world) :
  (forall s, level s = (lr, s)) ->
  setup_channel name level file f config w = (Ok tt, w') ->
  exists l h,
    lr = Ok l
    /\ DateRotatingFileHandler_init file (max_log_files config) (sys w)
       = (Ok h, sys w')
    /\ heap w' = (heap w ++ [FileHandlerObj (setFormatter f h)])%list
    /\ find_logger w' name
       = Some (Logger_addHandler (List.length (heap w))
                 (mkLogger l false (attached w name))).
Proof.
  intros Hl H. unfold setup_channel in H.
  apply bind_ok_inv in H. destruct H as (lg0 & w1 & E1 & H).
  destruct (getLogger_spec name w) as (w1' & E1' & Hs1 & _ & Hsys1 & Hh1 & _).
  rewrite E1' in E1. injection E1 as <- <-.
  apply bind_ok_inv in H. destruct H as (l & w2 & E2 & H).
  rewrite Hl in E2. injection E2 as -> <-.
  apply bind_ok_inv in H. destruct H as ([] & w3 & E3 & H).
  destruct (update_logger_spec name (Logger_setLevel l) w1')
    as (w3' & E3' & Hs3 & _ & Hsys3 & Hh3 & _).
  rewrite E3' in E3. injection E3 as <-.
  apply bind_ok_inv in H. destruct H as ([] & w4 & E4 & H).
  destruct (update_logger_spec name (Logger_set_propagate false) w3')
    as (w4' & E4' & Hs4 & _ & Hsys4 & Hh4 & _).
  rewrite E4' in E4. injection E4 as <-.
  apply bind_ok_inv in H. destruct H as (h & w5 & E5 & H).
  rewrite on_sys_run in E5.
  destruct (DateRotatingFileHandler_init file (max_log_files config) (sys w4'))
    as [r o'] eqn:Einit.
  cbn [fst snd] in E5. injection E5 as -> <-.
  apply bind_ok_inv in H. destruct H as (addr & w6 & E6 & H).
  unfold alloc_handler in E6. injection E6 as <- <-.
  match type of H with
  | update_logger name ?g ?s = _ =>
      destruct (update_logger_spec name g s)
        as (w7 & E7 & Hs7 & _ & Hsys7 & Hh7 & _)
  end.
  rewrite E7 in H. injection H as <-.
  exists l, h. split; [reflexivity |].
  assert (Hsys : sys w4' = sys w) by congruence.
  assert (Hheap : heap w4' = heap w) by congruence.
  split; [| split].
  - rewrite <- Hsys, Einit. f_equal. rewrite Hsys7. reflexivity.
  - rewrite Hh7. cbn. rewrite Hheap. reflexivity.
  - rewrite Hs7. cbn [heap set_heap set_sys]. rewrite Hheap.
    f_equal. f_equal.
    unfold logger_or_new at 1. unfold find_logger at 1.
    cbn [loggerDict set_heap set_sys]. fold (find_logger w4' name).
    rewrite Hs4.
    unfold logger_or_new at 1. rewrite Hs3.
    unfold logger_or_new at 1. rewrite Hs1.
    unfold Logger_set_propagate, Logger_setLevel. cbn.
    rewrite attached_logger_or_new. reflexivity.
Qed.

(** The set-up of an enabled channel when it succeeds, with the
    channel's own directory, level and formatter. *)
Lemma channel_ok (config : LoggingConfig) (name dir lvl : string)
  (f : formatter) (m : M world unit) (w w' : world) :
  In (name, (true, m)) (channel_setups config) ->
  In (name, (dir, lvl, f)) (channel_table config) ->
  m w = (Ok tt, w') ->
  exists l h,
    level_of_name lvl = Some l
    /\ DateRotatingFileHandler_init (channel_file config dir)
         (max_log_files config) (sys w) = (Ok h, sys w')
    /\ heap w' = (heap w ++ [FileHandlerObj (setFormatter f h)])%list
    /\ find_logger w' name
       = Some (Logger_addHandler (List.length (heap w))
                 (mkLogger l false (attached w name))).
Proof.
  unfold channel_setups, channel_table.
  intros [H | [H | [H | [H | [H | [H | []]]]]]]; injection H as <- Hen <-;
    intros [T | [T | [T | [T | [T | [T | []]]]]]]; try discriminate T;
    injection T as <- <- <-;
    unfold _setup_interaction_logger, _setup_agent_logger,
      _setup_workflow_logger, _setup_tool_logger, _setup_performance_logger,
      _setup_security_logger;
    rewrite Hen; cbn [negb]; intros E.
  1-4: match type of E with
       | setup_channel _ (getattr_logging ?n) _ _ _ _ = _ =>
           apply (setup_channel_ok _ _
                    (match level_of_name n with
                     | Some l => Ok l
                     | None => Raise (AttributeError n)
                     end)) in E;
             [| intros s; unfold getattr_logging;
                destruct (level_of_name n); reflexivity];
           destruct E as (l & h & El & E);
           exists l, h; split; [| exact E];
           destruct (level_of_name n); [congruence | discriminate El]
       end.
  1-2: apply (setup_channel_ok _ _ (Ok INFO)) in E; [| intros s; reflexivity];
       destruct E as (l & h & El & E); injection El as <-;
       exists INFO, h; split; [reflexivity | exact E].
Qed.

Lemma run_setups_root (config : LoggingConfig)
  (l : list (string * (bool * M world unit))) :
  incl l (channel_setups config) -> preserves root (run_setups l).
Proof.
  unfold run_setups. induction l as [| [name [en m]] l IH]; intros Hincl.
  - apply preserves_ret.
  - cbn [for_each snd]. apply preserves_bind.
    + intros w.
      destruct (channel_setup_spec config name en m w) as (_ & Hr & _).
      { apply Hincl. left. reflexivity. }
      exact Hr.
    + intros _. apply IH. intros x Hx. apply Hincl. right. exact Hx.
Qed.

Lemma extends_nth (w w' : world) (a : nat) (h : handler_obj) :
  extends w w' -> nth_error (heap w) a = Some h -> nth_error (heap w') a = Some h.
Proof.
  intros ((l & E) & _) H. rewrite E. rewrite nth_error_app1; [exact H |].
  apply nth_error_Some. congruence.
Qed.

Lemma extends_length (w w' : world) :
  extends w w' -> (List.length (heap w) <= List.length (heap w'))%nat.
Proof. intros ((l & E) & _). rewrite E, length_app. lia. Qed.

Lemma addHandler_fresh (a : nat) (lg : Logger) :
  Forall (fun b => (b < a)%nat) (handlers lg) ->
  Logger_addHandler a lg
  = mkLogger (lg_level lg) (propagate lg) (handlers lg ++ [a])%list.
Proof.
  intros H. unfold Logger_addHandler.
  replace (existsb (Nat.eqb a) (handlers lg)) with false; [reflexivity |].
  symmetry. apply not_true_is_false. intros E.
  apply existsb_exists in E. destruct E as (b & Hb & Eb).
  apply Nat.eqb_eq in Eb. subst b.
  rewrite Forall_forall in H. specialize (H a Hb). lia.
Qed.

(** What a successful [setup_logging] leaves of an enabled channel. *)
Lemma enabled_channel_after_setup (config : LoggingConfig) (w w' : world)
  (name dir lvl : string) (f : formatter) (m : M world unit) :
  In (name, (true, m)) (channel_setups config) ->
  In (name, (dir, lvl, f)) (channel_table config) ->
  Forall (fun a => (a < List.length (heap w))%nat) (attached w name) ->
  setup_logging config w = (Ok tt, w') ->
  exists l a h,
    level_of_name lvl = Some l
    /\ find_logger w' name = Some (mkLogger l false (attached w name ++ [a])%list)
    /\ (List.length (heap w) + 2 <= a < List.length (heap w'))%nat
    /\ nth_error (heap w') a = Some (FileHandlerObj h)
    /\ base_filename h = channel_file config dir
    /\ max_files h = max_log_files config
    /\ level h = NOTSET
    /\ fmt h = Some f
    /\ current_date h = today (now (sys w))
    /\ handlers_for w' name = (attached w name ++ [a])%list.
Proof.
  intros Hin Htab Hfresh H.
  rewrite setup_logging_steps in H.
  apply bind_ok_inv in H. destruct H as ([] & w0 & Hroot & H).
  destruct (in_split _ _ Hin) as (pre & post & Hc).
  rewrite Hc, run_setups_app in H.
  apply bind_ok_inv in H. destruct H as ([] & w1 & Hpre & H).
  unfold run_setups in H. cbn [for_each snd] in H.
  apply bind_ok_inv in H. destruct H as ([] & w2 & Hm & Hpost).
  fold (run_setups post) in Hpost.
  pose proof (channel_names_NoDup config) as Hnd.
  rewrite Hc, map_app in Hnd. cbn [map fst] in Hnd.
  assert (Hnpre : ~ In name (map fst pre)).
  { intros Hx. apply NoDup_remove_2 in Hnd. apply Hnd.
    apply in_or_app. left. exact Hx. }
  assert (Hnpost : ~ In name (map fst post)).
  { intros Hx. apply NoDup_remove_2 in Hnd. apply Hnd.
    apply in_or_app. right. exact Hx. }
  assert (Hipre : incl pre (channel_setups config)).
  { rewrite Hc. intros x Hx. apply in_or_app. left. exact Hx. }
  assert (Hipost : incl post (channel_setups config)).
  { rewrite Hc. intros x Hx. apply in_or_app. right. right. exact Hx. }
  assert (E0 : extends w w0).
  { pose proof (respects_setup_root config w) as K. rewrite Hroot in K. exact K. }
  assert (E1 : extends w0 w1).
  { pose proof (respects_run_setups config pre Hipre w0) as K.
    rewrite Hpre in K. exact K. }
  assert (E2 : extends w2 w').
  { pose proof (respects_run_setups config post Hipost w2) as K.
    rewrite Hpost in K. exact K. }
  assert (Hatt1 : attached w1 name = attached w name).
  { unfold attached.
    pose proof (run_setups_others config pre name Hipre Hnpre w0) as K.
    cbn in K. rewrite Hpre in K. cbn in K. rewrite K.
    unfold find_logger.
    pose proof (setup_root_loggerDict config w) as K0.
    rewrite Hroot in K0. cbn in K0. rewrite K0. reflexivity. }
  destruct (setup_root_ok config w w0 Hroot) as (l0 & h0 & _ & _ & Hheap0 & _).
  assert (Hlen1 : (List.length (heap w) + 2 <= List.length (heap w1))%nat).
  { pose proof (extends_length w0 w1 E1) as K.
    rewrite Hheap0, length_app in K. cbn in K. lia. }
  destruct (channel_ok config name dir lvl f m w1 w2 Hin Htab Hm)
    as (l & h & Hl & Hinit & Hheap2 & Hfind2).
  apply init_fields in Hinit. destruct Hinit as (_ & _ & _ & Hf).
  destruct (Hf h eq_refl) as (F1 & F2 & F3 & F4 & F5).
  rewrite Hatt1 in Hfind2.
  rewrite addHandler_fresh in Hfind2.
  2:{ cbn. eapply Forall_impl; [| exact Hfresh]. cbn. intros b Hb. lia. }
  cbn in Hfind2.
  assert (Hfind : find_logger w' name
                  = Some (mkLogger l false
                            (attached w name ++ [List.length (heap w1)])%list)).
  { pose proof (run_setups_others config post name Hipost Hnpost w2) as K.
    cbn in K. rewrite Hpost in K. cbn in K. rewrite K. exact Hfind2. }
  assert (Hnth2 : nth_error (heap w2) (List.length (heap w1))
                  = Some (FileHandlerObj (setFormatter f h))).
  { rewrite Hheap2, nth_error_app2 by lia. rewrite Nat.sub_diag. reflexivity. }
  exists l, (List.length (heap w1)), (setFormatter f h).
  split; [exact Hl |]. split; [exact Hfind |].
  split.
  { split; [exact Hlen1 |].
    pose proof (extends_length w2 w' E2) as K.
    rewrite Hheap2, length_app in K. cbn in K. lia. }
  split; [exact (extends_nth w2 w' _ _ E2 Hnth2) |].
  split; [exact F1 |]. split; [exact F2 |]. split; [exact F4 |].
  split; [reflexivity |].
  split.
  { cbn. rewrite F3. destruct E0 as (_ & _ & N0). destruct E1 as (_ & _ & N1).
    congruence. }
  unfold handlers_for. cbn [handlers_up]. rewrite Hfind. cbn.
  apply app_nil_r.
Qed.

(** X12: what a successful [setup_logging] leaves of the root logger,
    whatever handlers it had before: its level is the configured
    system level and it has exactly two handlers, both new: the system
    sink over [log_dir/system/system.log] with the structured formatter
    at the system level, and the console handler at [WARNING]. *)
Theorem setup_resets_root_logger :
  forall (config : LoggingConfig) (w w' : world),
    setup_logging config w = (Ok tt, w') ->
    exists l h,
      level_of_name (system_log_level config) = Some l
      /\ root w' = mkLogger l (propagate (root w))
                            [List.length (heap w); S (List.length (heap w))]
      /\ nth_error (heap w') (List.length (heap w)) = Some (FileHandlerObj h)
      /\ nth_error (heap w') (S (List.length (heap w)))
         = Some (ConsoleHandlerObj WARNING)
      /\ base_filename h
         = path_join (path_join (log_dir config) "system") "system.log"
      /\ max_files h = max_log_files config
      /\ level h = l
      /\ fmt h = Some StructuredFormatter.
Proof.
  intros config w w' H. rewrite setup_logging_steps in H.
  apply bind_ok_inv in H. destruct H as ([] & w0 & Hroot & H).
  destruct (setup_root_ok config w w0 Hroot)
    as (l & h & Hl & Hr & Hheap & _ & F1 & F2 & _).
  assert (E : extends w0 w').
  { pose proof (respects_run_setups config (channel_setups config)
                  (incl_refl _) w0) as K. rewrite H in K. exact K. }
  pose proof (run_setups_root config (channel_setups config) (incl_refl _) w0)
    as Hroot'.
  rewrite H in Hroot'. cbn in Hroot'.
  exists l, (setLevel l (setFormatter StructuredFormatter h)).
  split; [exact Hl |]. split; [congruence |].
  split.
  { apply (extends_nth w0 w' _ _ E). rewrite Hheap.
    rewrite nth_error_app2 by lia. rewrite Nat.sub_diag. reflexivity. }
  split.
  { apply (extends_nth w0 w' _ _ E). rewrite Hheap.
    rewrite nth_error_app2 by lia.
    replace (S (List.length (heap w)) - List.length (heap w))%nat with 1%nat by lia.
    reflexivity. }
  repeat split; assumption.
Qed.

Lemma setup_resets_root_logger_witness :
  exists l h,
    level_of_name (system_log_level default_config) = Some l
    /\ root w_default_twice
       = mkLogger l (propagate (root w_default))
                  [List.length (heap w_default); S (List.length (heap w_default))]
    /\ nth_error (heap w_default_twice) (List.length (heap w_default))
       = Some (FileHandlerObj h)
    /\ nth_error (heap w_default_twice) (S (List.length (heap w_default)))
       = Some (ConsoleHandlerObj WARNING)
    /\ base_filename h
       = path_join (path_join (log_dir default_config) "system") "system.log"
    /\ max_files h = max_log_files default_config
    /\ level h = l
    /\ fmt h = Some StructuredFormatter.
Proof.
  apply (setup_resets_root_logger default_config w_default w_default_twice).
  vm_compute. reflexivity.
Defined.

(** X13: what a successful [setup_logging] leaves of an enabled
    channel.  Its logger has the configured level, does not propagate,
    and has gained exactly one handler: a new sink over
    [log_dir/<channel>/<channel>.log] with the channel's formatter, level
    [NOTSET] and the configured file limit; since the logger does not
    propagate, its records go to its own handlers only and never reach
    the system log or the console. *)
Theorem setup_configures_enabled_channel :
  forall (config : LoggingConfig) (w w' : world) (name dir lvl : string)
         (f : formatter) (m : M world unit),
    In (name, (true, m)) (channel_setups config) ->
    In (name, (dir, lvl, f)) (channel_table config) ->
    Forall (fun a => (a < List.length (heap w))%nat) (attached w name) ->
    setup_logging config w = (Ok tt, w') ->
    exists l a h,
      level_of_name lvl = Some l
      /\ find_logger w' name
         = Some (mkLogger l false (attached w name ++ [a])%list)
      /\ (List.length (heap w) + 2 <= a < List.length (heap w'))%nat
      /\ nth_error (heap w') a = Some (FileHandlerObj h)
      /\ base_filename h = channel_file config dir
      /\ max_files h = max_log_files config
      /\ level h = NOTSET
      /\ fmt h = Some f
      /\ current_date h = today (now (sys w))
      /\ handlers_for w' name = (attached w name ++ [a])%list.
Proof. exact enabled_channel_after_setup. Qed.

Lemma setup_configures_enabled_channel_witness :
  exists l a h,
    level_of_name (interaction_log_level default_config) = Some l
    /\ find_logger w_default "deer_flow.interactions"
       = Some (mkLogger l false
                 (attached w_start "deer_flow.interactions" ++ [a])%list)
    /\ (List.length (heap w_start) + 2 <= a < List.length (heap w_default))%nat
    /\ nth_error (heap w_default) a = Some (FileHandlerObj h)
    /\ base_filename h = channel_file default_config "interactions"
    /\ max_files h = max_log_files default_config
    /\ level h = NOTSET
    /\ fmt h = Some InteractionFormatter
    /\ current_date h = today (now (sys w_start))
    /\ handlers_for w_default "deer_flow.interactions"
       = (attached w_start "deer_flow.interactions" ++ [a])%list.
Proof.
  apply (setup_configures_enabled_channel default_config w_start w_default
           "deer_flow.interactions" "interactions"
           (interaction_log_level default_config) InteractionFormatter
           (_setup_interaction_logger default_config)).
  - left. reflexivity.
  - left. reflexivity.
  - constructor.
  - vm_compute. reflexivity.
Defined.

(** X14: [setup_logging] is not idempotent.  Only the root logger's
    handlers are removed before new ones are added; a second
    successful call adds a second sink over the same file to every
    enabled channel, so each record of the channel is then handled
    twice, while the root logger again has two handlers. *)
Theorem setup_twice_doubles_channel_sinks :
  forall (config : LoggingConfig) (w w1 w2 : world) (name dir lvl : string)
         (f : formatter) (m : M world unit),
    In (name, (true, m)) (channel_setups config) ->
    In (name, (dir, lvl, f)) (channel_table config) ->
    Forall (fun a => (a < List.length (heap w))%nat) (attached w name) ->
    setup_logging config w = (Ok tt, w1) ->
    setup_logging config w1 = (Ok tt, w2) ->
    exists a b ha hb,
      a <> b
      /\ handlers_for w2 name = (attached w name ++ [a; b])%list
      /\ nth_error (heap w2) a = Some (FileHandlerObj ha)
      /\ nth_error (heap w2) b = Some (FileHandlerObj hb)
      /\ base_filename ha = channel_file config dir
      /\ base_filename hb = channel_file config dir
      /\ List.length (handlers (root w2)) = 2%nat.
Proof.
  intros config w w1 w2 name dir lvl f m Hin Htab Hfresh H1 H2.
  destruct (enabled_channel_after_setup config w w1 name dir lvl f m
              Hin Htab Hfresh H1)
    as (l1 & a & ha & _ & Hf1 & Ha & Hna & Fa & _ & _ & _ & _ & _).
  assert (Hatt1 : attached w1 name = (attached w name ++ [a])%list).
  { unfold attached at 1. rewrite Hf1. reflexivity. }
  assert (Hfresh1 : Forall (fun x => (x < List.length (heap w1))%nat)
                           (attached w1 name)).
  { rewrite Hatt1. apply Forall_app. split.
    - eapply Forall_impl; [| exact Hfresh]. cbn. intros x Hx. lia.
    - constructor; [lia | constructor]. }
  destruct (enabled_channel_after_setup config w1 w2 name dir lvl f m
              Hin Htab Hfresh1 H2)
    as (l2 & b & hb & _ & _ & Hb & Hnb & Fb & _ & _ & _ & _ & Hfor).
  assert (E : extends w1 w2).
  { pose proof (respects_setup_logging config w1) as K. rewrite H2 in K. exact K. }
  exists a, b, ha, hb.
  split; [lia |].
  split; [rewrite Hfor, Hatt1, <- app_assoc; reflexivity |].
  split; [exact (extends_nth w1 w2 _ _ E Hna) |].
  split; [exact Hnb |].
  split; [exact Fa |]. split; [exact Fb |].
  rewrite setup_logging_steps in H2.
  apply bind_ok_inv in H2. destruct H2 as ([] & w0 & Hroot & H2).
  destruct (setup_root_ok config w1 w0 Hroot) as (l & h & _ & Hr & _).
  pose proof (run_setups_root config (channel_setups config) (incl_refl _) w0)
    as Hroot'.
  rewrite H2 in Hroot'. cbn in Hroot'. rewrite Hroot', Hr. reflexivity.
Qed.

Lemma setup_twice_doubles_channel_sinks_witness :
  exists a b ha hb,
    a <> b
    /\ handlers_for w_default_twice "deer_flow.agents"
       = (attached w_start "deer_flow.agents" ++ [a; b])%list
    /\ nth_error (heap w_default_twice) a = Some (FileHandlerObj ha)
    /\ nth_error (heap w_default_twice) b = Some (FileHandlerObj hb)
    /\ base_filename ha = channel_file default_config "agents"
    /\ base_filename hb = channel_file default_config "agents"
    /\ List.length (handlers (root w_default_twice)) = 2%nat.
Proof.
  apply (setup_twice_doubles_channel_sinks default_config w_start w_default
           w_default_twice "deer_flow.agents" "agents"
           (agent_log_level default_config) StructuredFormatter
           (_setup_agent_logger default_config)).
  - right. left. reflexivity.
  - right. left. reflexivity.
  - constructor.
  - vm_compute. reflexivity.
  - vm_compute. reflexivity.
Defined.

(** After two set-ups one logged agent activity is written twice to
    the agent file. *)
Example agent_activity_written_twice :
  read_text (fs (sys (snd (call logger_s1 op_search w_default_twice))))
            ["logs"; "agents"; "agents_2025-01-14.log"]
  = option_map (fun line => line ++ line)
      (read_text (fs (sys (snd (call logger_s1 op_search w_default))))
                 ["logs"; "agents"; "agents_2025-01-14.log"])
  /\ read_text (fs (sys (snd (call logger_s1 op_search w_default))))
               ["logs"; "agents"; "agents_2025-01-14.log"] <> Some "".
Proof. split; [vm_compute; reflexivity | vm_compute; discriminate]. Qed.

(** X15: a successful [setup_logging] has created the log directory
    and the directory of every channel, enabled or not, and has
    removed no directory. *)
Theorem setup_creates_all_directories :
  forall (config : LoggingConfig) (w w' : world),
    setup_logging config w = (Ok tt, w') ->
    Forall (fun p => lookup_dir (fs (sys w')) p <> None) (setup_dirs config)
    /\ dirs_kept (fs (sys w)) (fs (sys w')).
Proof.
  intros config w w' H.
  pose proof (respects_setup_logging config w) as E. rewrite H in E.
  split; [| exact (proj1 (proj2 E))].
  rewrite setup_logging_steps in H.
  apply bind_ok_inv in H. destruct H as ([] & w0 & Hroot & H).
  destruct (setup_root_ok config w w0 Hroot)
    as (l & h & _ & _ & _ & _ & _ & _ & _ & Hdirs).
  assert (E1 : extends w0 w').
  { pose proof (respects_run_setups config (channel_setups config)
                  (incl_refl _) w0) as K. rewrite H in K. exact K. }
  eapply Forall_impl; [| exact Hdirs]. cbn. intros p Hp.
  destruct (lookup_dir (fs (sys w0)) p) as [b |] eqn:Eb; [| contradiction].
  apply (proj1 (proj2 E1)) in Eb. congruence.
Qed.

Lemma setup_creates_all_directories_witness :
  Forall (fun p => lookup_dir
                     (fs (sys (snd (setup_logging config_no_interactions w_start))))
                     p <> None)
         (setup_dirs config_no_interactions)
  /\ dirs_kept (fs (sys w_start))
               (fs (sys (snd (setup_logging config_no_interactions w_start)))).
Proof.
  apply (setup_creates_all_directories config_no_interactions w_start).
  vm_compute. reflexivity.
Defined.

(* ================================================================== *)
(** ** The event logger: levels, configuration and the global instance *)

(** X16: [get_interaction_logger] never raises, and the instance it
    returns is the one installed as the global logger afterwards.  A
    call with a non-empty session identifier returns a logger bound to
    that identifier; a call without one (or with an empty one) in a
    process that has no global logger yet returns a logger bound to a
    newly generated identifier. *)
Theorem get_interaction_logger_returns_global :
  forall (sid : option string) (w : world),
  exists g w',
    get_interaction_logger sid w = (Ok g, w')
    /\ _global_logger w' = Some g
    /\ (forall s, sid = Some s -> s <> "" -> session_id g = s)
    /\ (_global_logger w = None -> truthy_str sid = false ->
        session_id g = uuid_str (uuid_calls w)
        /\ uuid_calls w' = S (uuid_calls w)).
Proof.
  intros sid w.
  assert (Hnew : exists g w',
            bind (InteractionLogger_init sid)
                 (fun g' => bind (modify (set_global_logger (Some g')))
                                 (fun _ => ret g')) w = (Ok g, w')
            /\ _global_logger w' = Some g
            /\ session_id g = (if truthy_str sid
                               then match sid with Some s => s | None => "" end
                               else uuid_str (uuid_calls w))
            /\ uuid_calls w' = (if truthy_str sid then uuid_calls w
                                else S (uuid_calls w))).
  { destruct (InteractionLogger_init_spec sid w) as (w1 & E & _ & _ & Hu).
    unfold bind at 1. rewrite E. unfold bind, modify, ret.
    eexists. eexists. split; [reflexivity |]. cbn.
    split; [reflexivity |]. split; [reflexivity | exact Hu]. }
  assert (Htruthy : forall s, sid = Some s -> s <> "" -> truthy_str sid = true).
  { intros s -> Hs. cbn. destruct (String.eqb_spec s ""); [contradiction | reflexivity]. }
  unfold get_interaction_logger. unfold bind at 1, get.
  destruct (_global_logger w) as [g0 |] eqn:Eg.
  - destruct (truthy_str sid
              && negb (String.eqb (session_id g0)
                         (match sid with Some s => s | None => "" end)))%bool
      eqn:Ec.
    + destruct Hnew as (g & w' & E & Hg & Hs & Hu).
      exists g, w'. split; [exact E |]. split; [exact Hg |].
      split; [| discriminate].
      intros s Hsid Hne. rewrite Hs, (Htruthy s Hsid Hne), Hsid. reflexivity.
    + exists g0, w. split; [reflexivity |]. split; [exact Eg |].
      split; [| discriminate].
      intros s Hsid Hne. rewrite (Htruthy s Hsid Hne) in Ec. subst sid.
      cbn in Ec. apply negb_false_iff in Ec. apply String.eqb_eq in Ec. exact Ec.
  - destruct Hnew as (g & w' & E & Hg & Hs & Hu).
    exists g, w'. split; [exact E |]. split; [exact Hg |]. split.
    + intros s Hsid Hne. rewrite Hs, (Htruthy s Hsid Hne), Hsid. reflexivity.
    + intros _ Hf. rewrite Hs, Hu, Hf. split; reflexivity.
Qed.

Lemma preserves_configuration_Handler_handle (addr : nat) (record : LogRecord) :
  preserves configuration (Handler_handle addr record).
Proof.
  intros w. unfold Handler_handle.
  destruct (nth_error (heap w) addr) as [[h | l] |].
  - destruct (emit record (h, sys w)) as [r [h' o']]. reflexivity.
  - destruct (formatter_format PercentFormatter record); reflexivity.
  - reflexivity.
Qed.

Lemma preserves_configuration_on_sys {A} (m : M os A) :
  preserves configuration (on_sys m).
Proof. intros w. rewrite on_sys_run. reflexivity. Qed.

Lemma preserves_configuration_callHandlers (name : string) (record : LogRecord) :
  preserves configuration (callHandlers name record).
Proof.
  unfold callHandlers. apply preserves_bind; [apply preserves_get |]. intros w.
  destruct (handlers_for w name) as [| a hs].
  - destruct (levelno record >=? WARNING)%Z;
      [apply preserves_configuration_on_sys | apply preserves_ret].
  - apply preserves_for_each. intros addr.
    apply preserves_bind; [apply preserves_get |]. intros w'.
    destruct (nth_error (heap w') addr); [| apply preserves_ret].
    destruct (_ >=? _)%Z;
      [apply preserves_configuration_Handler_handle | apply preserves_ret].
Qed.

Lemma preserves_configuration_Logger_log (name : string) (c : caller) (lvl : Z)
  (msg : string) (extra : pydict) :
  preserves configuration (Logger_log name c lvl msg extra).
Proof.
  unfold Logger_log. apply preserves_bind; [apply preserves_get |].
  intros w. destruct (isEnabledFor w name lvl); [| apply preserves_ret].
  destruct (add_extra _ _);
    [apply preserves_configuration_callHandlers | apply preserves_raise].
Qed.

Lemma preserves_configuration_uuid4 : preserves configuration uuid4.
Proof. intros w. reflexivity. Qed.

Lemma preserves_configuration_now : preserves configuration datetime_now.
Proof. intros w. reflexivity. Qed.

(** X17: none of the six logging operations changes the logging
    configuration, whatever its outcome: the root logger, every named
    logger (level, propagation, handlers), the number of
    [InteractionLogger] instances and the global logger are after the
    call what they were before. *)
Theorem logging_operations_keep_configuration :
  forall (self : InteractionLogger) (op : operation) (w : world),
    root (snd (call self op w)) = root w
    /\ loggerDict (snd (call self op w)) = loggerDict w
    /\ objects (snd (call self op w)) = objects w
    /\ _global_logger (snd (call self op w)) = _global_logger w.
Proof.
  intros self op w.
  assert (H : preserves configuration (call self op)).
  { destruct op; cbn [call];
      unfold log_interaction, log_agent_activity, log_workflow_event,
        log_tool_usage, log_performance_metric, log_security_event, Logger_info,
        Logger_handle;
      repeat first
        [ apply preserves_configuration_uuid4
        | apply preserves_configuration_now
        | apply preserves_configuration_callHandlers
        | apply preserves_configuration_Logger_log
        | apply preserves_ret
        | apply preserves_bind; [| intros ?] ]. }
  specialize (H w). unfold configuration in H.
  injection H as H1 H2 H3 H4. repeat split; assumption.
Qed.

(** X18: the two operations that log through [Logger.log] and
    [Logger.info] are subject to the logger's level.  When the workflow
    logger is not enabled for the level of the event ([ERROR] for the
    status [error], [INFO] otherwise), [log_workflow_event] writes
    nothing at all and still returns a new event identifier; when the
    performance logger is not enabled for [INFO],
    [log_performance_metric] does nothing. *)
Theorem level_filter_drops_event_but_returns_id :
  forall (self : InteractionLogger) (w : world)
         (workflow_type node_name status : string)
         (input_data output_data : option pydict) (duration_ms : option Z)
         (error : option string)
         (metric_name : string) (value : Z) (unit_ : string)
         (metadata : option pydict),
    (isEnabledFor w "deer_flow.workflows"
       (if String.eqb status "error" then ERROR else INFO) = false ->
     log_workflow_event self workflow_type node_name status input_data
       output_data duration_ms error w
     = (Ok (uuid_str (uuid_calls w)), set_uuid_calls (S (uuid_calls w)) w))
    /\ (isEnabledFor w "deer_flow.performance" INFO = false ->
        log_performance_metric self metric_name value unit_ metadata w
        = (Ok tt, w)).
Proof.
  intros. split; intros H.
  - unfold log_workflow_event, bind at 1, uuid4.
    unfold bind at 1, datetime_now. cbv zeta.
    unfold bind at 1. unfold Logger_log, bind at 1, get.
    change (isEnabledFor (set_uuid_calls (S (uuid_calls w)) w) "deer_flow.workflows"
              (if String.eqb status "error" then ERROR else INFO))
      with (isEnabledFor w "deer_flow.workflows"
              (if String.eqb status "error" then ERROR else INFO)).
    rewrite H. reflexivity.
  - unfold log_performance_metric, Logger_info, Logger_log, bind, get.
    rewrite H. reflexivity.
Qed.

(** With the workflow channel at [WARNING] a started workflow is not
    recorded anywhere, although an identifier comes back; an error
    event is recorded. *)
Example workflow_event_below_level :
  fst (call logger_s1
         (OpWorkflowEvent "research" "planner" "started" None None None None)
         w_workflows_warning) = Ok (PStr (uuid_str 0))
  /\ fs (sys (snd (call logger_s1
                     (OpWorkflowEvent "research" "planner" "started" None None
                        None None) w_workflows_warning)))
     = fs (sys w_workflows_warning)
  /\ read_text (fs (sys w_workflows_warning))
               ["logs"; "workflows"; "workflows_2025-01-14.log"] = Some ""
  /\ read_text
       (fs (sys (snd (call logger_s1
                        (OpWorkflowEvent "research" "planner" "error" None None
                           None (Some "boom")) w_workflows_warning))))
       ["logs"; "workflows"; "workflows_2025-01-14.log"] <> Some "".
Proof.
  split; [vm_compute; reflexivity |]. split; [vm_compute; reflexivity |].
  split; [vm_compute; reflexivity |]. vm_compute. discriminate.
Qed.

(** X20: constructing an [InteractionLogger] never fails and
    configures nothing: the files, the handlers and the root logger
    are untouched, every logger that exists stays as it is, and each of
    the six channel loggers that does not exist yet is created
    unconfigured (level [NOTSET], propagating, no handler). *)
Theorem interaction_logger_init_configures_nothing :
  forall (sid : option string) (w : world),
  exists g w',
    InteractionLogger_init sid w = (Ok g, w')
    /\ sys w' = sys w /\ heap w' = heap w /\ root w' = root w
    /\ (forall n, find_logger w' n
                  = if string_in n channel_loggers
                    then Some (logger_or_new w n)
                    else find_logger w n).
Proof.
  intros sid w. unfold InteractionLogger_init.
  set (first := if truthy_str sid
                then ret (match sid with Some s => s | None => "" end)
                else uuid4).
  assert (H0 : exists s w0, first w = (Ok s, w0)
                 /\ sys w0 = sys w /\ heap w0 = heap w /\ root w0 = root w
                 /\ loggerDict w0 = loggerDict w).
  { unfold first. destruct (truthy_str sid); eexists; eexists;
      (split; [reflexivity | repeat split]). }
  destruct H0 as (s & w0 & E0 & S0 & P0 & R0 & L0).
  unfold bind at 1. rewrite E0.
  assert (F0 : forall n, find_logger w0 n = find_logger w n).
  { intros n. unfold find_logger. rewrite L0. reflexivity. }
  repeat match goal with
  | |- context [bind (getLogger ?n) ?k ?st] =>
      let w1 := fresh "w" in let E := fresh "E" in
      let Hs := fresh "Hs" in let Ho := fresh "Ho" in
      let S1 := fresh "S" in let P1 := fresh "P" in let R1 := fresh "R" in
      destruct (getLogger_spec n st) as (w1 & E & Hs & Ho & S1 & P1 & R1);
      unfold bind at 1; rewrite E
  end.
  unfold bind, get, put, ret. eexists. eexists. split; [reflexivity |].
  cbn [sys heap root set_objects].
  split; [congruence |]. split; [congruence |]. split; [congruence |].
  intros n. unfold find_logger at 1. cbn [loggerDict set_objects].
  fold (find_logger w6 n).
  assert (Hnew : forall st m, find_logger st m = find_logger w m ->
                   logger_or_new st m = logger_or_new w m).
  { intros st m Hm. unfold logger_or_new. rewrite Hm. reflexivity. }
  unfold channel_loggers. cbn [string_in].
  repeat match goal with
  | |- context [String.eqb n ?c] =>
      destruct (String.eqb_spec n c) as [-> | ?]; cbn [orb]
  end;
  repeat match goal with
  | Ho : forall n : string, n <> ?c -> find_logger ?b n = find_logger ?a n
    |- context [find_logger ?b ?m] =>
      first [ rewrite (Ho m) by (first [assumption | discriminate])
            | match goal with
              | Hs : find_logger b m = Some _ |- _ => rewrite Hs
              end ]
  end;
  try (f_equal; apply Hnew);
  repeat match goal with
  | Ho : forall n : string, n <> ?c -> find_logger ?b n = find_logger ?a n
    |- context [find_logger ?b ?m] =>
      rewrite (Ho m) by (first [assumption | discriminate])
  end;
  try apply F0.
Qed.

Lemma reads_ret {A} (a : A) : reads_sys_heap (@ret world A a).
Proof. intros w1 w2 Hs Hh. repeat split; assumption. Qed.

Lemma reads_bind {A B} (m : M world A) (k : A -> M world B) :
  reads_sys_heap m -> (forall a, reads_sys_heap (k a)) ->
  reads_sys_heap (bind m k).
Proof.
  intros Hm Hk w1 w2 Hs Hh. unfold bind.
  destruct (Hm w1 w2 Hs Hh) as (E & Es & Eh).
  destruct (m w1) as [[a | e] s1], (m w2) as [[a' | e'] s2]; cbn in *;
    try discriminate E.
  - injection E as <-. apply Hk; assumption.
  - injection E as <-. repeat split; assumption.
Qed.

Lemma reads_for_each {A} (xs : list A) (body : A -> M world unit) :
  (forall x, reads_sys_heap (body x)) -> reads_sys_heap (for_each xs body).
Proof.
  intros Hb. induction xs as [| x xs IH]; cbn [for_each].
  - apply reads_ret.
  - apply reads_bind; [apply Hb | intros _; exact IH].
Qed.

Lemma reads_Handler_handle (addr : nat) (record : LogRecord) :
  reads_sys_heap (Handler_handle addr record).
Proof.
  intros w1 w2 Hs Hh. unfold Handler_handle. rewrite Hh, Hs.
  destruct (nth_error (heap w2) addr) as [[h | l] |].
  - destruct (emit record (h, sys w2)) as [r [h' o']]. cbn.
    repeat split.
  - destruct (formatter_format PercentFormatter record); cbn;
      rewrite ?Hs, ?Hh; repeat split; assumption.
  - cbn. repeat split; assumption.
Qed.

Lemma reads_guarded_handle (addr : nat) (record : LogRecord) :
  reads_sys_heap
    (w' <- get ;;
     match nth_error (heap w') addr with
     | Some h =>
         if (levelno record >=? handler_level h)%Z
         then Handler_handle addr record
         else ret tt
     | None => ret tt
     end).
Proof.
  intros w1 w2 Hs Hh. unfold bind, get. cbn beta iota. rewrite Hh.
  destruct (nth_error (heap w2) addr) as [h |].
  - destruct (levelno record >=? handler_level h)%Z.
    + apply reads_Handler_handle; assumption.
    + apply reads_ret; assumption.
  - apply reads_ret; assumption.
Qed.

Lemma same_dispatch_find (w1 w2 : world) (n : string) :
  same_dispatch w1 w2 ->
  match find_logger w1 n, find_logger w2 n with
  | Some a, Some b => propagate a = propagate b /\ handlers a = handlers b
  | None, None => True
  | _, _ => False
  end.
Proof.
  intros (_ & _ & _ & _ & H). unfold find_logger.
  induction H as [| [k1 a] [k2 b] l1 l2 (Hk & Hp & Hh) _ IH]; cbn.
  - exact I.
  - cbn in Hk. subst k2. destruct (String.eqb n k1); [split; assumption | exact IH].
Qed.

Lemma same_dispatch_handlers_up (w1 w2 : world) (names : list string) :
  same_dispatch w1 w2 -> handlers_up w1 names = handlers_up w2 names.
Proof.
  intros H. induction names as [| n names IH]; cbn [handlers_up].
  - exact (proj1 (proj2 (proj2 (proj2 H)))).
  - pose proof (same_dispatch_find w1 w2 n H) as Hn.
    destruct (find_logger w1 n) as [a |], (find_logger w2 n) as [b |];
      try contradiction.
    + destruct Hn as (-> & ->). rewrite IH. reflexivity.
    + exact IH.
Qed.

Lemma callHandlers_dispatch (name : string) (record : LogRecord) (w : world) :
  callHandlers name record w = dispatch_to (handlers_for w name) record w.
Proof.
  unfold callHandlers, dispatch_to, bind at 1, get.
  destruct (handlers_for w name); reflexivity.
Qed.

Lemma reads_dispatch_to (hs : list nat) (record : LogRecord) :
  reads_sys_heap (dispatch_to hs record).
Proof.
  unfold dispatch_to. destruct hs as [| a hs].
  - destruct (levelno record >=? WARNING)%Z; [| apply reads_ret].
    intros w1 w2 Hs Hh. rewrite !on_sys_run. cbn. rewrite Hs.
    repeat split. exact Hh.
  - apply reads_for_each. intros addr. apply reads_guarded_handle.
Qed.

(** A dispatch does not look at the levels of the loggers. *)
Lemma callHandlers_same_dispatch (name : string) (record : LogRecord)
  (w1 w2 : world) :
  same_dispatch w1 w2 ->
  fst (callHandlers name record w1) = fst (callHandlers name record w2)
  /\ sys (snd (callHandlers name record w1))
     = sys (snd (callHandlers name record w2))
  /\ heap (snd (callHandlers name record w1))
     = heap (snd (callHandlers name record w2)).
Proof.
  intros H. rewrite !callHandlers_dispatch.
  unfold handlers_for. rewrite (same_dispatch_handlers_up w1 w2 _ H).
  destruct H as (Hs & Hh & _).
  apply reads_dispatch_to; assumption.
Qed.

Lemma level_blind_ret {A} (a : A) : level_blind (@ret world A a).
Proof. intros w1 w2 H. split; [reflexivity | exact H]. Qed.

Lemma level_blind_bind {A B} (m : M world A) (k : A -> M world B) :
  level_blind m -> (forall a, level_blind (k a)) -> level_blind (bind m k).
Proof.
  intros Hm Hk w1 w2 H. unfold bind.
  destruct (Hm w1 w2 H) as (E & H').
  destruct (m w1) as [[a | e] s1], (m w2) as [[a' | e'] s2]; cbn in *;
    try discriminate E.
  - injection E as <-. apply Hk. exact H'.
  - injection E as <-. split; [reflexivity | exact H'].
Qed.

Lemma level_blind_uuid4 : level_blind uuid4.
Proof.
  intros w1 w2 (Hs & Hh & Hu & Hr & Hl). unfold uuid4. cbn. rewrite Hu.
  split; [reflexivity |]. repeat split; assumption.
Qed.

Lemma level_blind_now : level_blind datetime_now.
Proof.
  intros w1 w2 H. unfold datetime_now. cbn.
  rewrite (proj1 H). split; [reflexivity | exact H].
Qed.

Lemma level_blind_callHandlers (name : string) (record : LogRecord) :
  level_blind (callHandlers name record).
Proof.
  intros w1 w2 H.
  destruct (callHandlers_same_dispatch name record w1 w2 H) as (E1 & E2 & E3).
  split; [exact E1 |].
  pose proof (preserves_configuration_callHandlers name record w1) as C1.
  pose proof (preserves_configuration_callHandlers name record w2) as C2.
  pose proof (preserves_uuid_callHandlers name record w1) as U1.
  pose proof (preserves_uuid_callHandlers name record w2) as U2.
  unfold configuration in C1, C2.
  injection C1 as R1 L1 _ _. injection C2 as R2 L2 _ _.
  destruct H as (Hs & Hh & Hu & Hr & Hl).
  split; [exact E2 |]. split; [exact E3 |].
  split; [congruence |]. split; [rewrite R1, R2; exact Hr |].
  rewrite L1, L2. exact Hl.
Qed.

(** X19: the three operations that hand their record to
    [Logger.handle] ([log_interaction], [log_agent_activity],
    [log_tool_usage]) are not subject to any logger level: in two
    states that differ at most in the levels of the loggers they return
    the same and write the same. *)
Theorem handle_operations_ignore_logger_levels :
  forall (self : InteractionLogger) (op : operation) (w1 w2 : world),
    uses_handle op = true ->
    same_dispatch w1 w2 ->
    fst (call self op w1) = fst (call self op w2)
    /\ sys (snd (call self op w1)) = sys (snd (call self op w2))
    /\ heap (snd (call self op w1)) = heap (snd (call self op w2)).
Proof.
  intros self op w1 w2 Hop H.
  assert (Hb : level_blind (call self op)).
  { destruct op; try discriminate Hop; cbn [call];
      unfold log_interaction, log_agent_activity, log_tool_usage, Logger_handle;
      repeat first
        [ apply level_blind_uuid4 | apply level_blind_now
        | apply level_blind_callHandlers | apply level_blind_ret
        | apply level_blind_bind; [| intros ?] ]. }
  destruct (Hb w1 w2 H) as (E & Hs & Hh & _).
  split; [exact E |]. split; assumption.
Qed.

Lemma handle_operations_ignore_logger_levels_witness :
  fst (call logger_s1
         (OpInteraction "user_query" (Some "ping") None None None None None)
         w_channels_error)
  = fst (call logger_s1
           (OpInteraction "user_query" (Some "ping") None None None None None)
           w_session1)
  /\ sys (snd (call logger_s1
                 (OpInteraction "user_query" (Some "ping") None None None None
                    None) w_channels_error))
     = sys (snd (call logger_s1
                   (OpInteraction "user_query" (Some "ping") None None None None
                      None) w_session1))
  /\ heap (snd (call logger_s1
                  (OpInteraction "user_query" (Some "ping") None None None None
                     None) w_channels_error))
     = heap (snd (call logger_s1
                    (OpInteraction "user_query" (Some "ping") None None None None
                       None) w_session1)).
Proof.
  apply (handle_operations_ignore_logger_levels logger_s1
           (OpInteraction "user_query" (Some "ping") None None None None None)
           w_channels_error w_session1).
  - reflexivity.
  - unfold same_dispatch.
    split; [vm_compute; reflexivity |]. split; [vm_compute; reflexivity |].
    split; [vm_compute; reflexivity |]. split; [vm_compute; reflexivity |].
    vm_compute. repeat constructor.
Defined.

(** With the interaction channel at [ERROR] an [INFO] interaction is
    still written to the interaction file. *)
Example interaction_written_despite_level :
  option_map lg_level (find_logger w_channels_error "deer_flow.interactions")
  = Some ERROR
  /\ read_text (fs (sys w_channels_error))
               ["logs"; "interactions"; "interactions_2025-01-14.log"] = Some ""
  /\ read_text
       (fs (sys (snd (call logger_s1
                        (OpInteraction "user_query" (Some "ping") None None None
                           None None) w_channels_error))))
       ["logs"; "interactions"; "interactions_2025-01-14.log"] <> Some "".
Proof.
  split; [vm_compute; reflexivity |]. split; [vm_compute; reflexivity |].
  vm_compute. discriminate.
Qed.

(* ================================================================== *)
(** ** The sink: the retention pattern and a file that cannot be opened *)

Lemma ends_with_cons (suffix : string) (c : ascii) (s : string) :
  ends_with suffix s = true -> ends_with suffix (String c s) = true.
Proof. intros H. cbn [ends_with]. rewrite H. apply orb_true_r. Qed.

Lemma glob_literal_char (c : ascii) (pat s : string) :
  Ascii.eqb c "*" = false -> Ascii.eqb c "?" = false ->
  glob_match (String c pat) s = true ->
  exists s', s = String c s' /\ glob_match pat s' = true.
Proof.
  intros H1 H2. cbn [glob_match]. rewrite H1, H2. cbn [orb].
  destruct s as [| d s]; [discriminate |].
  intros H. apply andb_prop in H as [Hc H].
  apply Ascii.eqb_eq in Hc. subst d. exists s. split; [reflexivity | exact H].
Qed.

Lemma glob_literal_log (s : string) :
  glob_match ".log" s = true -> s = ".log".
Proof.
  intros H.
  apply glob_literal_char in H; [| reflexivity | reflexivity].
  destruct H as (s1 & -> & H).
  apply glob_literal_char in H; [| reflexivity | reflexivity].
  destruct H as (s2 & -> & H).
  apply glob_literal_char in H; [| reflexivity | reflexivity].
  destruct H as (s3 & -> & H).
  apply glob_literal_char in H; [| reflexivity | reflexivity].
  destruct H as (s4 & -> & H).
  destruct s4; [reflexivity | discriminate H].
Qed.

(** A pattern that ends in the literal [.log] matches only names that
    end in [.log]. *)
Lemma glob_needs_log_suffix (pat s : string) :
  glob_match (pat ++ ".log") s = true -> ends_with ".log" s = true.
Proof.
  revert s. induction pat as [| c pat IH]; intros s.
  - intros H. apply glob_literal_log in H. subst s. reflexivity.
  - change (String c pat ++ ".log") with (String c (pat ++ ".log")).
    cbn [glob_match].
    destruct (Ascii.eqb c "*").
    + induction s as [| d s IHs].
      * rewrite orb_false_r. apply IH.
      * intros H. apply orb_prop in H as [H | H].
        -- apply IH, H.
        -- apply ends_with_cons, IHs, H.
    + destruct s as [| d s]; [discriminate |].
      intros H. apply andb_prop in H as [_ H].
      apply ends_with_cons, IH, H.
Qed.

Lemma glob_plain_prefix (stem pat s : string) :
  plain_name stem = true ->
  glob_match (stem ++ pat) (stem ++ s) = glob_match pat s.
Proof.
  induction stem as [| c stem IH]; intros H; [reflexivity |].
  cbn [plain_name] in H.
  apply andb_prop in H as [H Hp]. apply andb_prop in H as [H _].
  apply andb_prop in H as [H1 H2].
  apply negb_true_iff in H1.
  change (String c stem ++ pat) with (String c (stem ++ pat)).
  change (String c stem ++ s) with (String c (stem ++ s)).
  cbn [glob_match]. rewrite H1, Ascii.eqb_refl, orb_true_r. cbn [andb].
  apply IH, Hp.
Qed.

Lemma string_app_assoc (a b c : string) : (a ++ b) ++ c = a ++ (b ++ c).
Proof. induction a as [| x a IH]; cbn; [reflexivity | rewrite IH; reflexivity]. Qed.

Lemma glob_underscore (pat s : string) :
  glob_match (String "_" pat) (String "_" s) = glob_match pat s.
Proof. reflexivity. Qed.

Lemma glob_star_skip (pat x s : string) :
  glob_match pat s = true -> glob_match (String "*" pat) (x ++ s) = true.
Proof.
  intros H. cbn [glob_match]. rewrite Ascii.eqb_refl.
  induction x as [| c x IH]; cbn [append].
  - destruct s; rewrite H; reflexivity.
  - rewrite IH. apply orb_true_r.
Qed.

Lemma glob_star_log (x : string) : glob_match "*.log" (x ++ ".log") = true.
Proof. apply glob_star_skip. reflexivity. Qed.

(** X21: the retention pattern is [<stem>_*.log] whatever the suffix
    of the base filename, while the dated filename keeps that suffix.
    So for a base filename with the suffix [.log] (and a stem without
    pattern characters) every dated file of the sink matches the
    pattern and is subject to retention; but a dated file whose name
    does not end in [.log] is never selected for removal, and the
    clean-up leaves it alone whatever [max_files] is. *)
Theorem retention_pattern_and_own_files :
  forall (base : path) (d : date),
    (path_suffix base = ".log" -> plain_name (path_stem base) = true ->
     glob_match (path_stem base ++ "_*.log") (path_name (dated_filename base d))
     = true)
    /\ (ends_with ".log" (path_name (dated_filename base d)) = false ->
        forall (h : DateRotatingFileHandler) (f : filesystem),
          base_filename h = base ->
          ~ In (dated_filename base d) (files_to_remove h f)
          /\ file_at (snd (_cleanup_old_files h f)) (dated_filename base d)
             = file_at f (dated_filename base d)).
Proof.
  intros base d. split.
  - intros Hsuf Hplain. unfold dated_filename. rewrite path_name_join, Hsuf.
    rewrite (glob_plain_prefix (path_stem base) "_*.log" _ Hplain).
    change ("_" ++ strftime_Ymd d ++ ".log")
      with (String "_" (strftime_Ymd d ++ ".log")).
    change "_*.log" with (String "_" "*.log").
    rewrite glob_underscore. apply glob_star_log.
  - intros Hend h f <-.
    assert (Hnot : ~ In (dated_filename (base_filename h) d) (files_to_remove h f)).
    { intros Hin. apply files_to_remove_dated in Hin.
      unfold dated_files in Hin. apply In_fs_glob_iff in Hin.
      destruct Hin as (_ & _ & Hglob).
      change (path_stem (base_filename h) ++ "_*.log")
        with (path_stem (base_filename h) ++ "_*" ++ ".log") in Hglob.
      rewrite <- string_app_assoc in Hglob.
      apply glob_needs_log_suffix in Hglob. congruence. }
    split; [exact Hnot |].
    unfold _cleanup_old_files.
    destruct (guarded_unlinks_spec (files_to_remove h f) f)
      as (f' & E & _ & Hi & _ & Ho & _).
    rewrite E. cbn [snd]. unfold file_at. rewrite (Ho _ Hnot), Hi. reflexivity.
Qed.

(** The dated files of a sink over [logs/audit.txt] do not match its
    retention pattern; those of a sink over [logs/test.log] do. *)
Example retention_skips_other_suffixes :
  ends_with ".log" (path_name (dated_filename ["logs"; "audit.txt"]
                                               (mkDate 2025 1 3))) = false
  /\ files_to_remove sink_audit
       (mkFS [([], true); (["logs"], true)]
             [ (["logs"; "audit_2025-01-01.txt"], 0%nat);
               (["logs"; "audit_2025-01-02.txt"], 1%nat);
               (["logs"; "audit_2025-01-03.txt"], 2%nat) ]
             (inodes fs_three_days)) = []
  /\ files_to_remove (sink_keeping 1) fs_three_days
     = [ ["logs"; "test_2025-01-01.log"]; ["logs"; "test_2025-01-02.log"] ].
Proof. vm_compute. repeat split. Qed.

(** A sink whose directory cannot be written to leaves the files
    over the limit where they are. *)
Lemma cleanup_unwritable (h : DateRotatingFileHandler) (f : filesystem) :
  lookup_dir f (path_parent (base_filename h)) <> Some true ->
  _cleanup_old_files h f = (Ok tt, f).
Proof.
  intros Hro. unfold _cleanup_old_files.
  destruct (guarded_unlinks_spec (files_to_remove h f) f)
    as (f' & E & _ & _ & _ & _ & Hsame).
  rewrite E. f_equal. apply Hsame.
  intros p Hp. apply In_files_to_remove in Hp. destruct Hp as (-> & _).
  exact Hro.
Qed.

Lemma open_append_fails (t : Z) (p : path) (f : filesystem) :
  lookup_dir f p = None -> lookup_file f p = None ->
  lookup_dir f (path_parent p) <> Some true ->
  fs_open_append t p f
  = (Raise (OSError (match lookup_dir f (path_parent p) with
                     | None => ENOENT
                     | Some _ => EACCES
                     end)), f).
Proof.
  intros Hd Hf Hp. unfold fs_open_append. rewrite Hd, Hf.
  destruct (lookup_dir f (path_parent p)) as [[|] |];
    [contradiction | reflexivity | reflexivity].
Qed.

(** X22: a sink that cannot open the file of the day lets the error
    of [open] out of [emit], to the caller of the logging operation.
    When the day has changed, the directory of the sink is missing or
    read-only and the new day's file does not exist, [emit] raises
    [FileNotFoundError] or [PermissionError]; nothing is written, and
    the sink has already turned to the new day with a closed stream,
    so that every [emit] of that day raises again as long as the file
    cannot be opened. *)
Theorem emit_raises_when_file_cannot_be_opened :
  forall (record : LogRecord) (h : DateRotatingFileHandler) (o : os),
    lookup_dir (fs o) (path_parent (base_filename h)) <> Some true ->
    lookup_dir (fs o) (dated_filename (base_filename h) (today (now o))) = None ->
    lookup_file (fs o) (dated_filename (base_filename h) (today (now o))) = None ->
    (today (now o) <> current_date h ->
     emit record (h, o)
     = (Raise (OSError (match lookup_dir (fs o) (path_parent (base_filename h)) with
                        | None => ENOENT
                        | Some _ => EACCES
                        end)),
        (mkHandler (base_filename h) (max_files h) (today (now o))
                   (dated_filename (base_filename h) (today (now o)))
                   None (level h) (fmt h), o)))
    /\ (today (now o) = current_date h -> stream h = None ->
        baseFilename h = dated_filename (base_filename h) (today (now o)) ->
        emit record (h, o)
        = (Raise (OSError (match lookup_dir (fs o)
                                   (path_parent (base_filename h)) with
                           | None => ENOENT
                           | Some _ => EACCES
                           end)),
           (h, o))).
Proof.
  intros record h o Hdir Hnd Hnf.
  assert (Hopen := open_append_fails (epoch (now o))
                     (dated_filename (base_filename h) (today (now o))) (fs o)
                     Hnd Hnf).
  rewrite dated_filename_parent in Hopen. specialize (Hopen Hdir).
  assert (Ho : set_fs o (fs o) = o) by (destruct o; reflexivity).
  split.
  - intros Hday. unfold emit, bind at 1, get. cbn [fst snd].
    destruct (date_eqb_spec (today (now o)) (current_date h)) as [E | _];
      [contradiction |].
    cbn [negb]. unfold close, update_self, modify, bind, get, ret.
    cbn [fst snd]. rewrite on_fs_run.
    rewrite cleanup_unwritable by exact Hdir. cbn [fst snd].
    rewrite Ho.
    unfold FileHandler_emit, bind, get. cbn [fst snd].
    unfold set_current_date, set_baseFilename, set_stream, _get_dated_filename.
    cbn [base_filename current_date baseFilename stream max_files level fmt].
    rewrite on_fs_run. cbn [fs]. rewrite Hopen. cbn [fst snd]. rewrite Ho.
    reflexivity.
  - intros Hday Hs Hb. unfold emit, bind at 1, get. cbn [fst snd].
    destruct (date_eqb_spec (today (now o)) (current_date h)) as [_ | E];
      [| contradiction].
    cbn [negb]. unfold bind at 1, ret.
    unfold FileHandler_emit, bind, get. cbn [fst snd]. rewrite Hs, Hb.
    rewrite on_fs_run, Hopen. cbn [fst snd]. rewrite Ho. reflexivity.
Qed.

Lemma emit_raises_when_file_cannot_be_opened_witness :
  (today (now (mkOS fs_three_days_readonly [] t_after_midnight))
   <> current_date (sink_keeping 1) ->
   emit record_after
        (sink_keeping 1, mkOS fs_three_days_readonly [] t_after_midnight)
   = (Raise (OSError (match lookup_dir fs_three_days_readonly ["logs"] with
                      | None => ENOENT
                      | Some _ => EACCES
                      end)),
      (mkHandler ["logs"; "test.log"] 1 (mkDate 2025 1 4)
                 ["logs"; "test_2025-01-04.log"] None NOTSET None,
       mkOS fs_three_days_readonly [] t_after_midnight)))
  /\ (today (now (mkOS fs_three_days_readonly [] t_after_midnight))
      = current_date (sink_keeping 1) ->
      stream (sink_keeping 1) = None ->
      baseFilename (sink_keeping 1) = ["logs"; "test_2025-01-04.log"] ->
      emit record_after
           (sink_keeping 1, mkOS fs_three_days_readonly [] t_after_midnight)
      = (Raise (OSError (match lookup_dir fs_three_days_readonly ["logs"] with
                         | None => ENOENT
                         | Some _ => EACCES
                         end)),
         (sink_keeping 1, mkOS fs_three_days_readonly [] t_after_midnight))).
Proof.
  apply (emit_raises_when_file_cannot_be_opened record_after (sink_keeping 1)
           (mkOS fs_three_days_readonly [] t_after_midnight)).
  - vm_compute. discriminate.
  - reflexivity.
  - reflexivity.
Defined.

(** In the read-only directory the first record after midnight makes
    [emit] raise a permission error. *)
Example emit_after_midnight_in_read_only_directory :
  fst (emit record_after
         (sink_keeping 1, mkOS fs_three_days_readonly [] t_after_midnight))
  = Raise (OSError EACCES).
Proof. vm_compute. reflexivity. Qed.
